(** * Intel 8080 core of the Arduino Nano simulator: a shallow embedding

    The development follows [arduino_8080.ino]: the precomputed flag table
    [szp_flags], the power-on routine [init_cpu] and the interpreter
    [cpu_8080], whose [switch] is the function [dispatch] below and whose
    shared tails (the [finish_*] labels) are functions of the temporaries
    that are live at the label.

    The target is an 8-bit AVR: [BYTE] is an unsigned 8-bit and [WORD] an
    unsigned 16-bit integer, [unsigned long] has 32 bits.  Values are
    integers of [Z]; every store into a variable reduces modulo the width of
    the variable, which is where C truncates. *)

From Stdlib Require Import ZArith List Bool Lia.
Import ListNotations.
Local Open Scope Z_scope.

(** ** C integer operations *)

Notation "x .& y" := (Z.land x y) (at level 40, left associativity) : Z_scope.
Notation "x .| y" := (Z.lor x y) (at level 50, left associativity) : Z_scope.
Notation "x .^ y" := (Z.lxor x y) (at level 50, left associativity) : Z_scope.
Notation "x << y" := (Z.shiftl x y) (at level 30, no associativity) : Z_scope.
Notation "x >> y" := (Z.shiftr x y) (at level 30, no associativity) : Z_scope.

(* conversion to BYTE, WORD and unsigned long *)
Definition byte (x : Z) : Z := x mod 2 ^ 8.
Definition word (x : Z) : Z := x mod 2 ^ 16.
Definition ulong (x : Z) : Z := x mod 2 ^ 32.

(* truth values of C: zero is false, a comparison yields 0 or 1 *)
Definition c_bool (b : bool) : Z := if b then 1 else 0.
Definition c_true (x : Z) : bool := negb (x =? 0).
Definition c_not (x : Z) : Z := c_bool (x =? 0).
Definition c_gt (x y : Z) : Z := c_bool (x >? y).
Definition c_or (x y : Z) : Z := c_bool (c_true x || c_true y).

(** ** Flag bits *)

(** Modelled from the spec: the flag constants of [simcore.h], which is not
    part of the sources at hand.  Bit positions, least significant first:
    C 0, N 1, P 2, X 3, H 4, Y 5, Z 6, S 7; [C_SHIFT] and [H_SHIFT] are the
    bit indices of the carry and the half carry flag. *)
Definition S_FLAG : Z := 128.
Definition Z_FLAG : Z := 64.
Definition Y_FLAG : Z := 32.
Definition H_FLAG : Z := 16.
Definition X_FLAG : Z := 8.
Definition P_FLAG : Z := 4.
Definition N_FLAG : Z := 2.
Definition C_FLAG : Z := 1.
Definition C_SHIFT : Z := 0.
Definition H_SHIFT : Z := 4.

(** Modelled from the spec: the run state of [simcore.h]. *)
Inductive CPUState : Set := Running | Halted | Interrupted.

(** ** The sign, zero and parity table *)

Definition szp_flags_tab : list Z :=
  let o := 0 in let s := S_FLAG in let z := Z_FLAG in let p := P_FLAG in [
  (*00*) z .| p;      o;      o;      p;      o;      p;      p;      o;
  (*08*)      o;      p;      p;      o;      p;      o;      o;      p;
  (*10*)      o;      p;      p;      o;      p;      o;      o;      p;
  (*18*)      p;      o;      o;      p;      o;      p;      p;      o;
  (*20*)      o;      p;      p;      o;      p;      o;      o;      p;
  (*28*)      p;      o;      o;      p;      o;      p;      p;      o;
  (*30*)      p;      o;      o;      p;      o;      p;      p;      o;
  (*38*)      o;      p;      p;      o;      p;      o;      o;      p;
  (*40*)      o;      p;      p;      o;      p;      o;      o;      p;
  (*48*)      p;      o;      o;      p;      o;      p;      p;      o;
  (*50*)      p;      o;      o;      p;      o;      p;      p;      o;
  (*58*)      o;      p;      p;      o;      p;      o;      o;      p;
  (*60*)      p;      o;      o;      p;      o;      p;      p;      o;
  (*68*)      o;      p;      p;      o;      p;      o;      o;      p;
  (*70*)      o;      p;      p;      o;      p;      o;      o;      p;
  (*78*)      p;      o;      o;      p;      o;      p;      p;      o;
  (*80*)      s; s .| p; s .| p;      s; s .| p;      s;      s; s .| p;
  (*88*) s .| p;      s;      s; s .| p;      s; s .| p; s .| p;      s;
  (*90*) s .| p;      s;      s; s .| p;      s; s .| p; s .| p;      s;
  (*98*)      s; s .| p; s .| p;      s; s .| p;      s;      s; s .| p;
  (*a0*) s .| p;      s;      s; s .| p;      s; s .| p; s .| p;      s;
  (*a8*)      s; s .| p; s .| p;      s; s .| p;      s;      s; s .| p;
  (*b0*)      s; s .| p; s .| p;      s; s .| p;      s;      s; s .| p;
  (*b8*) s .| p;      s;      s; s .| p;      s; s .| p; s .| p;      s;
  (*c0*) s .| p;      s;      s; s .| p;      s; s .| p; s .| p;      s;
  (*c8*)      s; s .| p; s .| p;      s; s .| p;      s;      s; s .| p;
  (*d0*)      s; s .| p; s .| p;      s; s .| p;      s;      s; s .| p;
  (*d8*) s .| p;      s;      s; s .| p;      s; s .| p; s .| p;      s;
  (*e0*)      s; s .| p; s .| p;      s; s .| p;      s;      s; s .| p;
  (*e8*) s .| p;      s;      s; s .| p;      s; s .| p; s .| p;      s;
  (*f0*) s .| p;      s;      s; s .| p;      s; s .| p; s .| p;      s;
  (*f8*)      s; s .| p; s .| p;      s; s .| p;      s;      s; s .| p
  ].

Definition szp_flags (i : Z) : Z := nth (Z.to_nat i) szp_flags_tab 0.

Definition SZP_FLAGS : Z := S_FLAG .| Z_FLAG .| P_FLAG.

(** ** Machine state

    The eleven fields of [struct cpu_state], which [cpu_8080] copies into
    locals of the same names and writes back when the loop ends, the local
    [t], the globals [State] and [tstates], and the collaborators: [mem] is
    the 64 KiB store behind [memrdr] and [memwrt], [inp] answers [io_in] and
    [outp] records the calls of [io_out] in order. *)
Record machine : Type := mkmachine {
  A : Z; B : Z; C : Z; D : Z; E : Z; H : Z; L : Z; F : Z; IFF : Z;
  PC8 : Z; SP8 : Z;
  t : Z;
  mem : Z -> Z;
  inp : Z -> Z -> Z;
  outp : list (Z * Z * Z);
  State : CPUState;
  tstates : Z
}.

(* assignments: the stored value is converted to the type of the variable *)
Definition set_A (v : Z) (s : machine) : machine :=
  mkmachine (byte v) (B s) (C s) (D s) (E s) (H s) (L s) (F s) (IFF s)
    (PC8 s) (SP8 s) (t s) (mem s) (inp s) (outp s) (State s) (tstates s).

Definition set_B (v : Z) (s : machine) : machine :=
  mkmachine (A s) (byte v) (C s) (D s) (E s) (H s) (L s) (F s) (IFF s)
    (PC8 s) (SP8 s) (t s) (mem s) (inp s) (outp s) (State s) (tstates s).

Definition set_C (v : Z) (s : machine) : machine :=
  mkmachine (A s) (B s) (byte v) (D s) (E s) (H s) (L s) (F s) (IFF s)
    (PC8 s) (SP8 s) (t s) (mem s) (inp s) (outp s) (State s) (tstates s).

Definition set_D (v : Z) (s : machine) : machine :=
  mkmachine (A s) (B s) (C s) (byte v) (E s) (H s) (L s) (F s) (IFF s)
    (PC8 s) (SP8 s) (t s) (mem s) (inp s) (outp s) (State s) (tstates s).

Definition set_E (v : Z) (s : machine) : machine :=
  mkmachine (A s) (B s) (C s) (D s) (byte v) (H s) (L s) (F s) (IFF s)
    (PC8 s) (SP8 s) (t s) (mem s) (inp s) (outp s) (State s) (tstates s).

Definition set_H (v : Z) (s : machine) : machine :=
  mkmachine (A s) (B s) (C s) (D s) (E s) (byte v) (L s) (F s) (IFF s)
    (PC8 s) (SP8 s) (t s) (mem s) (inp s) (outp s) (State s) (tstates s).

Definition set_L (v : Z) (s : machine) : machine :=
  mkmachine (A s) (B s) (C s) (D s) (E s) (H s) (byte v) (F s) (IFF s)
    (PC8 s) (SP8 s) (t s) (mem s) (inp s) (outp s) (State s) (tstates s).

Definition set_F (v : Z) (s : machine) : machine :=
  mkmachine (A s) (B s) (C s) (D s) (E s) (H s) (L s) (byte v) (IFF s)
    (PC8 s) (SP8 s) (t s) (mem s) (inp s) (outp s) (State s) (tstates s).

Definition set_IFF (v : Z) (s : machine) : machine :=
  mkmachine (A s) (B s) (C s) (D s) (E s) (H s) (L s) (F s) (byte v) (PC8 s)
    (SP8 s) (t s) (mem s) (inp s) (outp s) (State s) (tstates s).

Definition set_PC8 (v : Z) (s : machine) : machine :=
  mkmachine (A s) (B s) (C s) (D s) (E s) (H s) (L s) (F s) (IFF s) (word v)
    (SP8 s) (t s) (mem s) (inp s) (outp s) (State s) (tstates s).

Definition set_SP8 (v : Z) (s : machine) : machine :=
  mkmachine (A s) (B s) (C s) (D s) (E s) (H s) (L s) (F s) (IFF s) (PC8 s)
    (word v) (t s) (mem s) (inp s) (outp s) (State s) (tstates s).

Definition set_t (v : Z) (s : machine) : machine :=
  mkmachine (A s) (B s) (C s) (D s) (E s) (H s) (L s) (F s) (IFF s) (PC8 s)
    (SP8 s) (byte v) (mem s) (inp s) (outp s) (State s) (tstates s).

Definition set_mem (v : Z -> Z) (s : machine) : machine :=
  mkmachine (A s) (B s) (C s) (D s) (E s) (H s) (L s) (F s) (IFF s) (PC8 s)
    (SP8 s) (t s) v (inp s) (outp s) (State s) (tstates s).

Definition set_inp (v : Z -> Z -> Z) (s : machine) : machine :=
  mkmachine (A s) (B s) (C s) (D s) (E s) (H s) (L s) (F s) (IFF s) (PC8 s)
    (SP8 s) (t s) (mem s) v (outp s) (State s) (tstates s).

Definition set_outp (v : list (Z * Z * Z)) (s : machine) : machine :=
  mkmachine (A s) (B s) (C s) (D s) (E s) (H s) (L s) (F s) (IFF s) (PC8 s)
    (SP8 s) (t s) (mem s) (inp s) v (State s) (tstates s).

Definition set_State (v : CPUState) (s : machine) : machine :=
  mkmachine (A s) (B s) (C s) (D s) (E s) (H s) (L s) (F s) (IFF s) (PC8 s)
    (SP8 s) (t s) (mem s) (inp s) (outp s) v (tstates s).

Definition set_tstates (v : Z) (s : machine) : machine :=
  mkmachine (A s) (B s) (C s) (D s) (E s) (H s) (L s) (F s) (IFF s) (PC8 s)
    (SP8 s) (t s) (mem s) (inp s) (outp s) (State s) (ulong v).

(** Modelled from the spec: the memory port of [memsim.h] ([memrdr],
    [memwrt]) and the I/O port of [iosim.h] ([io_in], [io_out]), which are
    not part of the sources at hand.  Memory is a mapping from 16-bit
    addresses to bytes, every address readable and writable; a port read is
    a mapping from the port number, carried twice, to a byte, and a port
    write is observed by the collaborator. *)
Definition memrdr (s : machine) (addr : Z) : Z := byte (mem s (word addr)).

Definition memwrt (addr data : Z) (s : machine) : machine :=
  set_mem (fun a => if a =? word addr then byte data else mem s a) s.

Definition io_in (s : machine) (port addr : Z) : Z :=
  byte (inp s (byte port) (byte addr)).

Definition io_out (port addr data : Z) (s : machine) : machine :=
  set_outp (outp s ++ [(byte port, byte addr, byte data)]) s.

(** ** Shared tails of the opcode cases *)

Definition finish_inr (P res : Z) (s : machine) : machine :=
  let cout := byte ((P .& 1) .| ((P .| 1) .& (Z.lnot res))) in
  let s := set_F ((((F s) .& C_FLAG) .|
                   (((cout >> 3) .& 1) << H_SHIFT)) .|
                  (szp_flags res)) s in
  set_t (t s + 1) s.

Definition finish_dcr (P res : Z) (s : machine) : machine :=
  let cout := byte (((Z.lnot P) .& 1) .| (((Z.lnot P) .| 1) .& res)) in
  let s := set_F ((((F s) .& C_FLAG) .|
                   (((cout >> 3) .& 1) << H_SHIFT)) .|
                  (szp_flags res)) s in
  let s := set_F ((F s) .^ H_FLAG) s in
  set_t (t s + 1) s.

Definition finish_dad (addr cout : Z) (s : machine) : machine :=
  let s := set_F (((F s) .& (Z.lnot C_FLAG)) .|
                  (((cout >> 7) .& 1) << C_SHIFT)) s in
  let s := set_H (addr >> 8) s in
  let s := set_L (addr .& 0xff) s in
  set_t (t s + 6) s.

Definition finish_add (P : Z) (s : machine) : machine :=
  let res := byte ((A s) + P) in
  let cout := byte (((A s) .& P) .| (((A s) .| P) .& (Z.lnot res))) in
  let s := set_F (((((cout >> 7) .& 1) << C_SHIFT) .|
                   (((cout >> 3) .& 1) << H_SHIFT)) .|
                  (szp_flags res)) s in
  set_A res s.

Definition finish_adc (P : Z) (s : machine) : machine :=
  let res := byte ((A s) + P + (((F s) >> C_SHIFT) .& 1)) in
  let cout := byte (((A s) .& P) .| (((A s) .| P) .& (Z.lnot res))) in
  let s := set_F (((((cout >> 7) .& 1) << C_SHIFT) .|
                   (((cout >> 3) .& 1) << H_SHIFT)) .|
                  (szp_flags res)) s in
  set_A res s.

Definition finish_sub (P : Z) (s : machine) : machine :=
  let res := byte ((A s) - P) in
  let cout := byte (((Z.lnot (A s)) .& P) .|
                    (((Z.lnot (A s)) .| P) .& res)) in
  let s := set_F (((((cout >> 7) .& 1) << C_SHIFT) .|
                   (((cout >> 3) .& 1) << H_SHIFT)) .|
                  (szp_flags res)) s in
  let s := set_F ((F s) .^ H_FLAG) s in
  set_A res s.

Definition finish_sbb (P : Z) (s : machine) : machine :=
  let res := byte ((A s) - P - (((F s) >> C_SHIFT) .& 1)) in
  let cout := byte (((Z.lnot (A s)) .& P) .|
                    (((Z.lnot (A s)) .| P) .& res)) in
  let s := set_F (((((cout >> 7) .& 1) << C_SHIFT) .|
                   (((cout >> 3) .& 1) << H_SHIFT)) .|
                  (szp_flags res)) s in
  let s := set_F ((F s) .^ H_FLAG) s in
  set_A res s.

Definition finish_ana (P : Z) (s : machine) : machine :=
  let res := byte ((A s) .& P) in
  let s := set_F ((((((A s) .| P) >> 3) .& 1) << H_SHIFT) .|
                  (szp_flags res)) s in
  set_A res s.

Definition finish_cmp (P : Z) (s : machine) : machine :=
  let res := byte ((A s) - P) in
  let cout := byte (((Z.lnot (A s)) .& P) .|
                    (((Z.lnot (A s)) .| P) .& res)) in
  let s := set_F (((((cout >> 7) .& 1) << C_SHIFT) .|
                   (((cout >> 3) .& 1) << H_SHIFT)) .|
                  (szp_flags res)) s in
  set_F ((F s) .^ H_FLAG) s.

Definition finish_ret (s : machine) : machine :=
  let n := memrdr s (SP8 s) in
  let s := set_SP8 (SP8 s + 1) s in
  let addr := word n in
  let n := memrdr s (SP8 s) in
  let s := set_SP8 (SP8 s + 1) s in
  let addr := word (addr .| (n << 8)) in
  let s := set_t (t s + 6) s in
  set_PC8 addr s.

Definition finish_retc (res : Z) (s : machine) : machine :=
  let s := set_t (t s + 1) s in
  if c_true res then finish_ret s else s.

Definition finish_jmpc (res : Z) (s : machine) : machine :=
  let n := memrdr s (PC8 s) in
  let s := set_PC8 (PC8 s + 1) s in
  let addr := word n in
  let n := memrdr s (PC8 s) in
  let s := set_PC8 (PC8 s + 1) s in
  let addr := word (addr .| (n << 8)) in
  let s := set_t (t s + 6) s in
  if c_true res then set_PC8 addr s else s.

Definition finish_call (addr : Z) (s : machine) : machine :=
  let s := set_SP8 (SP8 s - 1) s in
  let s := memwrt (SP8 s) ((PC8 s) >> 8) s in
  let s := set_SP8 (SP8 s - 1) s in
  let s := memwrt (SP8 s) (PC8 s) s in
  let s := set_t (t s + 6) s in
  set_PC8 addr s.

Definition finish_callc (res : Z) (s : machine) : machine :=
  let n := memrdr s (PC8 s) in
  let s := set_PC8 (PC8 s + 1) s in
  let addr := word n in
  let n := memrdr s (PC8 s) in
  let s := set_PC8 (PC8 s + 1) s in
  let addr := word (addr .| (n << 8)) in
  let s := set_t (t s + 7) s in
  if c_true res then finish_call addr s else s.

(** ** The opcode switch of [cpu_8080]

    [dispatch op s] is the body of the [switch] for the opcode [op], run in
    the state [s] in which [PC8] already points behind the opcode. *)
Definition dispatch (op : Z) (s : machine) : machine :=
  match op with
  | 0x00 | 0x08 | 0x10 | 0x18 | 0x20 | 0x28 | 0x30 | 0x38 => (* NOP, NOP* *)
      s
  | 0x7f | 0x40 | 0x49 | 0x52 | 0x5b | 0x64 | 0x6d =>
      (* MOV A,A, MOV B,B, MOV C,C, MOV D,D, MOV E,E, MOV H,H, MOV L,L *)
      set_t (t s + 1) s
  | 0x01 => (* LXI B,nn *)
      let n := memrdr s (PC8 s) in
      let s := set_PC8 (PC8 s + 1) s in
      let s := set_C n s in
      let n := memrdr s (PC8 s) in
      let s := set_PC8 (PC8 s + 1) s in
      let s := set_B n s in
      set_t (t s + 6) s
  | 0x02 => (* STAX B *)
      let s := memwrt (((B s) << 8) .| (C s)) (A s) s in
      set_t (t s + 3) s
  | 0x03 => (* INX B *)
      let addr := word ((((B s) << 8) .| (C s)) + 1) in
      let s := set_B (addr >> 8) s in
      let s := set_C (addr .& 0xff) s in
      set_t (t s + 1) s
  | 0x04 => (* INR B *)
      let P := byte (B s) in
      let s := set_B (B s + 1) s in
      let res := byte (B s) in
      finish_inr P res s
  | 0x05 => (* DCR B *)
      let P := byte (B s) in
      let s := set_B (B s - 1) s in
      let res := byte (B s) in
      finish_dcr P res s
  | 0x06 => (* MVI B,n *)
      let n := memrdr s (PC8 s) in
      let s := set_PC8 (PC8 s + 1) s in
      let s := set_B n s in
      set_t (t s + 3) s
  | 0x07 => (* RLC *)
      let res := byte ((((A s) .& 128) >> 7) .& 1) in
      let s := set_F (((F s) .& (Z.lnot C_FLAG)) .| (res << C_SHIFT)) s in
      set_A (((A s) << 1) .| res) s
  | 0x09 => (* DAD B *)
      let addr := word (((H s) << 8) .| (L s)) in
      let addr := word (addr + (((B s) << 8) .| (C s))) in
      let cout := byte (((H s) .& (B s)) .| (((H s) .| (B s)) .& (Z.lnot (addr >> 8)))) in
      finish_dad addr cout s
  | 0x0a => (* LDAX B *)
      let s := set_A (memrdr s (((B s) << 8) .| (C s))) s in
      set_t (t s + 3) s
  | 0x0b => (* DCX B *)
      let addr := word ((((B s) << 8) .| (C s)) - 1) in
      let s := set_B (addr >> 8) s in
      let s := set_C (addr .& 0xff) s in
      set_t (t s + 1) s
  | 0x0c => (* INR C *)
      let P := byte (C s) in
      let s := set_C (C s + 1) s in
      let res := byte (C s) in
      finish_inr P res s
  | 0x0d => (* DCR C *)
      let P := byte (C s) in
      let s := set_C (C s - 1) s in
      let res := byte (C s) in
      finish_dcr P res s
  | 0x0e => (* MVI C,n *)
      let n := memrdr s (PC8 s) in
      let s := set_PC8 (PC8 s + 1) s in
      let s := set_C n s in
      set_t (t s + 3) s
  | 0x0f => (* RRC *)
      let res := byte ((A s) .& 1) in
      let s := set_F (((F s) .& (Z.lnot C_FLAG)) .| (res << C_SHIFT)) s in
      set_A (((A s) >> 1) .| (res << 7)) s
  | 0x11 => (* LXI D,nn *)
      let n := memrdr s (PC8 s) in
      let s := set_PC8 (PC8 s + 1) s in
      let s := set_E n s in
      let n := memrdr s (PC8 s) in
      let s := set_PC8 (PC8 s + 1) s in
      let s := set_D n s in
      set_t (t s + 6) s
  | 0x12 => (* STAX D *)
      let s := memwrt (((D s) << 8) .| (E s)) (A s) s in
      set_t (t s + 3) s
  | 0x13 => (* INX D *)
      let addr := word ((((D s) << 8) .| (E s)) + 1) in
      let s := set_D (addr >> 8) s in
      let s := set_E (addr .& 0xff) s in
      set_t (t s + 1) s
  | 0x14 => (* INR D *)
      let P := byte (D s) in
      let s := set_D (D s + 1) s in
      let res := byte (D s) in
      finish_inr P res s
  | 0x15 => (* DCR D *)
      let P := byte (D s) in
      let s := set_D (D s - 1) s in
      let res := byte (D s) in
      finish_dcr P res s
  | 0x16 => (* MVI D,n *)
      let n := memrdr s (PC8 s) in
      let s := set_PC8 (PC8 s + 1) s in
      let s := set_D n s in
      set_t (t s + 3) s
  | 0x17 => (* RAL *)
      let res := byte (((F s) >> C_SHIFT) .& 1) in
      let s := set_F (((F s) .& (Z.lnot C_FLAG)) .| (((((A s) .& 128) >> 7) .& 1) << C_SHIFT)) s in
      set_A (((A s) << 1) .| res) s
  | 0x19 => (* DAD D *)
      let addr := word (((H s) << 8) .| (L s)) in
      let addr := word (addr + (((D s) << 8) .| (E s))) in
      let cout := byte (((H s) .& (D s)) .| (((H s) .| (D s)) .& (Z.lnot (addr >> 8)))) in
      finish_dad addr cout s
  | 0x1a => (* LDAX D *)
      let s := set_A (memrdr s (((D s) << 8) .| (E s))) s in
      set_t (t s + 3) s
  | 0x1b => (* DCX D *)
      let addr := word ((((D s) << 8) .| (E s)) - 1) in
      let s := set_D (addr >> 8) s in
      let s := set_E (addr .& 0xff) s in
      set_t (t s + 1) s
  | 0x1c => (* INR E *)
      let P := byte (E s) in
      let s := set_E (E s + 1) s in
      let res := byte (E s) in
      finish_inr P res s
  | 0x1d => (* DCR E *)
      let P := byte (E s) in
      let s := set_E (E s - 1) s in
      let res := byte (E s) in
      finish_dcr P res s
  | 0x1e => (* MVI E,n *)
      let n := memrdr s (PC8 s) in
      let s := set_PC8 (PC8 s + 1) s in
      let s := set_E n s in
      set_t (t s + 3) s
  | 0x1f => (* RAR *)
      let res := byte (((F s) >> C_SHIFT) .& 1) in
      let s := set_F (((F s) .& (Z.lnot C_FLAG)) .| (((A s) .& 1) << C_SHIFT)) s in
      set_A (((A s) >> 1) .| (res << 7)) s
  | 0x21 => (* LXI H,nn *)
      let n := memrdr s (PC8 s) in
      let s := set_PC8 (PC8 s + 1) s in
      let s := set_L n s in
      let n := memrdr s (PC8 s) in
      let s := set_PC8 (PC8 s + 1) s in
      let s := set_H n s in
      set_t (t s + 6) s
  | 0x22 => (* SHLD nn *)
      let n := memrdr s (PC8 s) in
      let s := set_PC8 (PC8 s + 1) s in
      let addr := word n in
      let n := memrdr s (PC8 s) in
      let s := set_PC8 (PC8 s + 1) s in
      let addr := word (addr .| (n << 8)) in
      let s := memwrt addr (L s) s in
      let s := memwrt (addr + 1) (H s) s in
      set_t (t s + 12) s
  | 0x23 => (* INX H *)
      let addr := word ((((H s) << 8) .| (L s)) + 1) in
      let s := set_H (addr >> 8) s in
      let s := set_L (addr .& 0xff) s in
      set_t (t s + 1) s
  | 0x24 => (* INR H *)
      let P := byte (H s) in
      let s := set_H (H s + 1) s in
      let res := byte (H s) in
      finish_inr P res s
  | 0x25 => (* DCR H *)
      let P := byte (H s) in
      let s := set_H (H s - 1) s in
      let res := byte (H s) in
      finish_dcr P res s
  | 0x26 => (* MVI H,n *)
      let n := memrdr s (PC8 s) in
      let s := set_PC8 (PC8 s + 1) s in
      let s := set_H n s in
      set_t (t s + 3) s
  | 0x27 => (* DAA *)
      let P := byte 0 in
      let P := if c_true (c_or (c_gt ((A s) .& 0xf) 9) ((F s) .& H_FLAG))
               then byte (P .| 0x06) else P in
      let P := if c_true (c_or (c_gt (A s) 0x99) ((F s) .& C_FLAG))
               then byte (P .| 0x60) else P in
      let res := byte ((A s) + P) in
      let cout := byte (((A s) .& P) .| (((A s) .| P) .& (Z.lnot res))) in
      let s := set_F (((((c_gt (A s) 0x99) << C_SHIFT) .| ((F s) .& C_FLAG)) .|
                       (((cout >> 3) .& 1) << H_SHIFT)) .|
                      (szp_flags res)) s in
      set_A res s
  | 0x29 => (* DAD H *)
      let addr := word ((((H s) << 8) .| (L s)) << 1) in
      let cout := byte ((H s) .| ((H s) .& (Z.lnot (addr >> 8)))) in
      finish_dad addr cout s
  | 0x2a => (* LHLD nn *)
      let n := memrdr s (PC8 s) in
      let s := set_PC8 (PC8 s + 1) s in
      let addr := word n in
      let n := memrdr s (PC8 s) in
      let s := set_PC8 (PC8 s + 1) s in
      let addr := word (addr .| (n << 8)) in
      let s := set_L (memrdr s addr) s in
      let s := set_H (memrdr s (addr + 1)) s in
      set_t (t s + 12) s
  | 0x2b => (* DCX H *)
      let addr := word ((((H s) << 8) .| (L s)) - 1) in
      let s := set_H (addr >> 8) s in
      let s := set_L (addr .& 0xff) s in
      set_t (t s + 1) s
  | 0x2c => (* INR L *)
      let P := byte (L s) in
      let s := set_L (L s + 1) s in
      let res := byte (L s) in
      finish_inr P res s
  | 0x2d => (* DCR L *)
      let P := byte (L s) in
      let s := set_L (L s - 1) s in
      let res := byte (L s) in
      finish_dcr P res s
  | 0x2e => (* MVI L,n *)
      let n := memrdr s (PC8 s) in
      let s := set_PC8 (PC8 s + 1) s in
      let s := set_L n s in
      set_t (t s + 3) s
  | 0x2f => (* CMA *)
      set_A (Z.lnot (A s)) s
  | 0x31 => (* LXI SP,nn *)
      let n := memrdr s (PC8 s) in
      let s := set_PC8 (PC8 s + 1) s in
      let s := set_SP8 n s in
      let n := memrdr s (PC8 s) in
      let s := set_PC8 (PC8 s + 1) s in
      let s := set_SP8 ((SP8 s) .| (n << 8)) s in
      set_t (t s + 6) s
  | 0x32 => (* STA nn *)
      let n := memrdr s (PC8 s) in
      let s := set_PC8 (PC8 s + 1) s in
      let addr := word n in
      let n := memrdr s (PC8 s) in
      let s := set_PC8 (PC8 s + 1) s in
      let addr := word (addr .| (n << 8)) in
      let s := memwrt addr (A s) s in
      set_t (t s + 9) s
  | 0x33 => (* INX SP *)
      let s := set_SP8 ((SP8 s) + 1) s in
      set_t (t s + 1) s
  | 0x34 => (* INR M *)
      let addr := word (((H s) << 8) .| (L s)) in
      let P := byte (memrdr s addr) in
      let res := byte (P + 1) in
      let s := memwrt addr res s in
      let s := set_t (t s + 5) s in
      finish_inr P res s
  | 0x35 => (* DCR M *)
      let addr := word (((H s) << 8) .| (L s)) in
      let P := byte (memrdr s addr) in
      let res := byte (P - 1) in
      let s := memwrt addr res s in
      let s := set_t (t s + 5) s in
      finish_dcr P res s
  | 0x36 => (* MVI M,n *)
      let n := memrdr s (PC8 s) in
      let s := set_PC8 (PC8 s + 1) s in
      let s := memwrt (((H s) << 8) .| (L s)) n s in
      set_t (t s + 6) s
  | 0x37 => (* STC *)
      set_F ((F s) .| C_FLAG) s
  | 0x39 => (* DAD SP *)
      let addr := word ((((H s) << 8) .| (L s)) + (SP8 s)) in
      let cout := byte (((H s) .& ((SP8 s) >> 8)) .|
                        (((H s) .| ((SP8 s) >> 8)) .& (Z.lnot (addr >> 8)))) in
      finish_dad addr cout s
  | 0x3a => (* LDA nn *)
      let n := memrdr s (PC8 s) in
      let s := set_PC8 (PC8 s + 1) s in
      let addr := word n in
      let n := memrdr s (PC8 s) in
      let s := set_PC8 (PC8 s + 1) s in
      let addr := word (addr .| (n << 8)) in
      let s := set_A (memrdr s addr) s in
      set_t (t s + 9) s
  | 0x3b => (* DCX SP *)
      let s := set_SP8 ((SP8 s) - 1) s in
      set_t (t s + 1) s
  | 0x3c => (* INR A *)
      let P := byte (A s) in
      let s := set_A (A s + 1) s in
      let res := byte (A s) in
      finish_inr P res s
  | 0x3d => (* DCR A *)
      let P := byte (A s) in
      let s := set_A (A s - 1) s in
      let res := byte (A s) in
      finish_dcr P res s
  | 0x3e => (* MVI A,n *)
      let n := memrdr s (PC8 s) in
      let s := set_PC8 (PC8 s + 1) s in
      let s := set_A n s in
      set_t (t s + 3) s
  | 0x3f => (* CMC *)
      set_F ((F s) .^ C_FLAG) s
  | 0x41 => (* MOV B,C *)
      let s := set_B (C s) s in
      set_t (t s + 1) s
  | 0x42 => (* MOV B,D *)
      let s := set_B (D s) s in
      set_t (t s + 1) s
  | 0x43 => (* MOV B,E *)
      let s := set_B (E s) s in
      set_t (t s + 1) s
  | 0x44 => (* MOV B,H *)
      let s := set_B (H s) s in
      set_t (t s + 1) s
  | 0x45 => (* MOV B,L *)
      let s := set_B (L s) s in
      set_t (t s + 1) s
  | 0x46 => (* MOV B,M *)
      let s := set_B (memrdr s (((H s) << 8) .| (L s))) s in
      set_t (t s + 3) s
  | 0x47 => (* MOV B,A *)
      let s := set_B (A s) s in
      set_t (t s + 1) s
  | 0x48 => (* MOV C,B *)
      let s := set_C (B s) s in
      set_t (t s + 1) s
  | 0x4a => (* MOV C,D *)
      let s := set_C (D s) s in
      set_t (t s + 1) s
  | 0x4b => (* MOV C,E *)
      let s := set_C (E s) s in
      set_t (t s + 1) s
  | 0x4c => (* MOV C,H *)
      let s := set_C (H s) s in
      set_t (t s + 1) s
  | 0x4d => (* MOV C,L *)
      let s := set_C (L s) s in
      set_t (t s + 1) s
  | 0x4e => (* MOV C,M *)
      let s := set_C (memrdr s (((H s) << 8) .| (L s))) s in
      set_t (t s + 3) s
  | 0x4f => (* MOV C,A *)
      let s := set_C (A s) s in
      set_t (t s + 1) s
  | 0x50 => (* MOV D,B *)
      let s := set_D (B s) s in
      set_t (t s + 1) s
  | 0x51 => (* MOV D,C *)
      let s := set_D (C s) s in
      set_t (t s + 1) s
  | 0x53 => (* MOV D,E *)
      let s := set_D (E s) s in
      set_t (t s + 1) s
  | 0x54 => (* MOV D,H *)
      let s := set_D (H s) s in
      set_t (t s + 1) s
  | 0x55 => (* MOV D,L *)
      let s := set_D (L s) s in
      set_t (t s + 1) s
  | 0x56 => (* MOV D,M *)
      let s := set_D (memrdr s (((H s) << 8) .| (L s))) s in
      set_t (t s + 3) s
  | 0x57 => (* MOV D,A *)
      let s := set_D (A s) s in
      set_t (t s + 1) s
  | 0x58 => (* MOV E,B *)
      let s := set_E (B s) s in
      set_t (t s + 1) s
  | 0x59 => (* MOV E,C *)
      let s := set_E (C s) s in
      set_t (t s + 1) s
  | 0x5a => (* MOV E,D *)
      let s := set_E (D s) s in
      set_t (t s + 1) s
  | 0x5c => (* MOV E,H *)
      let s := set_E (H s) s in
      set_t (t s + 1) s
  | 0x5d => (* MOV E,L *)
      let s := set_E (L s) s in
      set_t (t s + 1) s
  | 0x5e => (* MOV E,M *)
      let s := set_E (memrdr s (((H s) << 8) .| (L s))) s in
      set_t (t s + 3) s
  | 0x5f => (* MOV E,A *)
      let s := set_E (A s) s in
      set_t (t s + 1) s
  | 0x60 => (* MOV H,B *)
      let s := set_H (B s) s in
      set_t (t s + 1) s
  | 0x61 => (* MOV H,C *)
      let s := set_H (C s) s in
      set_t (t s + 1) s
  | 0x62 => (* MOV H,D *)
      let s := set_H (D s) s in
      set_t (t s + 1) s
  | 0x63 => (* MOV H,E *)
      let s := set_H (E s) s in
      set_t (t s + 1) s
  | 0x65 => (* MOV H,L *)
      let s := set_H (L s) s in
      set_t (t s + 1) s
  | 0x66 => (* MOV H,M *)
      let s := set_H (memrdr s (((H s) << 8) .| (L s))) s in
      set_t (t s + 3) s
  | 0x67 => (* MOV H,A *)
      let s := set_H (A s) s in
      set_t (t s + 1) s
  | 0x68 => (* MOV L,B *)
      let s := set_L (B s) s in
      set_t (t s + 1) s
  | 0x69 => (* MOV L,C *)
      let s := set_L (C s) s in
      set_t (t s + 1) s
  | 0x6a => (* MOV L,D *)
      let s := set_L (D s) s in
      set_t (t s + 1) s
  | 0x6b => (* MOV L,E *)
      let s := set_L (E s) s in
      set_t (t s + 1) s
  | 0x6c => (* MOV L,H *)
      let s := set_L (H s) s in
      set_t (t s + 1) s
  | 0x6e => (* MOV L,M *)
      let s := set_L (memrdr s (((H s) << 8) .| (L s))) s in
      set_t (t s + 3) s
  | 0x6f => (* MOV L,A *)
      let s := set_L (A s) s in
      set_t (t s + 1) s
  | 0x70 => (* MOV M,B *)
      let s := memwrt (((H s) << 8) .| (L s)) (B s) s in
      set_t (t s + 3) s
  | 0x71 => (* MOV M,C *)
      let s := memwrt (((H s) << 8) .| (L s)) (C s) s in
      set_t (t s + 3) s
  | 0x72 => (* MOV M,D *)
      let s := memwrt (((H s) << 8) .| (L s)) (D s) s in
      set_t (t s + 3) s
  | 0x73 => (* MOV M,E *)
      let s := memwrt (((H s) << 8) .| (L s)) (E s) s in
      set_t (t s + 3) s
  | 0x74 => (* MOV M,H *)
      let s := memwrt (((H s) << 8) .| (L s)) (H s) s in
      set_t (t s + 3) s
  | 0x75 => (* MOV M,L *)
      let s := memwrt (((H s) << 8) .| (L s)) (L s) s in
      set_t (t s + 3) s
  | 0x76 => (* HLT *)
      let s := set_State Halted s in
      set_t (t s + 3) s
  | 0x77 => (* MOV M,A *)
      let s := memwrt (((H s) << 8) .| (L s)) (A s) s in
      set_t (t s + 3) s
  | 0x78 => (* MOV A,B *)
      let s := set_A (B s) s in
      set_t (t s + 1) s
  | 0x79 => (* MOV A,C *)
      let s := set_A (C s) s in
      set_t (t s + 1) s
  | 0x7a => (* MOV A,D *)
      let s := set_A (D s) s in
      set_t (t s + 1) s
  | 0x7b => (* MOV A,E *)
      let s := set_A (E s) s in
      set_t (t s + 1) s
  | 0x7c => (* MOV A,H *)
      let s := set_A (H s) s in
      set_t (t s + 1) s
  | 0x7d => (* MOV A,L *)
      let s := set_A (L s) s in
      set_t (t s + 1) s
  | 0x7e => (* MOV A,M *)
      let s := set_A (memrdr s (((H s) << 8) .| (L s))) s in
      set_t (t s + 3) s
  | 0x80 => (* ADD B *)
      let P := byte (B s) in
      finish_add P s
  | 0x81 => (* ADD C *)
      let P := byte (C s) in
      finish_add P s
  | 0x82 => (* ADD D *)
      let P := byte (D s) in
      finish_add P s
  | 0x83 => (* ADD E *)
      let P := byte (E s) in
      finish_add P s
  | 0x84 => (* ADD H *)
      let P := byte (H s) in
      finish_add P s
  | 0x85 => (* ADD L *)
      let P := byte (L s) in
      finish_add P s
  | 0x86 => (* ADD M *)
      let P := byte (memrdr s (((H s) << 8) .| (L s))) in
      let s := set_t (t s + 3) s in
      finish_add P s
  | 0x87 => (* ADD A *)
      let P := byte (A s) in
      finish_add P s
  | 0x88 => (* ADC B *)
      let P := byte (B s) in
      finish_adc P s
  | 0x89 => (* ADC C *)
      let P := byte (C s) in
      finish_adc P s
  | 0x8a => (* ADC D *)
      let P := byte (D s) in
      finish_adc P s
  | 0x8b => (* ADC E *)
      let P := byte (E s) in
      finish_adc P s
  | 0x8c => (* ADC H *)
      let P := byte (H s) in
      finish_adc P s
  | 0x8d => (* ADC L *)
      let P := byte (L s) in
      finish_adc P s
  | 0x8e => (* ADC M *)
      let P := byte (memrdr s (((H s) << 8) .| (L s))) in
      let s := set_t (t s + 3) s in
      finish_adc P s
  | 0x8f => (* ADC A *)
      let P := byte (A s) in
      finish_adc P s
  | 0x90 => (* SUB B *)
      let P := byte (B s) in
      finish_sub P s
  | 0x91 => (* SUB C *)
      let P := byte (C s) in
      finish_sub P s
  | 0x92 => (* SUB D *)
      let P := byte (D s) in
      finish_sub P s
  | 0x93 => (* SUB E *)
      let P := byte (E s) in
      finish_sub P s
  | 0x94 => (* SUB H *)
      let P := byte (H s) in
      finish_sub P s
  | 0x95 => (* SUB L *)
      let P := byte (L s) in
      finish_sub P s
  | 0x96 => (* SUB M *)
      let P := byte (memrdr s (((H s) << 8) .| (L s))) in
      let s := set_t (t s + 3) s in
      finish_sub P s
  | 0x97 => (* SUB A *)
      let s := set_F ((Z_FLAG .| H_FLAG) .| P_FLAG) s in
      set_A 0 s
  | 0x98 => (* SBB B *)
      let P := byte (B s) in
      finish_sbb P s
  | 0x99 => (* SBB C *)
      let P := byte (C s) in
      finish_sbb P s
  | 0x9a => (* SBB D *)
      let P := byte (D s) in
      finish_sbb P s
  | 0x9b => (* SBB E *)
      let P := byte (E s) in
      finish_sbb P s
  | 0x9c => (* SBB H *)
      let P := byte (H s) in
      finish_sbb P s
  | 0x9d => (* SBB L *)
      let P := byte (L s) in
      finish_sbb P s
  | 0x9e => (* SBB M *)
      let P := byte (memrdr s (((H s) << 8) .| (L s))) in
      let s := set_t (t s + 3) s in
      finish_sbb P s
  | 0x9f => (* SBB A *)
      let P := byte (A s) in
      finish_sbb P s
  | 0xa0 => (* ANA B *)
      let P := byte (B s) in
      finish_ana P s
  | 0xa1 => (* ANA C *)
      let P := byte (C s) in
      finish_ana P s
  | 0xa2 => (* ANA D *)
      let P := byte (D s) in
      finish_ana P s
  | 0xa3 => (* ANA E *)
      let P := byte (E s) in
      finish_ana P s
  | 0xa4 => (* ANA H *)
      let P := byte (H s) in
      finish_ana P s
  | 0xa5 => (* ANA L *)
      let P := byte (L s) in
      finish_ana P s
  | 0xa6 => (* ANA M *)
      let P := byte (memrdr s (((H s) << 8) .| (L s))) in
      let s := set_t (t s + 3) s in
      finish_ana P s
  | 0xa7 => (* ANA A *)
      let P := byte (A s) in
      finish_ana P s
  | 0xa8 => (* XRA B *)
      let s := set_A ((A s) .^ (B s)) s in
      set_F (szp_flags (A s)) s
  | 0xa9 => (* XRA C *)
      let s := set_A ((A s) .^ (C s)) s in
      set_F (szp_flags (A s)) s
  | 0xaa => (* XRA D *)
      let s := set_A ((A s) .^ (D s)) s in
      set_F (szp_flags (A s)) s
  | 0xab => (* XRA E *)
      let s := set_A ((A s) .^ (E s)) s in
      set_F (szp_flags (A s)) s
  | 0xac => (* XRA H *)
      let s := set_A ((A s) .^ (H s)) s in
      set_F (szp_flags (A s)) s
  | 0xad => (* XRA L *)
      let s := set_A ((A s) .^ (L s)) s in
      set_F (szp_flags (A s)) s
  | 0xae => (* XRA M *)
      let s := set_A ((A s) .^ (memrdr s (((H s) << 8) .| (L s)))) s in
      let s := set_t (t s + 3) s in
      set_F (szp_flags (A s)) s
  | 0xaf => (* XRA A *)
      let s := set_A 0 s in
      set_F (Z_FLAG .| P_FLAG) s
  | 0xb0 => (* ORA B *)
      let s := set_A ((A s) .| (B s)) s in
      set_F (szp_flags (A s)) s
  | 0xb1 => (* ORA C *)
      let s := set_A ((A s) .| (C s)) s in
      set_F (szp_flags (A s)) s
  | 0xb2 => (* ORA D *)
      let s := set_A ((A s) .| (D s)) s in
      set_F (szp_flags (A s)) s
  | 0xb3 => (* ORA E *)
      let s := set_A ((A s) .| (E s)) s in
      set_F (szp_flags (A s)) s
  | 0xb4 => (* ORA H *)
      let s := set_A ((A s) .| (H s)) s in
      set_F (szp_flags (A s)) s
  | 0xb5 => (* ORA L *)
      let s := set_A ((A s) .| (L s)) s in
      set_F (szp_flags (A s)) s
  | 0xb6 => (* ORA M *)
      let s := set_A ((A s) .| (memrdr s (((H s) << 8) .| (L s)))) s in
      let s := set_t (t s + 3) s in
      set_F (szp_flags (A s)) s
  | 0xb7 => (* ORA A *)
      set_F (szp_flags (A s)) s
  | 0xb8 => (* CMP B *)
      let P := byte (B s) in
      finish_cmp P s
  | 0xb9 => (* CMP C *)
      let P := byte (C s) in
      finish_cmp P s
  | 0xba => (* CMP D *)
      let P := byte (D s) in
      finish_cmp P s
  | 0xbb => (* CMP E *)
      let P := byte (E s) in
      finish_cmp P s
  | 0xbc => (* CMP H *)
      let P := byte (H s) in
      finish_cmp P s
  | 0xbd => (* CMP L *)
      let P := byte (L s) in
      finish_cmp P s
  | 0xbe => (* CMP M *)
      let P := byte (memrdr s (((H s) << 8) .| (L s))) in
      let s := set_t (t s + 3) s in
      finish_cmp P s
  | 0xbf => (* CMP A *)
      set_F ((Z_FLAG .| H_FLAG) .| P_FLAG) s
  | 0xc0 => (* RNZ *)
      let res := byte (c_not ((F s) .& Z_FLAG)) in
      finish_retc res s
  | 0xc1 => (* POP B *)
      let n := memrdr s (SP8 s) in
      let s := set_SP8 (SP8 s + 1) s in
      let s := set_C n s in
      let n := memrdr s (SP8 s) in
      let s := set_SP8 (SP8 s + 1) s in
      let s := set_B n s in
      set_t (t s + 6) s
  | 0xc2 => (* JNZ nn *)
      let res := byte (c_not ((F s) .& Z_FLAG)) in
      finish_jmpc res s
  | 0xc3 | 0xcb => (* JMP nn, JMP* nn *)
      let n := memrdr s (PC8 s) in
      let s := set_PC8 (PC8 s + 1) s in
      let addr := word n in
      let addr := word (addr .| ((memrdr s (PC8 s)) << 8)) in
      let s := set_t (t s + 6) s in
      set_PC8 addr s
  | 0xc4 => (* CNZ nn *)
      let res := byte (c_not ((F s) .& Z_FLAG)) in
      finish_callc res s
  | 0xc5 => (* PUSH B *)
      let s := set_SP8 (SP8 s - 1) s in
      let s := memwrt (SP8 s) (B s) s in
      let s := set_SP8 (SP8 s - 1) s in
      let s := memwrt (SP8 s) (C s) s in
      set_t (t s + 7) s
  | 0xc6 => (* ADI n *)
      let n := memrdr s (PC8 s) in
      let s := set_PC8 (PC8 s + 1) s in
      let P := byte n in
      let s := set_t (t s + 3) s in
      finish_add P s
  | 0xc7 => (* RST 0 *)
      let addr := word 0 in
      let s := set_t (t s + 1) s in
      finish_call addr s
  | 0xc8 => (* RZ *)
      let res := byte ((F s) .& Z_FLAG) in
      finish_retc res s
  | 0xc9 | 0xd9 => (* RET, RET* *)
      finish_ret s
  | 0xca => (* JZ nn *)
      let res := byte ((F s) .& Z_FLAG) in
      finish_jmpc res s
  | 0xcc => (* CZ nn *)
      let res := byte ((F s) .& Z_FLAG) in
      finish_callc res s
  | 0xcd | 0xdd | 0xed | 0xfd => (* CALL nn, CALL* nn *)
      let n := memrdr s (PC8 s) in
      let s := set_PC8 (PC8 s + 1) s in
      let addr := word n in
      let n := memrdr s (PC8 s) in
      let s := set_PC8 (PC8 s + 1) s in
      let addr := word (addr .| (n << 8)) in
      let s := set_t (t s + 7) s in
      finish_call addr s
  | 0xce => (* ACI n *)
      let n := memrdr s (PC8 s) in
      let s := set_PC8 (PC8 s + 1) s in
      let P := byte n in
      let s := set_t (t s + 3) s in
      finish_adc P s
  | 0xcf => (* RST 1 *)
      let addr := word 0x08 in
      let s := set_t (t s + 1) s in
      finish_call addr s
  | 0xd0 => (* RNC *)
      let res := byte (c_not ((F s) .& C_FLAG)) in
      finish_retc res s
  | 0xd1 => (* POP D *)
      let n := memrdr s (SP8 s) in
      let s := set_SP8 (SP8 s + 1) s in
      let s := set_E n s in
      let n := memrdr s (SP8 s) in
      let s := set_SP8 (SP8 s + 1) s in
      let s := set_D n s in
      set_t (t s + 6) s
  | 0xd2 => (* JNC nn *)
      let res := byte (c_not ((F s) .& C_FLAG)) in
      finish_jmpc res s
  | 0xd3 => (* OUT n *)
      let n := memrdr s (PC8 s) in
      let s := set_PC8 (PC8 s + 1) s in
      let P := byte n in
      let s := io_out P P (A s) s in
      set_t (t s + 6) s
  | 0xd4 => (* CNC nn *)
      let res := byte (c_not ((F s) .& C_FLAG)) in
      finish_callc res s
  | 0xd5 => (* PUSH D *)
      let s := set_SP8 (SP8 s - 1) s in
      let s := memwrt (SP8 s) (D s) s in
      let s := set_SP8 (SP8 s - 1) s in
      let s := memwrt (SP8 s) (E s) s in
      set_t (t s + 7) s
  | 0xd6 => (* SUI n *)
      let n := memrdr s (PC8 s) in
      let s := set_PC8 (PC8 s + 1) s in
      let P := byte n in
      let s := set_t (t s + 3) s in
      finish_sub P s
  | 0xd7 => (* RST 2 *)
      let addr := word 0x10 in
      let s := set_t (t s + 1) s in
      finish_call addr s
  | 0xd8 => (* RC *)
      let res := byte ((F s) .& C_FLAG) in
      finish_retc res s
  | 0xda => (* JC nn *)
      let res := byte ((F s) .& C_FLAG) in
      finish_jmpc res s
  | 0xdb => (* IN n *)
      let n := memrdr s (PC8 s) in
      let s := set_PC8 (PC8 s + 1) s in
      let P := byte n in
      let s := set_A (io_in s P P) s in
      set_t (t s + 6) s
  | 0xdc => (* CC nn *)
      let res := byte ((F s) .& C_FLAG) in
      finish_callc res s
  | 0xde => (* SBI n *)
      let n := memrdr s (PC8 s) in
      let s := set_PC8 (PC8 s + 1) s in
      let P := byte n in
      let s := set_t (t s + 3) s in
      finish_sbb P s
  | 0xdf => (* RST 3 *)
      let addr := word 0x18 in
      let s := set_t (t s + 1) s in
      finish_call addr s
  | 0xe0 => (* RPO *)
      let res := byte (c_not ((F s) .& P_FLAG)) in
      finish_retc res s
  | 0xe1 => (* POP H *)
      let n := memrdr s (SP8 s) in
      let s := set_SP8 (SP8 s + 1) s in
      let s := set_L n s in
      let n := memrdr s (SP8 s) in
      let s := set_SP8 (SP8 s + 1) s in
      let s := set_H n s in
      set_t (t s + 6) s
  | 0xe2 => (* JPO nn *)
      let res := byte (c_not ((F s) .& P_FLAG)) in
      finish_jmpc res s
  | 0xe3 => (* XTHL *)
      let P := byte (memrdr s (SP8 s)) in
      let s := memwrt (SP8 s) (L s) s in
      let s := set_L P s in
      let P := byte (memrdr s ((SP8 s) + 1)) in
      let s := memwrt ((SP8 s) + 1) (H s) s in
      let s := set_H P s in
      set_t (t s + 14) s
  | 0xe4 => (* CPO nn *)
      let res := byte (c_not ((F s) .& P_FLAG)) in
      finish_callc res s
  | 0xe5 => (* PUSH H *)
      let s := set_SP8 (SP8 s - 1) s in
      let s := memwrt (SP8 s) (H s) s in
      let s := set_SP8 (SP8 s - 1) s in
      let s := memwrt (SP8 s) (L s) s in
      set_t (t s + 7) s
  | 0xe6 => (* ANI n *)
      let n := memrdr s (PC8 s) in
      let s := set_PC8 (PC8 s + 1) s in
      let P := byte n in
      let s := set_t (t s + 3) s in
      finish_ana P s
  | 0xe7 => (* RST 4 *)
      let addr := word 0x20 in
      let s := set_t (t s + 1) s in
      finish_call addr s
  | 0xe8 => (* RPE *)
      let res := byte ((F s) .& P_FLAG) in
      finish_retc res s
  | 0xe9 => (* PCHL *)
      let s := set_PC8 (((H s) << 8) .| (L s)) s in
      set_t (t s + 1) s
  | 0xea => (* JPE nn *)
      let res := byte ((F s) .& P_FLAG) in
      finish_jmpc res s
  | 0xeb => (* XCHG *)
      let P := byte (D s) in
      let s := set_D (H s) s in
      let s := set_H P s in
      let P := byte (E s) in
      let s := set_E (L s) s in
      set_L P s
  | 0xec => (* CPE nn *)
      let res := byte ((F s) .& P_FLAG) in
      finish_callc res s
  | 0xee => (* XRI n *)
      let n := memrdr s (PC8 s) in
      let s := set_PC8 (PC8 s + 1) s in
      let s := set_A ((A s) .^ n) s in
      let s := set_t (t s + 3) s in
      set_F (szp_flags (A s)) s
  | 0xef => (* RST 5 *)
      let addr := word 0x28 in
      let s := set_t (t s + 1) s in
      finish_call addr s
  | 0xf0 => (* RP *)
      let res := byte (c_not ((F s) .& S_FLAG)) in
      finish_retc res s
  | 0xf1 => (* POP PSW *)
      let n := memrdr s (SP8 s) in
      let s := set_SP8 (SP8 s + 1) s in
      let s := set_F n s in
      let n := memrdr s (SP8 s) in
      let s := set_SP8 (SP8 s + 1) s in
      let s := set_A n s in
      set_t (t s + 6) s
  | 0xf2 => (* JP nn *)
      let res := byte (c_not ((F s) .& S_FLAG)) in
      finish_jmpc res s
  | 0xf3 => (* DI *)
      set_IFF 0 s
  | 0xf4 => (* CP nn *)
      let res := byte (c_not ((F s) .& S_FLAG)) in
      finish_callc res s
  | 0xf5 => (* PUSH PSW *)
      let s := set_SP8 (SP8 s - 1) s in
      let s := memwrt (SP8 s) (A s) s in
      let s := set_SP8 (SP8 s - 1) s in
      let s := memwrt (SP8 s) (((F s) .& (Z.lnot (Y_FLAG .| X_FLAG))) .| N_FLAG) s in
      set_t (t s + 7) s
  | 0xf6 => (* ORI n *)
      let n := memrdr s (PC8 s) in
      let s := set_PC8 (PC8 s + 1) s in
      let s := set_A ((A s) .| n) s in
      let s := set_t (t s + 3) s in
      set_F (szp_flags (A s)) s
  | 0xf7 => (* RST 6 *)
      let addr := word 0x30 in
      let s := set_t (t s + 1) s in
      finish_call addr s
  | 0xf8 => (* RM *)
      let res := byte ((F s) .& S_FLAG) in
      finish_retc res s
  | 0xf9 => (* SPHL *)
      let s := set_SP8 (((H s) << 8) .| (L s)) s in
      set_t (t s + 1) s
  | 0xfa => (* JM nn *)
      let res := byte ((F s) .& S_FLAG) in
      finish_jmpc res s
  | 0xfb => (* EI *)
      set_IFF 3 s
  | 0xfc => (* CM nn *)
      let res := byte ((F s) .& S_FLAG) in
      finish_callc res s
  | 0xfe => (* CPI n *)
      let n := memrdr s (PC8 s) in
      let s := set_PC8 (PC8 s + 1) s in
      let P := byte n in
      let s := set_t (t s + 3) s in
      finish_cmp P s
  | 0xff => (* RST 7 *)
      let addr := word 0x38 in
      let s := set_t (t s + 1) s in
      finish_call addr s
  | _ => (* default *)
      set_t 0 s
  end.

(** One turn of the loop of [cpu_8080]. *)
Definition step (s : machine) : machine :=
  let s := set_t 4 s in
  let op := memrdr s (PC8 s) in
  let s := set_PC8 (PC8 s + 1) s in
  let s := dispatch op s in
  set_tstates (tstates s + t s) s.

(** The [do ... while (State == Running)] loop, bounded by [fuel] turns: the
    result is [None] when the CPU is still running after [fuel] turns. *)
Fixpoint cpu_8080 (fuel : nat) (s : machine) : option machine :=
  match fuel with
  | O => None
  | S k =>
      let s := step s in
      match State s with
      | Running => cpu_8080 k s
      | _ => Some s
      end
  end.

(** ** Power-on initialisation *)

Section PowerOn.

(** [random(max)] belongs to the Arduino core library: a generator state
    is threaded through the draws. *)
Variable rng : Type.
Variable random : Z -> rng -> Z * rng.

Definition init_cpu (g : rng) (s : machine) : machine * rng :=
  let s := set_PC8 0 s in
  let (r, g) := random 65535 g in let s := set_SP8 r s in
  let (r, g) := random 255 g in let s := set_A r s in
  let (r, g) := random 255 g in let s := set_B r s in
  let (r, g) := random 255 g in let s := set_C r s in
  let (r, g) := random 255 g in let s := set_D r s in
  let (r, g) := random 255 g in let s := set_E r s in
  let (r, g) := random 255 g in let s := set_H r s in
  let (r, g) := random 255 g in let s := set_L r s in
  let (r, g) := random 255 g in let s := set_F r s in
  (s, g).

(* successive draws with the given maxima *)
Fixpoint draws (maxs : list Z) (g : rng) : list Z :=
  match maxs with
  | [] => []
  | m :: ms => fst (random m g) :: draws ms (snd (random m g))
  end.

End PowerOn.

(** The state of the globals when the program starts: [cpu_state] has static
    storage and no initialiser, hence is all zero; [State] and [tstates]
    carry initialisers.  Memory and the I/O collaborator are given. *)
Definition power_on (m : Z -> Z) (i : Z -> Z -> Z) : machine :=
  mkmachine 0 0 0 0 0 0 0 0 0 0 0 0 m i [] Running 0.

(** ** Vocabulary of the statements *)

(* the register or memory operand selected by the low three bits of an
   opcode, in a state whose [PC8] points at the opcode *)
Definition operand (k : Z) (s : machine) : Z :=
  match k with
  | 0 => B s | 1 => C s | 2 => D s | 3 => E s | 4 => H s | 5 => L s
  | 6 => memrdr s (((H s) << 8) .| (L s))
  | _ => A s
  end.

(* the byte that follows the opcode *)
Definition immediate (s : machine) : Z := memrdr s (PC8 s + 1).

Definition between (lo x hi : Z) : bool := (lo <=? x) && (x <=? hi).

(* ADD r, ADD M and ADI n with their operand *)
Definition add_form (op : Z) (s : machine) : option Z :=
  if between 0x80 op 0x87 then Some (operand (op - 0x80) s)
  else if op =? 0xc6 then Some (immediate s)
  else None.

Inductive sub_kind : Set := SUB | SBB | CMP.

(* SUB/SUI, SBB/SBI and CMP/CPI with their operand *)
Definition sub_form (op : Z) (s : machine) : option (sub_kind * Z) :=
  if between 0x90 op 0x97 then Some (SUB, operand (op - 0x90) s)
  else if between 0x98 op 0x9f then Some (SBB, operand (op - 0x98) s)
  else if between 0xb8 op 0xbf then Some (CMP, operand (op - 0xb8) s)
  else if op =? 0xd6 then Some (SUB, immediate s)
  else if op =? 0xde then Some (SBB, immediate s)
  else if op =? 0xfe then Some (CMP, immediate s)
  else None.

(* carry-outs of every bit, as the flag formulas of the core state them *)
Definition add_cout (a b r : Z) : Z := (a .& b) .| ((a .| b) .& Z.lnot r).
Definition sub_cout (a b r : Z) : Z :=
  (Z.lnot a .& b) .| ((Z.lnot a .| b) .& r).

(* a single flag of a flag byte *)
Definition flag (mask f : Z) : bool := negb (f .& mask =? 0).

(* number of one bits of a byte *)
Definition popcount (v : Z) : Z :=
  fold_right (fun i n => Z.b2z (Z.testbit v i) + n) 0 [0; 1; 2; 3; 4; 5; 6; 7].

(* the adjustment DAA adds to the accumulator *)
Definition daa_adjust (a : Z) (c h : bool) : Z :=
  (if (9 <? a mod 16) || h then 0x06 else 0) .|
  (if (0x99 <? a) || c then 0x60 else 0).

(* registers within the range of their C type *)
Definition is_byte (x : Z) : Prop := 0 <= x < 256.
Definition is_word (x : Z) : Prop := 0 <= x < 65536.

Record wf (s : machine) : Prop := mkwf {
  wf_A : is_byte (A s); wf_B : is_byte (B s); wf_C : is_byte (C s);
  wf_D : is_byte (D s); wf_E : is_byte (E s); wf_H : is_byte (H s);
  wf_L : is_byte (L s); wf_F : is_byte (F s);
  wf_PC8 : is_word (PC8 s); wf_SP8 : is_word (SP8 s)
}.

(* the bytes [l] stand in memory from address [base] on *)
Fixpoint loaded (s : machine) (base : Z) (l : list Z) : Prop :=
  match l with
  | [] => True
  | x :: l' => memrdr s base = x /\ loaded s (base + 1) l'
  end.

(* a bounded universal quantifier that computes *)
Fixpoint all_below (n : nat) (p : Z -> bool) : bool :=
  match n with
  | O => true
  | S k => p (Z.of_nat k) && all_below k p
  end.

(* the check of one entry of the flag table *)
Definition szp_entry_ok (v : Z) : bool :=
  Bool.eqb (flag S_FLAG (szp_flags v)) (0x80 <=? v) &&
  Bool.eqb (flag Z_FLAG (szp_flags v)) (v =? 0) &&
  Bool.eqb (flag P_FLAG (szp_flags v)) (Z.even (popcount v)) &&
  (szp_flags v .& Z.lnot SZP_FLAGS =? 0).

(* the check that bit 7 of the carry-outs of [a + b] is the carry *)
Definition add_carry_ok (a : Z) : bool :=
  all_below 256 (fun b =>
    Bool.eqb (Z.testbit (add_cout a b (byte (a + b))) 7) (256 <=? a + b)).

(* the flag byte as PUSH PSW writes it: X and Y clear, N set *)
Definition psw_image (f : Z) : Z := (f .& Z.lnot (Y_FLAG .| X_FLAG)) .| N_FLAG.

Definition psw_image_ok (f : Z) : bool :=
  (0 <=? psw_image f) && (psw_image f <? 256).

(* PUSH and POP of the register pairs BC, DE and HL: the two opcodes and the
   registers that hold the high and the low byte *)
Definition pairs : list (Z * Z * (machine -> Z) * (machine -> Z)) :=
  [(0xc5, 0xc1, B, C); (0xd5, 0xd1, D, E); (0xe5, 0xe1, H, L)].

(* the turn of the loop in which the case of [op] runs: the fetch before
   the switch and the accounting after it, with [op] in place of the byte
   read at PC *)
Definition turn_with (op : Z) (s : machine) : machine :=
  let s := set_t 4 s in
  let s := set_PC8 (PC8 s + 1) s in
  let s := dispatch op s in
  set_tstates (tstates s + t s) s.

(* the undocumented opcodes, each with its documented counterpart *)
Definition aliases : list (Z * Z) :=
  [(0x08, 0x00); (0x10, 0x00); (0x18, 0x00); (0x20, 0x00); (0x28, 0x00);
   (0x30, 0x00); (0x38, 0x00);
   (0xcb, 0xc3); (0xd9, 0xc9);
   (0xdd, 0xcd); (0xed, 0xcd); (0xfd, 0xcd)].

(* the values that occur in the flag table *)
Definition szp_values : list Z :=
  [0; P_FLAG; Z_FLAG .| P_FLAG; S_FLAG; S_FLAG .| P_FLAG].

(* the reserved flag bits X and Y are clear *)
Definition xy_clear (f : Z) : Prop := f .& (X_FLAG .| Y_FLAG) = 0.

(** ** Test fixtures *)

(* a random source that replays a list of draws *)
Definition replay (max : Z) (g : list Z) : Z * list Z :=
  match g with
  | [] => (0, [])
  | x :: g' => (x mod max, g')
  end.

(* a memory image: the listed bytes from address 0 on, zero elsewhere *)
Definition image (l : list Z) : Z -> Z := fun a => nth (Z.to_nat a) l 0.

Definition no_input : Z -> Z -> Z := fun _ _ => 0.

(* the machine after [init_cpu] with the given draws and memory image *)
Definition boot (g : list Z) (l : list Z) : machine :=
  fst (init_cpu (list Z) replay g (power_on (image l) no_input)).

Definition some_draws : list Z :=
  [0x1234; 0x11; 0x22; 0x33; 0x44; 0x55; 0x66; 0x77; 0x28].

(* draws that leave F zero and SP at address 1 *)
Definition clean_draws : list Z := [0x0001; 0x11; 0; 0; 0; 0; 0; 0; 0].

(* the maxima of the nine draws of [init_cpu] *)
Definition init_maxima : list Z :=
  [65535; 255; 255; 255; 255; 255; 255; 255; 255].

(** ** The break key *)

(** The interrupt handler of the break switch, [user_int]: it stores into
    the global [State] and touches nothing else. *)
Definition user_int (s : machine) : machine := set_State Interrupted s.

(** ** Vocabulary of the further properties *)

(* opcodes whose case calls [memwrt] *)
Definition stores : list Z :=
  [0x02; 0x12; 0x22; 0x32; 0x34; 0x35; 0x36;
   0x70; 0x71; 0x72; 0x73; 0x74; 0x75; 0x77;
   0xc4; 0xc5; 0xc7; 0xcc; 0xcd; 0xcf;
   0xd4; 0xd5; 0xd7; 0xdc; 0xdd; 0xdf;
   0xe3; 0xe4; 0xe5; 0xe7; 0xec; 0xed; 0xef;
   0xf4; 0xf5; 0xf7; 0xfc; 0xfd; 0xff].

(* opcodes whose case assigns to [F] *)
Definition flag_writers : list Z :=
  [0x04; 0x05; 0x0c; 0x0d; 0x14; 0x15; 0x1c; 0x1d;
   0x24; 0x25; 0x2c; 0x2d; 0x34; 0x35; 0x3c; 0x3d;
   0x07; 0x0f; 0x17; 0x1f; 0x09; 0x19; 0x29; 0x39;
   0x27; 0x37; 0x3f;
   0xc6; 0xce; 0xd6; 0xde; 0xe6; 0xee; 0xf6; 0xfe; 0xf1].

Definition member (op : Z) (l : list Z) : bool := existsb (Z.eqb op) l.

(* the arithmetic and logic group 0x80..0xbf assigns to [F] as well *)
Definition writes_flags (op : Z) : bool :=
  member op flag_writers || between 0x80 op 0xbf.

(* the condition that bits 3 to 5 of a conditional opcode select:
   NZ, Z, NC, C, PO, PE, P, M *)
Definition condition (k : Z) (f : Z) : bool :=
  match k with
  | 0 => negb (flag Z_FLAG f) | 1 => flag Z_FLAG f
  | 2 => negb (flag C_FLAG f) | 3 => flag C_FLAG f
  | 4 => negb (flag P_FLAG f) | 5 => flag P_FLAG f
  | 6 => negb (flag S_FLAG f) | _ => flag S_FLAG f
  end.

(* a 16-bit value from its high and its low byte *)
Definition pair (hi lo : Z) : Z := 256 * hi + lo.

(* the two bytes that follow the opcode, low byte first *)
Definition immediate16 (s : machine) : Z :=
  pair (memrdr s (PC8 s + 2)) (memrdr s (PC8 s + 1)).

(* ADD, ADC, ADI and ACI: whether the carry is added, and the operand *)
Definition adc_form (op : Z) (s : machine) : option (bool * Z) :=
  if between 0x80 op 0x87 then Some (false, operand (op - 0x80) s)
  else if between 0x88 op 0x8f then Some (true, operand (op - 0x88) s)
  else if op =? 0xc6 then Some (false, immediate s)
  else if op =? 0xce then Some (true, immediate s)
  else None.

Inductive logic_kind : Set := ANA | XRA | ORA.

(* ANA/ANI, XRA/XRI and ORA/ORI with their operand *)
Definition logic_form (op : Z) (s : machine) : option (logic_kind * Z) :=
  if between 0xa0 op 0xa7 then Some (ANA, operand (op - 0xa0) s)
  else if between 0xa8 op 0xaf then Some (XRA, operand (op - 0xa8) s)
  else if between 0xb0 op 0xb7 then Some (ORA, operand (op - 0xb0) s)
  else if op =? 0xe6 then Some (ANA, immediate s)
  else if op =? 0xee then Some (XRA, immediate s)
  else if op =? 0xf6 then Some (ORA, immediate s)
  else None.

(* the five flags of a flag byte, the reserved bits being N = X = Y = 0 *)
Record flags_are (f : Z) (fs fz fh fp fc : bool) : Prop := mkflags {
  is_S : flag S_FLAG f = fs;
  is_Z : flag Z_FLAG f = fz;
  is_H : flag H_FLAG f = fh;
  is_P : flag P_FLAG f = fp;
  is_C : flag C_FLAG f = fc;
  no_NXY : f .& (N_FLAG .| X_FLAG .| Y_FLAG) = 0
}.

(* sign, zero and parity of a result byte *)
Definition sign (r : Z) : bool := 128 <=? r.
Definition zero (r : Z) : bool := r =? 0.
Definition parity (r : Z) : bool := Z.even (popcount r).

(* INR and DCR: whether it decrements, and the index of the register *)
Definition incdec_form (op : Z) : option (bool * Z) :=
  if between 0x00 op 0x3f && (op mod 8 =? 4) then Some (false, op / 8)
  else if between 0x00 op 0x3f && (op mod 8 =? 5) then Some (true, op / 8)
  else None.

(* the checks of the half carry of INR and DCR and of the flag byte they
   assemble around the carry they keep *)
Definition incdec_bits_ok (v : Z) : bool :=
  Bool.eqb (Z.testbit ((v .& 1) .| ((v .| 1) .& Z.lnot (byte (v + 1)))) 3)
           (v mod 16 =? 15) &&
  Bool.eqb (Z.testbit ((Z.lnot v .& 1) .| ((Z.lnot v .| 1) .& byte (v - 1)))
                      3)
           (v mod 16 =? 0).

(* edits of the carry flag leave the other bits of a flag byte alone *)
Definition carry_edits_ok (f : Z) : bool :=
  (byte (f .| C_FLAG) .| C_FLAG =? f .| C_FLAG) &&
  (byte (f .^ C_FLAG) .| C_FLAG =? f .| C_FLAG) &&
  Bool.eqb (flag C_FLAG (byte (f .| C_FLAG))) true &&
  Bool.eqb (flag C_FLAG (byte (f .^ C_FLAG))) (negb (flag C_FLAG f)) &&
  all_below 2 (fun c =>
    (byte ((f .& Z.lnot C_FLAG) .| (c << C_SHIFT)) .| C_FLAG =? f .| C_FLAG) &&
    Bool.eqb (flag C_FLAG (byte ((f .& Z.lnot C_FLAG) .| (c << C_SHIFT))))
             (negb (c =? 0))).

(* DAD: the opcode and the 16-bit value it adds to HL *)
Definition dads : list (Z * (machine -> Z)) :=
  [(0x09, fun s => pair (B s) (C s)); (0x19, fun s => pair (D s) (E s));
   (0x29, fun s => pair (H s) (L s)); (0x39, SP8)].

(* INX and DCX: the two opcodes, and how the 16-bit value is read *)
Definition inxs : list (Z * Z * (machine -> Z)) :=
  [(0x03, 0x0b, fun s => pair (B s) (C s));
   (0x13, 0x1b, fun s => pair (D s) (E s));
   (0x23, 0x2b, fun s => pair (H s) (L s));
   (0x33, 0x3b, SP8)].

(* a machine of which only the accumulator and the flag byte matter *)
Definition probe (a f : Z) : machine :=
  mkmachine a 0 0 0 0 0 0 f 0 0 0 4 (fun _ => 0) no_input [] Running 0.

(* the rotations: the opcode, the new accumulator from the old one and the
   old carry, and the new carry from the old accumulator *)
Definition rotations : list (Z * (Z -> Z -> Z) * (Z -> bool)) :=
  [(0x07, fun a c => (2 * a) mod 256 + a / 128, fun a => 128 <=? a);
   (0x0f, fun a c => a / 2 + 128 * (a mod 2), Z.odd);
   (0x17, fun a c => (2 * a) mod 256 + c, fun a => 128 <=? a);
   (0x1f, fun a c => a / 2 + 128 * c, Z.odd)].

(* the checks of the bits the rotations move and of the accumulator they
   assemble, [c] being the bit that comes in *)
Definition rotation_values_ok (a : Z) : bool :=
  (((a .& 128) >> 7) .& 1 =? a / 128) &&
  (a .& 1 =? a mod 2) &&
  Bool.eqb (128 <=? a) (a / 128 =? 1) &&
  Bool.eqb (Z.odd a) (a mod 2 =? 1) &&
  all_below 2 (fun c =>
    (byte ((a << 1) .| c) =? (2 * a) mod 256 + c) &&
    (byte ((a >> 1) .| (c << 7)) =? a / 2 + 128 * c)).

(* a rotation and the rotation that undoes it; through the carry or not *)
Definition rotation_pairs : list (Z * Z * bool) :=
  [(0x07, 0x0f, false); (0x0f, 0x07, false);
   (0x17, 0x1f, true); (0x1f, 0x17, true)].

(* packed decimal: two digits in a byte *)
Definition bcd (x : Z) : Z := 16 * (x / 10) + x mod 10.

(* the check that the decimal adjustment of a binary sum of two packed
   decimals, with the flags of that sum, is their packed decimal sum *)
Definition bcd_sum_ok (x : Z) : bool :=
  all_below 100 (fun y => all_below 2 (fun c =>
    let sum := bcd x + bcd y + c in
    let a := sum mod 256 in
    let cf := 256 <=? sum in
    let hf := 16 <=? bcd x mod 16 + bcd y mod 16 + c in
    ((a + daa_adjust a cf hf) mod 256 =? bcd ((x + y + c) mod 100)) &&
    Bool.eqb ((0x99 <? a) || cf) (100 <=? x + y + c))).


(* the eight registers of the programmer's model *)
Definition registers (s : machine) : Z * Z * Z * Z * Z * Z * Z * Z :=
  (A s, B s, C s, D s, E s, H s, L s, F s).

(* jumps, calls and returns: whether the opcode transfers control in the
   state [s]; bits 3 to 5 of a conditional opcode select the condition *)
Definition jump_form (op : Z) (s : machine) : option bool :=
  if (op =? 0xc3) || (op =? 0xcb) then Some true
  else if between 0xc0 op 0xff && (op mod 8 =? 2)
       then Some (condition ((op - 0xc0) / 8) (F s))
  else None.

Definition call_form (op : Z) (s : machine) : option bool :=
  if member op [0xcd; 0xdd; 0xed; 0xfd] then Some true
  else if between 0xc0 op 0xff && (op mod 8 =? 4)
       then Some (condition ((op - 0xc0) / 8) (F s))
  else None.

Definition ret_form (op : Z) (s : machine) : option bool :=
  if (op =? 0xc9) || (op =? 0xd9) then Some true
  else if between 0xc0 op 0xff && (op mod 8 =? 0)
       then Some (condition ((op - 0xc0) / 8) (F s))
  else None.

(* RST 0 to RST 7 *)
Definition is_rst (op : Z) : bool :=
  between 0xc0 op 0xff && (op mod 8 =? 7).

(* MOV and MVI: the index of the destination and the value moved *)
Definition move_form (op : Z) (s : machine) : option (Z * Z) :=
  if between 0x40 op 0x7f && negb (op =? 0x76)
  then Some ((op - 0x40) / 8, operand (op mod 8) s)
  else if between 0x00 op 0x3f && (op mod 8 =? 6)
       then Some (op / 8, immediate s)
  else None.

(* the number of bytes of an instruction *)
Definition length_of (op : Z) : Z :=
  if member op [0x01; 0x11; 0x21; 0x31; 0x22; 0x2a; 0x32; 0x3a;
                0xc3; 0xcb; 0xcd; 0xdd; 0xed; 0xfd]
  then 3
  else if between 0xc0 op 0xff && ((op mod 8 =? 2) || (op mod 8 =? 4))
       then 3
  else if between 0x00 op 0x3f && (op mod 8 =? 6) then 2
  else if between 0xc0 op 0xff && (op mod 8 =? 6) then 2
  else if member op [0xd3; 0xdb] then 2
  else 1.

(* opcodes that may load PC with something else than the next address *)
Definition transfers_control (op : Z) : bool :=
  between 0xc0 op 0xff &&
  ((op mod 8 =? 0) || (op mod 8 =? 2) || (op mod 8 =? 4) || (op mod 8 =? 7) ||
   member op [0xc3; 0xcb; 0xc9; 0xd9; 0xcd; 0xdd; 0xed; 0xfd; 0xe9]).

(* [n] turns of the loop *)
Fixpoint turns (n : nat) (s : machine) : machine :=
  match n with
  | O => s
  | S k => turns k (step s)
  end.

(* loads and stores of the accumulator: the opcode, whether it stores, and
   the address *)
Definition accumulator_moves : list (Z * bool * (machine -> Z)) :=
  [(0x02, true, fun s => pair (B s) (C s));
   (0x12, true, fun s => pair (D s) (E s));
   (0x32, true, immediate16);
   (0x0a, false, fun s => pair (B s) (C s));
   (0x1a, false, fun s => pair (D s) (E s));
   (0x3a, false, immediate16)].

(** ** The break key during a run *)

(** [setup] attaches [user_int] to the interrupt of the break pin, so that
    it may run at any point of a turn.  Its one effect is the store into
    [State], which a turn writes in the HLT case only and reads in the loop
    test only: it is enough to tell whether the handler runs before the
    switch of a turn, after it, or not at all. *)
Inductive break : Set := Quiet | Early | Late.

Definition turn_under (b : break) (s : machine) : machine :=
  match b with
  | Quiet => step s
  | Early => step (user_int s)
  | Late => user_int (step s)
  end.

(** The loop of [cpu_8080] under a schedule of breaks, one entry for each
    turn; the result is [None] when the CPU is still running at the end of
    the schedule. *)
Fixpoint cpu_8080_under (bs : list break) (s : machine) : option machine :=
  match bs with
  | [] => None
  | b :: bs' =>
      let s := turn_under b s in
      match State s with
      | Running => cpu_8080_under bs' s
      | _ => Some s
      end
  end.
(** * Properties *)

(** ** Conversions and bits *)

Lemma byte_range (x : Z) : is_byte (byte x).
Proof. unfold is_byte, byte. apply Z.mod_pos_bound. reflexivity. Qed.

Lemma word_range (x : Z) : is_word (word x).
Proof. unfold is_word, word. apply Z.mod_pos_bound. reflexivity. Qed.

Lemma byte_small (x : Z) : is_byte x -> byte x = x.
Proof. unfold is_byte, byte. intros Hx. apply Z.mod_small. exact Hx. Qed.

Lemma word_small (x : Z) : is_word x -> word x = x.
Proof. unfold is_word, word. intros Hx. apply Z.mod_small. exact Hx. Qed.

Lemma byte_idem (x : Z) : byte (byte x) = byte x.
Proof. apply byte_small, byte_range. Qed.

Lemma word_idem (x : Z) : word (word x) = word x.
Proof. apply word_small, word_range. Qed.

Lemma memrdr_byte (s : machine) (a : Z) : is_byte (memrdr s a).
Proof. apply byte_range. Qed.

Lemma byte_testbit (x i : Z) : 0 <= i < 8 -> Z.testbit (byte x) i = Z.testbit x i.
Proof. intros Hi. unfold byte. apply Z.mod_pow2_bits_low. lia. Qed.

(* the C idiom [(x >> n) & 1] extracts bit [n] *)
Lemma bit_extract (x n : Z) : 0 <= n -> (x >> n) .& 1 = Z.b2z (Z.testbit x n).
Proof.
  intros Hn. change 1 with (Z.ones 1). rewrite Z.land_ones by lia.
  rewrite Z.shiftr_div_pow2 by exact Hn.
  symmetry. apply Z.testbit_spec'. exact Hn.
Qed.

Lemma land_1 (x : Z) : x .& 1 = Z.b2z (Z.testbit x 0).
Proof. rewrite <- (bit_extract x 0) by lia. now rewrite Z.shiftr_0_r. Qed.

Lemma all_below_spec (n : nat) (p : Z -> bool) :
  all_below n p = true -> forall x, 0 <= x < Z.of_nat n -> p x = true.
Proof.
  induction n as [|k IH]; intros Hall x Hx.
  - simpl in Hx. lia.
  - simpl in Hall. apply andb_true_iff in Hall. destruct Hall as [Hk Hrest].
    destruct (Z.eq_dec x (Z.of_nat k)) as [->|Hne].
    + exact Hk.
    + apply IH; [exact Hrest | lia].
Qed.

Lemma all_bytes (p : Z -> bool) :
  all_below 256 p = true -> forall x, is_byte x -> p x = true.
Proof. intros Hall x Hx. apply (all_below_spec 256 p Hall). exact Hx. Qed.

(** ** The flag table *)

Lemma szp_table_checked : all_below 256 szp_entry_ok = true.
Proof. vm_compute. reflexivity. Qed.

(** C6. For every 8-bit [v] the entry [szp_flags v] has [S_FLAG] set iff
    [v >= 0x80], [Z_FLAG] set iff [v = 0], [P_FLAG] set iff the number of
    one bits of [v] is even, and no other bit set. *)
Theorem szp_flags_entries (v : Z) :
  is_byte v ->
  (flag S_FLAG (szp_flags v) = true <-> 0x80 <= v) /\
  (flag Z_FLAG (szp_flags v) = true <-> v = 0) /\
  (flag P_FLAG (szp_flags v) = true <-> Z.even (popcount v) = true) /\
  szp_flags v .& Z.lnot (S_FLAG .| Z_FLAG .| P_FLAG) = 0.
Proof.
  intros Hv. pose proof (all_bytes _ szp_table_checked v Hv) as Hok.
  unfold szp_entry_ok in Hok.
  repeat (apply andb_true_iff in Hok; destruct Hok as [Hok ?]).
  repeat match goal with
         | Hb : Bool.eqb _ _ = true |- _ => apply Bool.eqb_prop in Hb
         end.
  repeat split;
    try (match goal with Hb : flag _ _ = _ |- _ => rewrite Hb end);
    rewrite ?Z.leb_le, ?Z.eqb_eq in *; auto.
Qed.

Lemma szp_flags_entries_witness :
  is_byte 0x42 /\
  ((flag S_FLAG (szp_flags 0x42) = true <-> 0x80 <= 0x42) /\
   (flag Z_FLAG (szp_flags 0x42) = true <-> 0x42 = 0) /\
   (flag P_FLAG (szp_flags 0x42) = true <-> Z.even (popcount 0x42) = true) /\
   szp_flags 0x42 .& Z.lnot (S_FLAG .| Z_FLAG .| P_FLAG) = 0).
Proof.
  split; [unfold is_byte; lia | apply (szp_flags_entries 0x42); unfold is_byte; lia].
Defined.

(** ** Flags *)

Lemma szp_cases (r : Z) : In (szp_flags r) szp_values.
Proof.
  assert (Hall : forallb (fun x => existsb (Z.eqb x) szp_values)
                         (0 :: szp_flags_tab) = true)
    by (vm_compute; reflexivity).
  rewrite forallb_forall in Hall.
  assert (Hin : In (szp_flags r) (0 :: szp_flags_tab)).
  { unfold szp_flags.
    destruct (nth_in_or_default (Z.to_nat r) szp_flags_tab 0) as [Hin | ->].
    - right. exact Hin.
    - left. reflexivity. }
  apply Hall in Hin. apply existsb_exists in Hin.
  destruct Hin as [y [Hy Heq]]. apply Z.eqb_eq in Heq. subst y. exact Hy.
Qed.

Lemma flag_testbit (n f : Z) : 0 <= n -> flag (2 ^ n) f = Z.testbit f n.
Proof.
  intros Hn. unfold flag.
  destruct (Z.testbit f n) eqn:Hb.
  - apply negb_true_iff, Z.eqb_neq. intros Hz.
    assert (Hc : Z.testbit (f .& 2 ^ n) n = true).
    { rewrite Z.land_spec, Hb, Z.pow2_bits_true by exact Hn. reflexivity. }
    rewrite Hz, Z.bits_0 in Hc. discriminate.
  - apply negb_false_iff, Z.eqb_eq. apply Z.bits_inj'. intros m Hm.
    rewrite Z.land_spec, Z.bits_0, Z.pow2_bits_eqb by exact Hn.
    destruct (Z.eqb_spec n m) as [<-|_].
    + rewrite Hb. reflexivity.
    + apply andb_false_r.
Qed.

Lemma flag_C (f : Z) : flag C_FLAG f = Z.testbit f 0.
Proof. apply (flag_testbit 0). lia. Qed.

Lemma flag_H (f : Z) : flag H_FLAG f = Z.testbit f 4.
Proof. apply (flag_testbit 4). lia. Qed.

(* [F & C_FLAG] and [(F >> C_SHIFT) & 1] as the carry flag *)
Lemma carry_in (f : Z) : (f >> C_SHIFT) .& 1 = Z.b2z (flag C_FLAG f).
Proof. rewrite flag_C. apply bit_extract. unfold C_SHIFT. lia. Qed.

Lemma carry_mask (f : Z) : f .& C_FLAG = Z.b2z (flag C_FLAG f).
Proof. rewrite flag_C. apply land_1. Qed.

Lemma c_true_flag (mask f : Z) : c_true (f .& mask) = flag mask f.
Proof. reflexivity. Qed.

Ltac szp_enum Hin :=
  cbv [szp_values In] in Hin;
  repeat (destruct Hin as [Hin | Hin]; [rewrite <- Hin | ]);
  try contradiction.

(* the flag byte the additions assemble *)
Lemma pack_add (c h : bool) (z : Z) :
  In z szp_values ->
  let f := byte (((Z.b2z c << C_SHIFT) .| (Z.b2z h << H_SHIFT)) .| z) in
  flag C_FLAG f = c /\ flag H_FLAG f = h /\ f .& SZP_FLAGS = z /\ xy_clear f.
Proof.
  intros Hin. destruct c, h; szp_enum Hin; vm_compute; auto.
Qed.

(* the flag byte the subtractions assemble, half carry inverted *)
Lemma pack_sub (c h : bool) (z : Z) :
  In z szp_values ->
  let f := byte (byte (((Z.b2z c << C_SHIFT) .| (Z.b2z h << H_SHIFT)) .| z)
                 .^ H_FLAG) in
  flag C_FLAG f = c /\ flag H_FLAG f = negb h /\ f .& SZP_FLAGS = z /\
  xy_clear f.
Proof.
  intros Hin. destruct c, h; szp_enum Hin; vm_compute; auto.
Qed.

Ltac split_machine s :=
  destruct s as [ra rb rc rd re rh rl rf riff rpc rsp rt rmem rinp routp
                 rst rts].

Lemma finish_add_flags (P : Z) (s : machine) :
  let r := byte (A s + P) in
  let co := add_cout (A s) P r in
  let s' := finish_add P s in
  A s' = r /\
  flag C_FLAG (F s') = Z.testbit co 7 /\
  flag H_FLAG (F s') = Z.testbit co 3 /\
  F s' .& SZP_FLAGS = szp_flags r /\
  xy_clear (F s').
Proof.
  split_machine s. cbv [finish_add set_F set_A F A]. cbv zeta.
  rewrite !bit_extract, !byte_testbit by lia.
  split; [apply byte_idem | ].
  apply pack_add, szp_cases.
Qed.

Lemma finish_sub_flags (P : Z) (s : machine) :
  let r := byte (A s - P) in
  let co := sub_cout (A s) P r in
  let s' := finish_sub P s in
  A s' = r /\
  flag C_FLAG (F s') = Z.testbit co 7 /\
  flag H_FLAG (F s') = negb (Z.testbit co 3) /\
  F s' .& SZP_FLAGS = szp_flags r /\
  xy_clear (F s').
Proof.
  split_machine s. cbv [finish_sub set_F set_A F A]. cbv zeta.
  rewrite !bit_extract, !byte_testbit by lia.
  split; [apply byte_idem | ].
  apply pack_sub, szp_cases.
Qed.

Lemma finish_sbb_flags (P : Z) (s : machine) :
  let r := byte (A s - P - Z.b2z (flag C_FLAG (F s))) in
  let co := sub_cout (A s) P r in
  let s' := finish_sbb P s in
  A s' = r /\
  flag C_FLAG (F s') = Z.testbit co 7 /\
  flag H_FLAG (F s') = negb (Z.testbit co 3) /\
  F s' .& SZP_FLAGS = szp_flags r /\
  xy_clear (F s').
Proof.
  split_machine s. cbv [finish_sbb set_F set_A F A]. cbv zeta.
  rewrite carry_in.
  rewrite !bit_extract, !byte_testbit by lia.
  split; [apply byte_idem | ].
  apply pack_sub, szp_cases.
Qed.

Lemma finish_cmp_flags (P : Z) (s : machine) :
  let r := byte (A s - P) in
  let co := sub_cout (A s) P r in
  let s' := finish_cmp P s in
  A s' = A s /\
  flag C_FLAG (F s') = Z.testbit co 7 /\
  flag H_FLAG (F s') = negb (Z.testbit co 3) /\
  F s' .& SZP_FLAGS = szp_flags r /\
  xy_clear (F s').
Proof.
  split_machine s. cbv [finish_cmp set_F set_A F A]. cbv zeta.
  rewrite !bit_extract, !byte_testbit by lia.
  split; [reflexivity | ].
  apply pack_sub, szp_cases.
Qed.

(** ** One turn with a known opcode *)

Lemma step_op (s : machine) (op : Z) :
  memrdr s (PC8 s) = op ->
  step s =
  (let s1 := dispatch op (set_PC8 (PC8 s + 1) (set_t 4 s)) in
   set_tstates (tstates s1 + t s1) s1).
Proof. intros <-. reflexivity. Qed.

Lemma run_turn (k : nat) (s : machine) :
  cpu_8080 (S k) s =
  match State (step s) with
  | Running => cpu_8080 k (step s)
  | _ => Some (step s)
  end.
Proof. reflexivity. Qed.

Lemma word_add_l (x y : Z) : word (word x + y) = word (x + y).
Proof. unfold word. apply Zplus_mod_idemp_l. Qed.

Lemma word_sub_l (x y : Z) : word (word x - y) = word (x - y).
Proof. unfold word. apply Zminus_mod_idemp_l. Qed.

(* unfold the machine-level definitions down to integer expressions *)
Ltac expose :=
  cbv beta iota zeta delta
    [dispatch finish_inr finish_dcr finish_dad finish_add finish_adc
     finish_sub finish_sbb finish_ana finish_cmp finish_ret finish_retc
     finish_jmpc finish_call finish_callc
     set_A set_B set_C set_D set_E set_H set_L set_F set_IFF set_PC8 set_SP8
     set_t set_mem set_inp set_outp set_State set_tstates
     A B C D E H L F IFF PC8 SP8 t mem inp outp State tstates
     memrdr memwrt io_in io_out operand immediate loaded].

Ltac expose_in Hx :=
  cbv beta iota zeta delta
    [dispatch finish_inr finish_dcr finish_dad finish_add finish_adc
     finish_sub finish_sbb finish_ana finish_cmp finish_ret finish_retc
     finish_jmpc finish_call finish_callc
     set_A set_B set_C set_D set_E set_H set_L set_F set_IFF set_PC8 set_SP8
     set_t set_mem set_inp set_outp set_State set_tstates
     A B C D E H L F IFF PC8 SP8 t mem inp outp State tstates
     memrdr memwrt io_in io_out operand immediate loaded] in Hx.

Ltac fetch_norm := rewrite ?word_idem, ?word_add_l, ?byte_idem.
Ltac fetch_norm_in Hx := rewrite ?word_idem, ?word_add_l, ?byte_idem in Hx.

(* replace the innermost [step] by the case of the opcode [op], which the
   hypotheses show to be the next one *)
Ltac known_step op :=
  match goal with
  | |- context [step ?X] =>
      lazymatch X with context [step _] => fail | _ => idtac end;
      let Hop := fresh "Hop" in
      assert (Hop : memrdr X (PC8 X) = op)
        by (expose; fetch_norm; assumption);
      rewrite (step_op X op Hop); clear Hop; expose
  end.

Ltac operand_index :=
  repeat match goal with
         | Hx : context [operand (?x - ?y) _] |- _ =>
             let v := eval vm_compute in (x - y) in
             replace (x - y) with v in Hx by reflexivity
         end.

Ltac decide_form Hx :=
  cbv [add_form sub_form between Z.leb Z.eqb Z.compare Pos.compare
       Pos.compare_cont andb Pos.eqb] in Hx;
  operand_index.

Ltac form_cases Hx :=
  repeat match type of Hx with
         | (if ?c then _ else _) = _ => destruct c eqn:?
         end; try discriminate;
  repeat match goal with
         | Hc : _ && _ = true |- _ => apply andb_true_iff in Hc; destruct Hc
         | Hc : (_ <=? _) = true |- _ => apply Z.leb_le in Hc
         | Hc : (_ =? _) = true |- _ => apply Z.eqb_eq in Hc
         end;
  cbn [In]; lia.

(** ** Subtraction and comparison *)

Lemma sub_cout_diag (a : Z) : sub_cout a a 0 = 0.
Proof.
  unfold sub_cout. rewrite Z.land_0_r, Z.lor_0_r, Z.land_comm.
  apply Z.land_lnot_diag.
Qed.

Lemma sub_form_cases (op : Z) (s : machine) (k : sub_kind) (b : Z) :
  sub_form op s = Some (k, b) ->
  In op [0x90; 0x91; 0x92; 0x93; 0x94; 0x95; 0x96; 0x97;
         0x98; 0x99; 0x9a; 0x9b; 0x9c; 0x9d; 0x9e; 0x9f;
         0xb8; 0xb9; 0xba; 0xbb; 0xbc; 0xbd; 0xbe; 0xbf;
         0xd6; 0xde; 0xfe].
Proof. unfold sub_form, between. intros Hform. form_cases Hform. Qed.

(** C1. In a state whose next opcode [op] is one of SUB/SUI, SBB/SBI, CMP/CPI
    with selected 8-bit operand [b], one turn computes
    [r = a - b (- carry-in for SBB/SBI) mod 256], sets C to bit 7 and H to
    the inverse of bit 3 of [cout = (~a & b) | ((~a | b) & r)], takes S, Z
    and P from [szp_flags r], and stores [r] into A for SUB and SBB while CMP
    leaves A as it was. *)
Theorem sub_family_flags (s : machine) (op : Z) (k : sub_kind) (b : Z) :
  memrdr s (PC8 s) = op ->
  sub_form op s = Some (k, b) ->
  is_byte b ->
  let a := A s in
  let cin := match k with SBB => Z.b2z (flag C_FLAG (F s)) | _ => 0 end in
  let r := (a - b - cin) mod 256 in
  let cout := sub_cout a b r in
  let s' := step s in
  flag C_FLAG (F s') = Z.testbit cout 7 /\
  flag H_FLAG (F s') = negb (Z.testbit cout 3) /\
  F s' .& (S_FLAG .| Z_FLAG .| P_FLAG) = szp_flags r /\
  A s' = match k with CMP => a | _ => r end.
Proof.
  intros Hop Hform Hb. cbv zeta. rewrite (step_op s op Hop). clear Hop.
  pose proof (sub_form_cases op s k b Hform) as Hin.
  split_machine s. cbn [In] in Hin.
  repeat (destruct Hin as [<- | Hin]); try contradiction.
  all: decide_form Hform; injection Hform as <- <-.
  all: expose_in Hb; expose.
  all: rewrite ?byte_idem, ?word_idem, ?(byte_small _ Hb).
  all: try rewrite Z.sub_0_r.
  all: change (?x mod 256) with (byte x).
  all: rewrite ?carry_in, ?bit_extract, ?byte_testbit by lia.
  all: unfold sub_cout.
  all: try (match goal with
            | |- flag _ (byte (byte (((Z.b2z ?c << _) .| (Z.b2z ?h << _)) .| ?z)
                               .^ _)) = _ /\ _ =>
                destruct (pack_sub c h z (szp_cases _)) as (H1 & H2 & H3 & _)
            end;
            repeat split;
            first [exact H1 | exact H2 | exact H3
                  | rewrite ?byte_idem; reflexivity]).
  (* SUB A and CMP A, which do not compute *)
  all: rewrite Z.sub_diag; change (byte 0) with 0.
  all: fold (sub_cout ra ra 0); rewrite sub_cout_diag.
  all: repeat split; reflexivity.
Qed.

Lemma sub_family_flags_witness :
  let s := boot some_draws [0x98] in
  memrdr s (PC8 s) = 0x98 /\
  sub_form 0x98 s = Some (SBB, 0x22) /\
  is_byte 0x22 /\
  (let a := A s in
   let cin := Z.b2z (flag C_FLAG (F s)) in
   let r := (a - 0x22 - cin) mod 256 in
   let cout := sub_cout a 0x22 r in
   let s' := step s in
   flag C_FLAG (F s') = Z.testbit cout 7 /\
   flag H_FLAG (F s') = negb (Z.testbit cout 3) /\
   F s' .& (S_FLAG .| Z_FLAG .| P_FLAG) = szp_flags r /\
   A s' = r).
Proof.
  intros s.
  assert (Hop : memrdr s (PC8 s) = 0x98) by reflexivity.
  assert (Hform : sub_form 0x98 s = Some (SBB, 0x22)) by reflexivity.
  assert (Hb : is_byte 0x22) by (unfold is_byte; lia).
  split; [exact Hop | split; [exact Hform | split; [exact Hb | ]]].
  exact (sub_family_flags s 0x98 SBB 0x22 Hop Hform Hb).
Defined.

(** ** Addition *)

Lemma add_carry_checked : all_below 256 add_carry_ok = true.
Proof. vm_compute. reflexivity. Qed.

Lemma add_carry (a b : Z) :
  is_byte a -> is_byte b ->
  Z.testbit ((a .& b) .| ((a .| b) .& Z.lnot (byte (a + b)))) 7 =
  (256 <=? a + b).
Proof.
  intros Ha Hb. change (Z.testbit (add_cout a b (byte (a + b))) 7 = (256 <=? a + b)).
  pose proof (all_bytes _ add_carry_checked a Ha) as Hrow.
  apply (all_bytes _ Hrow b) in Hb. apply Bool.eqb_prop in Hb. exact Hb.
Qed.

Lemma add_form_cases (op : Z) (s : machine) (b : Z) :
  add_form op s = Some b ->
  In op [0x80; 0x81; 0x82; 0x83; 0x84; 0x85; 0x86; 0x87; 0xc6].
Proof. unfold add_form, between. intros Hform. form_cases Hform. Qed.

(** C5. For 8-bit [a] and [b], running MVI A,a and then an ADD whose
    operand (register, memory or immediate) is [b] leaves
    [A = (a + b) mod 256], sets C iff [a + b >= 256], which is bit 7 of
    [cout = (a & b) | ((a | b) & ~r)], sets H to bit 3 of [cout], and takes
    S, Z and P from [szp_flags] of the result. *)
Theorem mvi_add_flags (s : machine) (a b op : Z) :
  loaded s (PC8 s) [0x3e; a; op] ->
  add_form op (step s) = Some b ->
  is_byte b ->
  let r := (a + b) mod 256 in
  let cout := add_cout a b r in
  let s' := step (step s) in
  A s' = r /\
  (flag C_FLAG (F s') = true <-> 256 <= a + b) /\
  flag C_FLAG (F s') = Z.testbit cout 7 /\
  flag H_FLAG (F s') = Z.testbit cout 3 /\
  F s' .& (S_FLAG .| Z_FLAG .| P_FLAG) = szp_flags r.
Proof.
  intros Hl Hform Hb. cbv zeta.
  pose proof (add_form_cases op (step s) b Hform) as Hin.
  split_machine s. expose_in Hl. destruct Hl as (Hm0 & Hm1 & Hm2 & _).
  assert (Ha : is_byte a) by (rewrite <- Hm1; apply byte_range).
  match type of Hform with
  | context [step ?X] => rewrite (step_op X 0x3e Hm0) in Hform
  end.
  cbn [In] in Hin.
  repeat (destruct Hin as [<- | Hin]); try contradiction.
  all: decide_form Hform; expose_in Hform; fetch_norm_in Hform.
  all: rewrite ?Hm1 in Hform; injection Hform as <-.
  all: known_step 0x3e; known_step ltac:(match type of Hm2 with _ = ?o => o end).
  all: fetch_norm; rewrite ?Hm1.
  all: rewrite ?byte_idem, ?(byte_small _ Ha), ?(byte_small _ Hb).
  all: change (?x mod 256) with (byte x).
  all: rewrite ?bit_extract, ?byte_testbit by lia.
  all: unfold add_cout.
  all: match goal with
       | |- _ /\ _ /\ flag _ (byte (((Z.b2z ?c << _) .| (Z.b2z ?h << _)) .| ?z))
                     = _ /\ _ =>
           destruct (pack_add c h z (szp_cases _)) as (H1 & H2 & H3 & _)
       end.
  all: split; [reflexivity | ].
  all: split; [ | repeat split; assumption].
  all: rewrite H1, add_carry by assumption; apply Z.leb_le.
Qed.

Lemma mvi_add_flags_witness :
  let s := boot some_draws [0x3e; 0xff; 0xc6; 0x01] in
  loaded s (PC8 s) [0x3e; 0xff; 0xc6] /\
  add_form 0xc6 (step s) = Some 0x01 /\
  is_byte 0x01 /\
  (let r := (0xff + 0x01) mod 256 in
   let cout := add_cout 0xff 0x01 r in
   let s' := step (step s) in
   A s' = r /\
   (flag C_FLAG (F s') = true <-> 256 <= 0xff + 0x01) /\
   flag C_FLAG (F s') = Z.testbit cout 7 /\
   flag H_FLAG (F s') = Z.testbit cout 3 /\
   F s' .& (S_FLAG .| Z_FLAG .| P_FLAG) = szp_flags r).
Proof.
  intros s.
  assert (Hl : loaded s (PC8 s) [0x3e; 0xff; 0xc6])
    by (cbn [loaded]; repeat split; reflexivity).
  assert (Hform : add_form 0xc6 (step s) = Some 0x01) by reflexivity.
  assert (Hb : is_byte 0x01) by (unfold is_byte; lia).
  split; [exact Hl | split; [exact Hform | split; [exact Hb | ]]].
  exact (mvi_add_flags s 0xff 0x01 0xc6 Hl Hform Hb).
Defined.

(** ** Decimal adjust *)

Lemma c_true_or (x y : Z) : c_true (c_or x y) = c_true x || c_true y.
Proof. unfold c_or. destruct (c_true x || c_true y); reflexivity. Qed.

Lemma c_true_gt (x y : Z) : c_true (c_gt x y) = (y <? x).
Proof.
  unfold c_gt. rewrite Z.gtb_ltb. destruct (y <? x); reflexivity.
Qed.

Lemma c_gt_b2z (x y : Z) : c_gt x y = Z.b2z (y <? x).
Proof. unfold c_gt. rewrite Z.gtb_ltb. reflexivity. Qed.

Lemma low_nibble (a : Z) : a .& 0xf = a mod 16.
Proof. change 0xf with (Z.ones 4). apply Z.land_ones. lia. Qed.

(* the flag byte DAA assembles: the carry has two sources *)
Lemma pack_daa (c1 c2 h : bool) (z : Z) :
  In z szp_values ->
  let f := byte ((((Z.b2z c1 << C_SHIFT) .| Z.b2z c2) .|
                  (Z.b2z h << H_SHIFT)) .| z) in
  flag C_FLAG f = c1 || c2 /\ flag H_FLAG f = h /\ f .& SZP_FLAGS = z /\
  xy_clear f.
Proof.
  intros Hin. destruct c1, c2, h; szp_enum Hin; vm_compute; auto.
Qed.

Lemma daa_semantics (s : machine) :
  memrdr s (PC8 s) = 0x27 ->
  let a := A s in
  let c := flag C_FLAG (F s) in
  let h := flag H_FLAG (F s) in
  let p := daa_adjust a c h in
  let r := (a + p) mod 256 in
  let cout := add_cout a p r in
  let s' := step s in
  A s' = r /\
  flag H_FLAG (F s') = Z.testbit cout 3 /\
  F s' .& (S_FLAG .| Z_FLAG .| P_FLAG) = szp_flags r /\
  flag C_FLAG (F s') = (0x99 <? a) || c.
Proof.
  intros Hop. cbv zeta. rewrite (step_op s _ Hop). clear Hop.
  split_machine s. expose.
  rewrite !c_true_or, !c_true_gt, !c_true_flag, low_nibble, c_gt_b2z.
  rewrite carry_mask.
  unfold daa_adjust, add_cout.
  change (?x mod 256) with (byte x).
  set (c1 := (9 <? ra mod 16) || flag H_FLAG rf).
  set (c2 := (153 <? ra) || flag C_FLAG rf).
  assert (HP : (if c2
                then byte ((if c1 then byte (byte 0 .| 6) else byte 0) .| 96)
                else if c1 then byte (byte 0 .| 6) else byte 0) =
               (if c1 then 6 else 0) .| (if c2 then 96 else 0))
    by (destruct c1, c2; reflexivity).
  rewrite HP. clear HP. subst c2.
  rewrite !bit_extract, !byte_testbit by lia.
  match goal with
  | |- _ /\ flag _ (byte ((((Z.b2z ?x << _) .| Z.b2z ?y) .|
                            (Z.b2z ?h << _)) .| ?z)) = _ /\ _ =>
      destruct (pack_daa x y h z (szp_cases _)) as (H1 & H2 & H3 & _)
  end.
  repeat split; try assumption. apply byte_idem.
Qed.

(** ** Programs run from power-on *)

(* after the turns are replaced by their cases: read the program bytes *)
Ltac read_program :=
  fetch_norm;
  repeat match goal with
         | Hm : byte (?m (word _)) = _ |- _ => rewrite Hm
         end.

Ltac turn op := rewrite run_turn; known_step op; read_program.

Lemma daa_run (s : machine) (fuel : nat) :
  PC8 s = 0 -> State s = Running ->
  loaded s 0 [0x3e; 0x15; 0xc6; 0x27; 0x27; 0x76] ->
  (4 <= fuel)%nat ->
  exists s', cpu_8080 fuel s = Some s' /\
    A s' = 0x42 /\
    flag C_FLAG (F s') = false /\ flag H_FLAG (F s') = true /\
    flag S_FLAG (F s') = false /\ flag Z_FLAG (F s') = false /\
    flag P_FLAG (F s') = true.
Proof.
  intros Hpc Hst Hl Hfuel.
  destruct fuel as [|[|[|[|k]]]]; try lia. clear Hfuel.
  split_machine s. cbn [PC8 State] in Hpc, Hst. subst rpc rst.
  expose_in Hl. destruct Hl as (Hm0 & Hm1 & Hm2 & Hm3 & Hm4 & Hm5 & _).
  turn 0x3e. turn 0xc6. turn 0x27. turn 0x76.
  eexists. split; [reflexivity | ].
  expose. repeat split; vm_compute; reflexivity.
Qed.

(** C2. DAA adds to A the adjustment [p], which has 0x06 when the low
    nibble of A exceeds 9 or H is set and 0x60 when A exceeds 0x99 or C is
    set: A becomes [(A + p) mod 256], H is bit 3 of the carry-outs of that
    addition, S, Z and P come from [szp_flags] of the result, and C becomes
    [(A > 0x99) or C].  Run from power-on, the bytes 3E 15 C6 27 27 76 halt
    with A = 0x42, C = 0, H = 1, S = 0, Z = 0, P = 1. *)
Theorem daa_adjusts :
  (forall s,
      memrdr s (PC8 s) = 0x27 ->
      let a := A s in
      let c := flag C_FLAG (F s) in
      let h := flag H_FLAG (F s) in
      let p := daa_adjust a c h in
      let r := (a + p) mod 256 in
      let cout := add_cout a p r in
      let s' := step s in
      A s' = r /\
      flag H_FLAG (F s') = Z.testbit cout 3 /\
      F s' .& (S_FLAG .| Z_FLAG .| P_FLAG) = szp_flags r /\
      flag C_FLAG (F s') = (0x99 <? a) || c) /\
  (forall s fuel,
      PC8 s = 0 -> State s = Running ->
      loaded s 0 [0x3e; 0x15; 0xc6; 0x27; 0x27; 0x76] ->
      (4 <= fuel)%nat ->
      exists s', cpu_8080 fuel s = Some s' /\
        A s' = 0x42 /\
        flag C_FLAG (F s') = false /\ flag H_FLAG (F s') = true /\
        flag S_FLAG (F s') = false /\ flag Z_FLAG (F s') = false /\
        flag P_FLAG (F s') = true).
Proof. split; [exact daa_semantics | exact daa_run]. Qed.

Lemma daa_adjusts_witness :
  let s := boot some_draws [0x27] in
  let s0 := boot some_draws [0x3e; 0x15; 0xc6; 0x27; 0x27; 0x76] in
  (memrdr s (PC8 s) = 0x27 /\
   A (step s) = (A s + daa_adjust (A s) (flag C_FLAG (F s))
                                  (flag H_FLAG (F s))) mod 256) /\
  (PC8 s0 = 0 /\ State s0 = Running /\
   loaded s0 0 [0x3e; 0x15; 0xc6; 0x27; 0x27; 0x76] /\ (4 <= 4)%nat /\
   exists s', cpu_8080 4 s0 = Some s' /\
     A s' = 0x42 /\
     flag C_FLAG (F s') = false /\ flag H_FLAG (F s') = true /\
     flag S_FLAG (F s') = false /\ flag Z_FLAG (F s') = false /\
     flag P_FLAG (F s') = true).
Proof.
  intros s s0.
  assert (Hop : memrdr s (PC8 s) = 0x27) by reflexivity.
  assert (Hpc : PC8 s0 = 0) by reflexivity.
  assert (Hst : State s0 = Running) by reflexivity.
  assert (Hl : loaded s0 0 [0x3e; 0x15; 0xc6; 0x27; 0x27; 0x76])
    by (cbn [loaded]; repeat split; reflexivity).
  assert (Hfuel : (4 <= 4)%nat) by lia.
  split.
  - split; [exact Hop | ].
    exact (proj1 (proj1 daa_adjusts s Hop)).
  - repeat (split; [assumption | ]).
    exact (proj2 daa_adjusts s0 4%nat Hpc Hst Hl Hfuel).
Defined.

(** ** Stack *)

Lemma psw_image_checked : all_below 256 psw_image_ok = true.
Proof. vm_compute. reflexivity. Qed.

Lemma psw_image_byte (f : Z) : is_byte f -> is_byte (psw_image f).
Proof.
  intros Hf. pose proof (all_bytes _ psw_image_checked f Hf) as Hok.
  unfold psw_image_ok in Hok. apply andb_true_iff in Hok.
  destruct Hok as [Hlo Hhi]. apply Z.leb_le in Hlo. apply Z.ltb_lt in Hhi.
  split; assumption.
Qed.

(* arithmetic modulo 2^16 and 2^8, for linear arithmetic *)
Ltac wrap_lia :=
  unfold is_byte, is_word, byte, word in *;
  change (2 ^ 16) with 65536 in *; change (2 ^ 8) with 256 in *;
  Z.div_mod_to_equations; lia.

(* decide the address comparisons of a memory that was written to *)
Ltac addresses :=
  repeat match goal with
         | |- context [?x =? ?y] =>
             destruct (Z.eqb_spec x y);
             [ try (exfalso; wrap_lia) | try (exfalso; wrap_lia) ]
         end.

Lemma push_pop_pair (s : machine) (push pop : Z) (hi lo : machine -> Z) :
  wf s -> In (push, pop, hi, lo) pairs ->
  memrdr s (PC8 s) = push ->
  let s1 := step s in
  memrdr s1 (SP8 s - 1) = hi s /\ memrdr s1 (SP8 s - 2) = lo s /\
  (memrdr s1 (PC8 s1) = pop ->
   let s2 := step s1 in
   hi s2 = hi s /\ lo s2 = lo s /\ SP8 s2 = SP8 s).
Proof.
  intros Hwf Hin Hop. cbv zeta. destruct Hwf as [HA HB HC HD HE HH HL HF HPC HSP]. split_machine s.
  cbn [A B C D E H L F PC8 SP8] in *.
  cbv [pairs In] in Hin.
  repeat (destruct Hin as [Hin | Hin];
          [injection Hin as <- <- <- <- | ]); try contradiction.
  all: rewrite (step_op _ _ Hop); clear Hop; expose.
  all: split; [ | split ].
  all: try (intros Hop2;
            match goal with
            | |- context [step ?X] => rewrite (step_op X _ Hop2)
            end; clear Hop2; expose).
  all: addresses.
  all: try (repeat split; wrap_lia).
Qed.

Lemma push_pop_psw (s : machine) :
  wf s ->
  memrdr s (PC8 s) = 0xf5 ->
  let s1 := step s in
  memrdr s1 (SP8 s - 1) = A s /\
  memrdr s1 (SP8 s - 2) = psw_image (F s) /\
  (memrdr s1 (PC8 s1) = 0xf1 ->
   let s2 := step s1 in
   A s2 = A s /\ F s2 = psw_image (F s) /\ SP8 s2 = SP8 s).
Proof.
  intros Hwf Hop. cbv zeta. destruct Hwf as [HA HB HC HD HE HH HL HF HPC HSP]. split_machine s.
  cbn [A B C D E H L F PC8 SP8] in *.
  pose proof (psw_image_byte rf HF) as Himg.
  rewrite (step_op _ _ Hop); clear Hop; expose.
  fold (psw_image rf).
  split; [ | split ].
  all: try (intros Hop2;
            match goal with
            | |- context [step ?X] => rewrite (step_op X _ Hop2)
            end; clear Hop2; expose).
  all: addresses.
  all: rewrite ?byte_idem, ?(byte_small _ Himg).
  all: try (repeat split; wrap_lia).
Qed.

(** C7. In a well-formed state, PUSH rp for rp among BC, DE, HL writes the
    high byte at SP-1 and the low byte at SP-2, addresses modulo 2^16, and
    the POP rp that is executed next restores the pair and SP; PUSH PSW
    followed by POP PSW restores A and SP and leaves in F the pushed image
    of F, that is F with X and Y cleared and N set. *)
Theorem push_pop_restores (s : machine) :
  wf s ->
  (forall push pop hi lo, In (push, pop, hi, lo) pairs ->
     memrdr s (PC8 s) = push ->
     let s1 := step s in
     memrdr s1 (SP8 s - 1) = hi s /\ memrdr s1 (SP8 s - 2) = lo s /\
     (memrdr s1 (PC8 s1) = pop ->
      let s2 := step s1 in
      hi s2 = hi s /\ lo s2 = lo s /\ SP8 s2 = SP8 s)) /\
  (memrdr s (PC8 s) = 0xf5 ->
     let s1 := step s in
     memrdr s1 (SP8 s - 1) = A s /\
     memrdr s1 (SP8 s - 2) = psw_image (F s) /\
     (memrdr s1 (PC8 s1) = 0xf1 ->
      let s2 := step s1 in
      A s2 = A s /\ F s2 = psw_image (F s) /\ SP8 s2 = SP8 s)).
Proof.
  intros Hwf. split.
  - intros push pop hi lo Hin Hop.
    exact (push_pop_pair s push pop hi lo Hwf Hin Hop).
  - apply push_pop_psw. exact Hwf.
Qed.

Lemma push_pop_restores_witness :
  let s := boot some_draws [0xc5; 0xc1] in
  let s' := boot some_draws [0xf5; 0xf1] in
  (wf s /\ In (0xc5, 0xc1, B, C) pairs /\ memrdr s (PC8 s) = 0xc5 /\
   memrdr (step s) (PC8 (step s)) = 0xc1 /\
   B (step (step s)) = B s /\ C (step (step s)) = C s /\
   SP8 (step (step s)) = SP8 s) /\
  (wf s' /\ memrdr s' (PC8 s') = 0xf5 /\
   memrdr (step s') (PC8 (step s')) = 0xf1 /\
   A (step (step s')) = A s' /\ F (step (step s')) = psw_image (F s') /\
   SP8 (step (step s')) = SP8 s').
Proof.
  intros s s'.
  assert (Hwf : wf s)
    by (constructor; vm_compute; split; (discriminate || reflexivity)).
  assert (Hwf' : wf s')
    by (constructor; vm_compute; split; (discriminate || reflexivity)).
  assert (Hin : In (0xc5, 0xc1, B, C) pairs) by (left; reflexivity).
  assert (Hpush : memrdr s (PC8 s) = 0xc5) by reflexivity.
  assert (Hpop : memrdr (step s) (PC8 (step s)) = 0xc1) by reflexivity.
  assert (Hpush' : memrdr s' (PC8 s') = 0xf5) by reflexivity.
  assert (Hpop' : memrdr (step s') (PC8 (step s')) = 0xf1) by reflexivity.
  split.
  - repeat (split; [assumption | ]).
    exact (proj2 (proj2 (proj1 (push_pop_restores s Hwf) 0xc5 0xc1 B C
                                Hin Hpush)) Hpop).
  - repeat (split; [assumption | ]).
    exact (proj2 (proj2 (proj2 (push_pop_restores s' Hwf') Hpush')) Hpop').
Defined.

(** ** The reserved flag bits *)

Lemma xy_clear_bits (f : Z) :
  xy_clear f <-> Z.testbit f 3 = false /\ Z.testbit f 5 = false.
Proof.
  unfold xy_clear. change (X_FLAG .| Y_FLAG) with (2 ^ 3 .| 2 ^ 5). split.
  - intros Hz. split.
    + assert (Hb : Z.testbit (f .& (2 ^ 3 .| 2 ^ 5)) 3 = false)
        by (rewrite Hz; apply Z.bits_0).
      rewrite Z.land_spec, Z.lor_spec, Z.pow2_bits_true in Hb by lia.
      rewrite orb_true_l, andb_true_r in Hb. exact Hb.
    + assert (Hb : Z.testbit (f .& (2 ^ 3 .| 2 ^ 5)) 5 = false)
        by (rewrite Hz; apply Z.bits_0).
      rewrite Z.land_spec, Z.lor_spec, (Z.pow2_bits_true 5) in Hb by lia.
      rewrite orb_true_r, andb_true_r in Hb. exact Hb.
  - intros [H3 H5]. apply Z.bits_inj'. intros n Hn.
    rewrite Z.land_spec, Z.lor_spec, !Z.pow2_bits_eqb, Z.bits_0 by lia.
    destruct (Z.eqb_spec 3 n) as [<-|_]; [rewrite H3; reflexivity | ].
    destruct (Z.eqb_spec 5 n) as [<-|_]; [rewrite H5; reflexivity | ].
    apply andb_false_r.
Qed.

Lemma xy_byte (x : Z) : xy_clear x -> xy_clear (byte x).
Proof. rewrite !xy_clear_bits, !byte_testbit by lia. auto. Qed.

Lemma xy_lor (a b : Z) : xy_clear a -> xy_clear b -> xy_clear (a .| b).
Proof.
  rewrite !xy_clear_bits, !Z.lor_spec. intros [-> ->] [-> ->]. auto.
Qed.

Lemma xy_lxor (a b : Z) : xy_clear a -> xy_clear b -> xy_clear (a .^ b).
Proof.
  rewrite !xy_clear_bits, !Z.lxor_spec. intros [-> ->] [-> ->]. auto.
Qed.

Lemma xy_land_l (a b : Z) : xy_clear a -> xy_clear (a .& b).
Proof. rewrite !xy_clear_bits, !Z.land_spec. intros [-> ->]. auto. Qed.

Lemma xy_land_r (a b : Z) : xy_clear b -> xy_clear (a .& b).
Proof. rewrite Z.land_comm. apply xy_land_l. Qed.

Lemma xy_shift_C (x : Z) : xy_clear x -> xy_clear (x << C_SHIFT).
Proof. unfold C_SHIFT. rewrite Z.shiftl_0_r. auto. Qed.

Lemma xy_bit_H (x : Z) : xy_clear ((x .& 1) << H_SHIFT).
Proof. rewrite land_1. destruct (Z.testbit x 0); reflexivity. Qed.

Lemma xy_c_gt (x y : Z) : xy_clear (c_gt x y).
Proof. unfold c_gt. destruct (x >? y); reflexivity. Qed.

Lemma xy_szp (r : Z) : xy_clear (szp_flags r).
Proof.
  pose proof (szp_cases r) as Hin. szp_enum Hin; reflexivity.
Qed.

Lemma xy_C_FLAG : xy_clear C_FLAG. Proof. reflexivity. Qed.
Lemma xy_H_FLAG : xy_clear H_FLAG. Proof. reflexivity. Qed.
Lemma xy_P_FLAG : xy_clear P_FLAG. Proof. reflexivity. Qed.
Lemma xy_Z_FLAG : xy_clear Z_FLAG. Proof. reflexivity. Qed.
Lemma xy_one : xy_clear 1. Proof. reflexivity. Qed.

Create HintDb xy.
#[local] Hint Resolve xy_byte xy_lor xy_lxor xy_land_l xy_land_r xy_shift_C
  xy_bit_H xy_c_gt xy_szp xy_C_FLAG xy_H_FLAG xy_P_FLAG xy_Z_FLAG xy_one : xy.

(* every value of an opcode fetch *)
Ltac each_opcode op Hop :=
  destruct op as [|p|p];
  [ | repeat (destruct p as [p|p|]; try (exfalso; unfold is_byte in Hop; lia))
    | exfalso; unfold is_byte in Hop; lia ].

Ltac branches :=
  repeat match goal with
         | |- context [if ?b then _ else _] => destruct b
         end.

Lemma xy_preserved (s : machine) :
  xy_clear (F s) -> memrdr s (PC8 s) <> 0xf1 -> xy_clear (F (step s)).
Proof.
  intros Hxy Hne. rewrite (step_op s _ eq_refl).
  pose proof (memrdr_byte s (PC8 s)) as Hop.
  revert Hne Hop. generalize (memrdr s (PC8 s)) as op. intros op Hne Hop.
  split_machine s. cbn [F] in Hxy.
  each_opcode op Hop.
  all: expose; try (branches; expose).
  all: auto 12 with xy.
Qed.

(* values that are within their type by assumption or by truncation *)
Ltac in_range :=
  first [ assumption | apply byte_range | apply word_range ].

Lemma pop_psw_loads (s : machine) :
  memrdr s (PC8 s) = 0xf1 -> F (step s) = memrdr s (SP8 s).
Proof.
  intros Hop. rewrite (step_op s _ Hop). split_machine s. expose.
  apply byte_idem.
Qed.

Lemma init_cpu_fields (rng : Type) (random : Z -> rng -> Z * rng) (g : rng)
      (s : machine) :
  let ds := draws rng random init_maxima g in
  let s' := fst (init_cpu rng random g s) in
  PC8 s' = 0 /\ SP8 s' = word (nth 0 ds 0) /\
  A s' = byte (nth 1 ds 0) /\ B s' = byte (nth 2 ds 0) /\
  C s' = byte (nth 3 ds 0) /\ D s' = byte (nth 4 ds 0) /\
  E s' = byte (nth 5 ds 0) /\ H s' = byte (nth 6 ds 0) /\
  L s' = byte (nth 7 ds 0) /\ F s' = byte (nth 8 ds 0) /\
  IFF s' = IFF s /\ State s' = State s /\ tstates s' = tstates s /\
  mem s' = mem s.
Proof.
  unfold init_cpu, init_maxima. cbn [draws].
  repeat match goal with
         | |- context [random ?m ?x] =>
             let r := fresh "r" in
             let g' := fresh "g" in
             destruct (random m x) as [r g']; cbn [fst snd]
         end.
  cbn [fst nth]. repeat split.
Qed.

(** C3, as the code has it. An opcode other than POP PSW leaves the X bit
    (bit 3) and the Y bit (bit 5) of F clear when they were clear before.
    POP PSW loads F with the byte at SP as it stands in memory, and
    [init_cpu] stores the value drawn for F as it is drawn; neither masks X
    and Y. *)
Theorem xy_flags_kept :
  (forall s, xy_clear (F s) -> memrdr s (PC8 s) <> 0xf1 ->
             xy_clear (F (step s))) /\
  (forall s, memrdr s (PC8 s) = 0xf1 -> F (step s) = memrdr s (SP8 s)) /\
  (forall rng random g s,
      F (fst (init_cpu rng random g s)) =
      byte (nth 8 (draws rng random init_maxima g) 0)).
Proof.
  split; [exact xy_preserved | ].
  split; [exact pop_psw_loads | ].
  intros rng random g s. apply (init_cpu_fields rng random g s).
Qed.

Lemma xy_flags_kept_witness :
  let s := boot clean_draws [0x3c; 0xf1; 0x28] in
  (xy_clear (F s) /\ memrdr s (PC8 s) <> 0xf1 /\ xy_clear (F (step s))) /\
  (memrdr (step s) (PC8 (step s)) = 0xf1 /\
   F (step (step s)) = memrdr (step s) (SP8 (step s))).
Proof.
  intros s.
  assert (Hxy : xy_clear (F s)) by reflexivity.
  assert (Hne : memrdr s (PC8 s) <> 0xf1) by (vm_compute; discriminate).
  assert (Hop : memrdr (step s) (PC8 (step s)) = 0xf1) by reflexivity.
  split.
  - split; [exact Hxy | split; [exact Hne | ]].
    exact (proj1 xy_flags_kept s Hxy Hne).
  - split; [exact Hop | ].
    exact (proj1 (proj2 xy_flags_kept) (step s) Hop).
Defined.

(* after power-on F may carry X and Y, and POP PSW sets them from the stack *)
Lemma xy_flags_not_invariant :
  ~ xy_clear (F (boot some_draws [])) /\
  (let s := boot clean_draws [0xf1; 0x28] in
   xy_clear (F s) /\ memrdr s (PC8 s) = 0xf1 /\ ~ xy_clear (F (step s))).
Proof.
  split; [vm_compute; discriminate | ].
  split; [reflexivity | ].
  split; [reflexivity | vm_compute; discriminate].
Qed.

(** ** Power-on *)


(** ** XTHL *)

(** C10, as the code has it. XTHL exchanges the byte at SP with L and the
    byte at SP+1 with H, leaves the flags and SP as they are, and adds 14
    T-states to the 4 of the opcode fetch, 18 for the instruction. *)
Theorem xthl_exchanges (s : machine) :
  wf s ->
  memrdr s (PC8 s) = 0xe3 ->
  let s' := step s in
  L s' = memrdr s (SP8 s) /\ H s' = memrdr s (SP8 s + 1) /\
  memrdr s' (SP8 s) = L s /\ memrdr s' (SP8 s + 1) = H s /\
  F s' = F s /\ SP8 s' = SP8 s /\
  t s' = 4 + 14 /\ tstates s' = ulong (tstates s + 18).
Proof.
  intros Hwf Hop. cbv zeta.
  destruct Hwf as [HA HB HC HD HE HH HL HF HPC HSP]. split_machine s.
  cbn [A B C D E H L F PC8 SP8] in *.
  rewrite (step_op _ _ Hop); clear Hop; expose.
  addresses.
  all: rewrite ?byte_idem, ?(byte_small _ HL), ?(byte_small _ HH).
  all: repeat split; reflexivity.
Qed.

Lemma xthl_exchanges_witness :
  let s := boot some_draws [0xe3] in
  wf s /\ memrdr s (PC8 s) = 0xe3 /\
  (let s' := step s in
   L s' = memrdr s (SP8 s) /\ H s' = memrdr s (SP8 s + 1) /\
   memrdr s' (SP8 s) = L s /\ memrdr s' (SP8 s + 1) = H s /\
   F s' = F s /\ SP8 s' = SP8 s /\
   t s' = 4 + 14 /\ tstates s' = ulong (tstates s + 18)).
Proof.
  intros s.
  assert (Hwf : wf s)
    by (constructor; vm_compute; split; (discriminate || reflexivity)).
  assert (Hop : memrdr s (PC8 s) = 0xe3) by reflexivity.
  split; [exact Hwf | split; [exact Hop | ]].
  exact (xthl_exchanges s Hwf Hop).
Defined.

(* the instruction is charged 18 T-states, not 14 *)
Lemma xthl_charge_not_14 :
  let s := boot some_draws [0xe3] in
  memrdr s (PC8 s) = 0xe3 /\ tstates s = 0 /\
  tstates (step s) = 18 /\ tstates (step s) <> 14.
Proof.
  cbv zeta. repeat split; try reflexivity. vm_compute. discriminate.
Qed.

(** ** Immediate add, from power-on *)




(** * Further properties of the interpreter *)

(** ** What a turn leaves alone *)

Ltac by_opcode s op Hop :=
  rewrite (step_op s _ eq_refl);
  pose proof (memrdr_byte s (PC8 s)) as Hop;
  revert Hop; generalize (memrdr s (PC8 s)) as op; intros op Hop.

(** X3. Every turn charges at least 4 and at most 18 T-states, so the
    default arm of the switch, which would charge none, is never taken; the
    charge is added to [tstates] modulo 2^32, and the counter grows as long
    as it does not wrap. *)
Theorem turn_charge (s : machine) :
  4 <= t (step s) <= 18 /\
  tstates (step s) = (tstates s + t (step s)) mod 2 ^ 32 /\
  (0 <= tstates s -> tstates s + 18 < 2 ^ 32 ->
   tstates s < tstates (step s)).
Proof.
  assert (Hmain : 4 <= t (step s) <= 18 /\
                  tstates (step s) = ulong (tstates s + t (step s))).
  { by_opcode s op Hop. split_machine s. each_opcode op Hop.
    all: expose; try (branches; expose).
    all: split; [vm_compute; split; discriminate | reflexivity]. }
  destruct Hmain as [Hrange Hsum]. split; [exact Hrange | ].
  split; [exact Hsum | ].
  intros Hlo Hhi. rewrite Hsum. unfold ulong.
  rewrite Z.mod_small; lia.
Qed.

Lemma turn_charge_witness :
  let s := boot some_draws [0xe3] in
  0 <= tstates s /\ tstates s + 18 < 2 ^ 32 /\ tstates s < tstates (step s).
Proof.
  intros s.
  assert (Hlo : 0 <= tstates s) by (vm_compute; discriminate).
  assert (Hhi : tstates s + 18 < 2 ^ 32) by reflexivity.
  split; [exact Hlo | split; [exact Hhi | ]].
  exact (proj2 (proj2 (turn_charge s)) Hlo Hhi).
Defined.

Lemma state_assigned_by_hlt (s : machine) :
  (memrdr s (PC8 s) = 0x76 -> State (step s) = Halted) /\
  (memrdr s (PC8 s) <> 0x76 -> State (step s) = State s).
Proof.
  by_opcode s op Hop. split_machine s. each_opcode op Hop.
  all: split; intros Hc;
    first [ discriminate Hc
          | exfalso; apply Hc; reflexivity
          | expose; try (branches; expose); reflexivity ].
Qed.

(** X4. HLT is the only opcode that assigns to [State]: a turn that
    executes HLT leaves [State = Halted], any other turn leaves [State] as
    it was. *)
Theorem state_changes_by_hlt_only (s : machine) :
  (memrdr s (PC8 s) = 0x76 -> State (step s) = Halted) /\
  (memrdr s (PC8 s) <> 0x76 -> State (step s) = State s).
Proof. exact (state_assigned_by_hlt s). Qed.

Lemma state_changes_by_hlt_only_witness :
  let s := boot some_draws [0x76] in
  let s' := boot some_draws [0x00] in
  (memrdr s (PC8 s) = 0x76 /\ State (step s) = Halted) /\
  (memrdr s' (PC8 s') <> 0x76 /\ State (step s') = State s').
Proof.
  intros s s'.
  assert (Hop : memrdr s (PC8 s) = 0x76) by reflexivity.
  assert (Hne : memrdr s' (PC8 s') <> 0x76) by (vm_compute; discriminate).
  split.
  - split; [exact Hop | exact (proj1 (state_changes_by_hlt_only s) Hop)].
  - split; [exact Hne | exact (proj2 (state_changes_by_hlt_only s') Hne)].
Defined.

(** X5. DI and EI are the only opcodes that assign to IFF: DI sets it to 0,
    EI to 3, and any other turn leaves it as it was. *)
Theorem iff_changes_by_di_ei_only (s : machine) :
  (memrdr s (PC8 s) = 0xf3 -> IFF (step s) = 0) /\
  (memrdr s (PC8 s) = 0xfb -> IFF (step s) = 3) /\
  (memrdr s (PC8 s) <> 0xf3 -> memrdr s (PC8 s) <> 0xfb ->
   IFF (step s) = IFF s).
Proof.
  by_opcode s op Hop. split_machine s. each_opcode op Hop.
  all: split; [ | split ]; intros Hc; try intros Hc';
    first [ discriminate Hc
          | exfalso; apply Hc; reflexivity
          | exfalso; apply Hc'; reflexivity
          | expose; try (branches; expose); reflexivity ].
Qed.

Lemma iff_changes_by_di_ei_only_witness :
  let s := boot some_draws [0xfb] in
  let s' := step s in
  (memrdr s (PC8 s) = 0xfb /\ IFF (step s) = 3) /\
  (memrdr s' (PC8 s') <> 0xf3 /\ memrdr s' (PC8 s') <> 0xfb /\
   IFF (step s') = IFF s').
Proof.
  intros s s'.
  assert (Hei : memrdr s (PC8 s) = 0xfb) by reflexivity.
  assert (Hn1 : memrdr s' (PC8 s') <> 0xf3) by (vm_compute; discriminate).
  assert (Hn2 : memrdr s' (PC8 s') <> 0xfb) by (vm_compute; discriminate).
  split.
  - split; [exact Hei | ].
    exact (proj1 (proj2 (iff_changes_by_di_ei_only s)) Hei).
  - split; [exact Hn1 | split; [exact Hn2 | ]].
    exact (proj2 (proj2 (iff_changes_by_di_ei_only s')) Hn1 Hn2).
Defined.

(** X6. Memory is written by the store, push, call and exchange opcodes
    listed in [stores] and by no other: a turn with any other opcode leaves
    every byte of memory as it was. *)
Theorem memory_written_by_stores_only (s : machine) :
  member (memrdr s (PC8 s)) stores = false -> mem (step s) = mem s.
Proof.
  intros Hnot. revert Hnot. by_opcode s op Hop. intros Hnot.
  split_machine s. each_opcode op Hop.
  all: first [ discriminate Hnot
             | expose; try (branches; expose); reflexivity ].
Qed.

Lemma memory_written_by_stores_only_witness :
  let s := boot some_draws [0xc1] in
  member (memrdr s (PC8 s)) stores = false /\ mem (step s) = mem s.
Proof.
  intros s.
  assert (Hnot : member (memrdr s (PC8 s)) stores = false) by reflexivity.
  split; [exact Hnot | exact (memory_written_by_stores_only s Hnot)].
Defined.

(** X7. OUT is the only opcode that writes to a port: it hands the port
    number, twice, and the accumulator to [io_out], once; any other turn
    makes no port write. *)
Theorem port_written_by_out_only (s : machine) :
  (memrdr s (PC8 s) = 0xd3 ->
   outp (step s) = outp s ++ [(immediate s, immediate s, byte (A s))]) /\
  (memrdr s (PC8 s) <> 0xd3 -> outp (step s) = outp s).
Proof.
  by_opcode s op Hop. split_machine s. each_opcode op Hop.
  all: split; intros Hc;
    first [ discriminate Hc
          | exfalso; apply Hc; reflexivity
          | expose; try (branches; expose); fetch_norm; reflexivity ].
Qed.

Lemma port_written_by_out_only_witness :
  let s := boot some_draws [0xd3; 0x43] in
  let s' := step s in
  (memrdr s (PC8 s) = 0xd3 /\
   outp (step s) = outp s ++ [(immediate s, immediate s, byte (A s))]) /\
  (memrdr s' (PC8 s') <> 0xd3 /\ outp (step s') = outp s').
Proof.
  intros s s'.
  assert (Hout : memrdr s (PC8 s) = 0xd3) by reflexivity.
  assert (Hne : memrdr s' (PC8 s') <> 0xd3) by (vm_compute; discriminate).
  split.
  - split; [exact Hout | exact (proj1 (port_written_by_out_only s) Hout)].
  - split; [exact Hne | exact (proj2 (port_written_by_out_only s') Hne)].
Defined.

(** X8. The data transfer, 16-bit increment, stack, jump, call, return,
    I/O, CMA, EI, DI, NOP and HLT opcodes leave the flag byte as it was:
    only the opcodes of [writes_flags] assign to F. *)
Theorem flags_kept_by_transfers (s : machine) :
  writes_flags (memrdr s (PC8 s)) = false -> F (step s) = F s.
Proof.
  intros Hnot. revert Hnot. by_opcode s op Hop. intros Hnot.
  split_machine s. each_opcode op Hop.
  all: first [ discriminate Hnot
             | expose; try (branches; expose); reflexivity ].
Qed.

Lemma flags_kept_by_transfers_witness :
  let s := boot some_draws [0xcd; 0x34; 0x12] in
  writes_flags (memrdr s (PC8 s)) = false /\ F (step s) = F s.
Proof.
  intros s.
  assert (Hnot : writes_flags (memrdr s (PC8 s)) = false) by reflexivity.
  split; [exact Hnot | exact (flags_kept_by_transfers s Hnot)].
Defined.

(** ** Arithmetic and logic on the accumulator *)

Lemma szp_meaning (r : Z) :
  is_byte r ->
  flag S_FLAG (szp_flags r) = sign r /\
  flag Z_FLAG (szp_flags r) = zero r /\
  flag P_FLAG (szp_flags r) = parity r.
Proof.
  intros Hr. pose proof (all_bytes _ szp_table_checked r Hr) as Hok.
  unfold szp_entry_ok in Hok.
  repeat (apply andb_true_iff in Hok; destruct Hok as [Hok ?]).
  repeat match goal with
         | Hb : Bool.eqb _ _ = true |- _ => apply Bool.eqb_prop in Hb
         end.
  unfold sign, zero, parity. auto.
Qed.

Lemma bit_choice (c : bool) : Z.b2z c = 0 \/ Z.b2z c = 1.
Proof. destruct c; auto. Qed.

(* bits 7 and 3 of the carry-outs are the carry out of the byte and out of
   the low nibble, for a sum and for a difference with carry or borrow *)
Ltac carry_bits a b n :=
  rewrite ?Z.lor_spec, ?Z.land_spec, ?Z.lor_spec, ?Z.lnot_spec by lia;
  rewrite ?byte_testbit by lia;
  pose proof (Z.testbit_spec' a n ltac:(lia)) as Hbit_a;
  pose proof (Z.testbit_spec' b n ltac:(lia)) as Hbit_b;
  match goal with
  | |- context [Z.testbit (?x + ?y + ?z) n] =>
      pose proof (Z.testbit_spec' (x + y + z) n ltac:(lia)) as Hbit_r
  | |- context [Z.testbit (?x - ?y - ?z) n] =>
      pose proof (Z.testbit_spec' (x - y - z) n ltac:(lia)) as Hbit_r
  end.

Lemma add_bits (a b : Z) (c : bool) :
  is_byte a -> is_byte b ->
  Z.testbit ((a .& b) .| ((a .| b) .& Z.lnot (byte (a + b + Z.b2z c)))) 7 =
  (256 <=? a + b + Z.b2z c) /\
  Z.testbit ((a .& b) .| ((a .| b) .& Z.lnot (byte (a + b + Z.b2z c)))) 3 =
  (16 <=? a mod 16 + b mod 16 + Z.b2z c).
Proof.
  unfold is_byte. intros Ha Hb. destruct (bit_choice c) as [Hc | Hc]; split.
  all: [> carry_bits a b 7 | carry_bits a b 3 | carry_bits a b 7 | carry_bits a b 3 ].
  all: rewrite Hc in *; clear Hc.
  all: match goal with
       | |- _ = (?x <=? ?y) => destruct (Z.leb_spec x y)
       end.
  all: repeat match goal with
              | Hx : context [Z.testbit ?x ?n] |- _ =>
                  destruct (Z.testbit x n)
              end.
  all: cbn [Z.b2z andb orb negb] in *; try reflexivity; exfalso.
  all: change (2 ^ 7) with 128 in *; change (2 ^ 3) with 8 in *.
  all: Z.div_mod_to_equations; lia.
Qed.

Lemma sub_bits (a b : Z) (c : bool) :
  is_byte a -> is_byte b ->
  Z.testbit ((Z.lnot a .& b) .| ((Z.lnot a .| b) .& byte (a - b - Z.b2z c)))
            7 = (a <? b + Z.b2z c) /\
  Z.testbit ((Z.lnot a .& b) .| ((Z.lnot a .| b) .& byte (a - b - Z.b2z c)))
            3 = (a mod 16 <? b mod 16 + Z.b2z c).
Proof.
  unfold is_byte. intros Ha Hb. destruct (bit_choice c) as [Hc | Hc]; split.
  all: [> carry_bits a b 7 | carry_bits a b 3 | carry_bits a b 7 | carry_bits a b 3 ].
  all: rewrite Hc in *; clear Hc.
  all: match goal with
       | |- _ = (?x <? ?y) => destruct (Z.ltb_spec x y)
       end.
  all: repeat match goal with
              | Hx : context [Z.testbit ?x ?n] |- _ =>
                  destruct (Z.testbit x n)
              end.
  all: cbn [Z.b2z andb orb negb] in *; try reflexivity; exfalso.
  all: change (2 ^ 7) with 128 in *; change (2 ^ 3) with 8 in *.
  all: Z.div_mod_to_equations; lia.
Qed.

(* the flag bytes the cases assemble, flag by flag *)
Lemma flags_add (c h : bool) (r : Z) :
  is_byte r ->
  flags_are (byte (((Z.b2z c << C_SHIFT) .| (Z.b2z h << H_SHIFT)) .|
                   szp_flags r))
            (sign r) (zero r) h (parity r) c.
Proof.
  intros Hr. destruct (szp_meaning r Hr) as (<- & <- & <-).
  pose proof (szp_cases r) as Hin.
  destruct c, h; szp_enum Hin; constructor; reflexivity.
Qed.

Lemma flags_sub (c h : bool) (r : Z) :
  is_byte r ->
  flags_are (byte (byte (((Z.b2z c << C_SHIFT) .| (Z.b2z h << H_SHIFT)) .|
                         szp_flags r) .^ H_FLAG))
            (sign r) (zero r) (negb h) (parity r) c.
Proof.
  intros Hr. destruct (szp_meaning r Hr) as (<- & <- & <-).
  pose proof (szp_cases r) as Hin.
  destruct c, h; szp_enum Hin; constructor; reflexivity.
Qed.

Lemma flags_and (h : bool) (r : Z) :
  is_byte r ->
  flags_are (byte ((Z.b2z h << H_SHIFT) .| szp_flags r))
            (sign r) (zero r) h (parity r) false.
Proof.
  intros Hr. destruct (szp_meaning r Hr) as (<- & <- & <-).
  pose proof (szp_cases r) as Hin.
  destruct h; szp_enum Hin; constructor; reflexivity.
Qed.

Lemma flags_szp (r : Z) :
  is_byte r ->
  flags_are (byte (szp_flags r)) (sign r) (zero r) false (parity r) false.
Proof.
  intros Hr. destruct (szp_meaning r Hr) as (<- & <- & <-).
  pose proof (szp_cases r) as Hin.
  szp_enum Hin; constructor; reflexivity.
Qed.

Ltac decide_alu Hx :=
  cbv [adc_form logic_form sub_form between Z.leb Z.eqb Z.compare
       Pos.compare Pos.compare_cont andb Pos.eqb] in Hx;
  operand_index.

Lemma adc_form_cases (op : Z) (s : machine) (wc : bool) (b : Z) :
  adc_form op s = Some (wc, b) ->
  In op [0x80; 0x81; 0x82; 0x83; 0x84; 0x85; 0x86; 0x87;
         0x88; 0x89; 0x8a; 0x8b; 0x8c; 0x8d; 0x8e; 0x8f; 0xc6; 0xce].
Proof. unfold adc_form, between. intros Hform. form_cases Hform. Qed.

Lemma add_family_sum (s : machine) (op : Z) (wc : bool) (b : Z) :
  memrdr s (PC8 s) = op ->
  adc_form op s = Some (wc, b) ->
  is_byte (A s) -> is_byte b ->
  let cin := Z.b2z (wc && flag C_FLAG (F s)) in
  let sum := A s + b + cin in
  let s' := step s in
  A s' = sum mod 256 /\
  flags_are (F s') (sign (sum mod 256)) (zero (sum mod 256))
            (16 <=? A s mod 16 + b mod 16 + cin)
            (parity (sum mod 256)) (256 <=? sum).
Proof.
  intros Hop Hform Ha Hb. cbv zeta. rewrite (step_op s op Hop). clear Hop.
  pose proof (adc_form_cases op s wc b Hform) as Hin.
  split_machine s. cbn [In] in Hin. cbn [A F] in Ha |- *.
  repeat (destruct Hin as [<- | Hin]); try contradiction.
  all: decide_alu Hform; injection Hform as <- <-.
  all: expose_in Hb; expose.
  all: rewrite ?byte_idem, ?word_idem, ?(byte_small _ Hb).
  all: cbn [andb]; change (Z.b2z false) with 0; rewrite ?Z.add_0_r.
  all: change (?x mod 256) with (byte x).
  all: rewrite ?carry_in, ?bit_extract, ?byte_testbit by lia.
  all: split; [reflexivity || apply byte_idem | ].
  all: match goal with
       | |- context [byte (?x + ?y + Z.b2z ?c)] =>
           destruct (add_bits x y c Ha Hb) as [H7 H3]
       | |- context [byte (?x + ?y)] =>
           destruct (add_bits x y false Ha Hb) as [H7 H3];
           change (Z.b2z false) with 0 in H7, H3;
           rewrite Z.add_0_r in H7; rewrite !Z.add_0_r in H3
       end.
  all: rewrite H7, H3; apply flags_add, byte_range.
Qed.

(** X9. ADD, ADC, ADI and ACI add the operand, and for ADC and ACI the
    carry flag, to the accumulator modulo 256.  C is the carry out of the
    byte, H the carry out of the low nibble, Z, S and P are the zero test,
    the sign bit and the even parity of the result, and the reserved flag
    bits are 0. *)
Theorem add_family_arithmetic (s : machine) (op : Z) (wc : bool) (b : Z) :
  memrdr s (PC8 s) = op ->
  adc_form op s = Some (wc, b) ->
  is_byte (A s) -> is_byte b ->
  let cin := Z.b2z (wc && flag C_FLAG (F s)) in
  let sum := A s + b + cin in
  let s' := step s in
  A s' = sum mod 256 /\
  flags_are (F s') (sign (sum mod 256)) (zero (sum mod 256))
            (16 <=? A s mod 16 + b mod 16 + cin)
            (parity (sum mod 256)) (256 <=? sum).
Proof. exact (add_family_sum s op wc b). Qed.

Lemma add_family_arithmetic_witness :
  let s := boot some_draws [0x88] in
  memrdr s (PC8 s) = 0x88 /\
  adc_form 0x88 s = Some (true, 0x22) /\
  is_byte (A s) /\ is_byte 0x22 /\
  (let cin := Z.b2z (true && flag C_FLAG (F s)) in
   let sum := A s + 0x22 + cin in
   let s' := step s in
   A s' = sum mod 256 /\
   flags_are (F s') (sign (sum mod 256)) (zero (sum mod 256))
             (16 <=? A s mod 16 + 0x22 mod 16 + cin)
             (parity (sum mod 256)) (256 <=? sum)).
Proof.
  intros s.
  assert (Hop : memrdr s (PC8 s) = 0x88) by reflexivity.
  assert (Hform : adc_form 0x88 s = Some (true, 0x22)) by reflexivity.
  assert (Ha : is_byte (A s)) by (vm_compute; split; (discriminate || reflexivity)).
  assert (Hb : is_byte 0x22) by (unfold is_byte; lia).
  split; [exact Hop | split; [exact Hform | split; [exact Ha | ]]].
  split; [exact Hb | ].
  exact (add_family_arithmetic s 0x88 true 0x22 Hop Hform Ha Hb).
Defined.

Lemma byte_difference_zero (a b : Z) :
  is_byte a -> is_byte b -> zero (byte (a - b)) = (a =? b).
Proof.
  intros Ha Hb. unfold zero.
  destruct (Z.eqb_spec a b) as [->|Hne].
  - rewrite Z.sub_diag. reflexivity.
  - apply Z.eqb_neq. wrap_lia.
Qed.

(** X10. SUB, SBB, SUI, SBI, CMP and CPI subtract the operand, and for SBB
    and SBI the carry flag, from the accumulator modulo 256; CMP and CPI
    keep the accumulator.  C is the borrow, that is A < operand + borrow-in,
    H is set when the low nibble needs no borrow, Z, S and P describe the
    difference; after CMP and CPI, Z tells whether A equals the operand and
    C whether A is below it. *)
Theorem sub_family_arithmetic (s : machine) (op : Z) (k : sub_kind) (b : Z) :
  memrdr s (PC8 s) = op ->
  sub_form op s = Some (k, b) ->
  is_byte (A s) -> is_byte b ->
  let cin := match k with SBB => Z.b2z (flag C_FLAG (F s)) | _ => 0 end in
  let r := (A s - b - cin) mod 256 in
  let s' := step s in
  A s' = match k with CMP => A s | _ => r end /\
  flags_are (F s') (sign r) (zero r) (b mod 16 + cin <=? A s mod 16)
            (parity r) (A s <? b + cin) /\
  (k = CMP -> flag Z_FLAG (F s') = (A s =? b) /\
              flag C_FLAG (F s') = (A s <? b)).
Proof.
  intros Hop Hform Ha Hb.
  assert (Hmain :
    let cin := match k with SBB => Z.b2z (flag C_FLAG (F s)) | _ => 0 end in
    let r := (A s - b - cin) mod 256 in
    A (step s) = match k with CMP => A s | _ => r end /\
    flags_are (F (step s)) (sign r) (zero r)
              (b mod 16 + cin <=? A s mod 16) (parity r) (A s <? b + cin)).
  { cbv zeta. rewrite (step_op s op Hop). clear Hop.
    pose proof (sub_form_cases op s k b Hform) as Hin.
    split_machine s. cbn [In] in Hin. cbn [A F] in Ha |- *.
    repeat (destruct Hin as [<- | Hin]); try contradiction.
    all: decide_alu Hform; injection Hform as <- <-.
    all: expose_in Hb; expose.
    all: rewrite ?byte_idem, ?word_idem, ?(byte_small _ Hb).
    all: rewrite ?Z.sub_0_r, ?Z.add_0_r.
    all: change (?x mod 256) with (byte x).
    all: rewrite ?carry_in, ?bit_extract, ?byte_testbit by lia.
    all: rewrite (Z.leb_antisym (ra mod 16)).
    all: split;
      [first [reflexivity | apply byte_idem
             | rewrite Z.sub_diag; reflexivity] | ].
    all: try (match goal with
              | |- context [byte (?x - ?y - Z.b2z ?c)] =>
                  destruct (sub_bits x y c Ha Hb) as [H7 H3]
              | |- context [szp_flags (byte (?x - ?y))] =>
                  destruct (sub_bits x y false Ha Hb) as [H7 H3];
                  change (Z.b2z false) with 0 in H7, H3;
                  rewrite Z.sub_0_r, Z.add_0_r in H7;
                  rewrite Z.sub_0_r, Z.add_0_r in H3
              end;
              rewrite H7, H3; apply flags_sub, byte_range).
    (* SUB A and CMP A *)
    all: rewrite Z.sub_diag, !Z.ltb_irrefl.
    all: constructor; reflexivity. }
  cbv zeta in *. destruct Hmain as [HA HF].
  split; [exact HA | split; [exact HF | ]].
  intros ->. rewrite !Z.sub_0_r, !Z.add_0_r in HF. split.
  - rewrite (is_Z _ _ _ _ _ _ HF). apply byte_difference_zero; assumption.
  - exact (is_C _ _ _ _ _ _ HF).
Qed.

Lemma sub_family_arithmetic_witness :
  let s := boot some_draws [0xfe; 0x11] in
  memrdr s (PC8 s) = 0xfe /\
  sub_form 0xfe s = Some (CMP, 0x11) /\
  is_byte (A s) /\ is_byte 0x11 /\
  A (step s) = A s /\
  flag Z_FLAG (F (step s)) = (A s =? 0x11) /\
  flag C_FLAG (F (step s)) = (A s <? 0x11).
Proof.
  intros s.
  assert (Hop : memrdr s (PC8 s) = 0xfe) by reflexivity.
  assert (Hform : sub_form 0xfe s = Some (CMP, 0x11)) by reflexivity.
  assert (Ha : is_byte (A s))
    by (vm_compute; split; (discriminate || reflexivity)).
  assert (Hb : is_byte 0x11) by (unfold is_byte; lia).
  split; [exact Hop | split; [exact Hform | split; [exact Ha | ]]].
  split; [exact Hb | ].
  split.
  - exact (proj1 (sub_family_arithmetic s 0xfe CMP 0x11 Hop Hform Ha Hb)).
  - exact (proj2 (proj2 (sub_family_arithmetic s 0xfe CMP 0x11
                                                Hop Hform Ha Hb)) eq_refl).
Defined.

Lemma high_bits_clear (a n : Z) : is_byte a -> 8 <= n -> Z.testbit a n = false.
Proof.
  intros Ha Hn. rewrite <- (byte_small a Ha). unfold byte.
  apply Z.mod_pow2_bits_high. lia.
Qed.

Ltac bytewise Ha Hb :=
  apply Z.bits_inj'; intros n Hn; unfold byte;
  destruct (Z.ltb_spec n 8);
  [ apply Z.mod_pow2_bits_low; assumption
  | rewrite Z.mod_pow2_bits_high by lia;
    rewrite ?Z.land_spec, ?Z.lor_spec, ?Z.lxor_spec;
    rewrite (high_bits_clear _ n Ha), (high_bits_clear _ n Hb) by assumption;
    reflexivity ].

Lemma byte_land (a b : Z) : is_byte a -> is_byte b -> byte (a .& b) = a .& b.
Proof. intros Ha Hb. bytewise Ha Hb. Qed.

Lemma byte_lor (a b : Z) : is_byte a -> is_byte b -> byte (a .| b) = a .| b.
Proof. intros Ha Hb. bytewise Ha Hb. Qed.

Lemma byte_lxor (a b : Z) : is_byte a -> is_byte b -> byte (a .^ b) = a .^ b.
Proof. intros Ha Hb. bytewise Ha Hb. Qed.

Lemma logic_form_cases (op : Z) (s : machine) (k : logic_kind) (b : Z) :
  logic_form op s = Some (k, b) ->
  In op [0xa0; 0xa1; 0xa2; 0xa3; 0xa4; 0xa5; 0xa6; 0xa7;
         0xa8; 0xa9; 0xaa; 0xab; 0xac; 0xad; 0xae; 0xaf;
         0xb0; 0xb1; 0xb2; 0xb3; 0xb4; 0xb5; 0xb6; 0xb7;
         0xe6; 0xee; 0xf6].
Proof. unfold logic_form, between. intros Hform. form_cases Hform. Qed.

(** X11. ANA, XRA, ORA and their immediate forms store the bitwise and,
    exclusive or, or of accumulator and operand in the accumulator.  They
    clear C; ANA sets H to bit 3 of [A | operand], XRA and ORA clear H; Z, S
    and P describe the result.  The dedicated cases XRA A and ORA A agree
    with this. *)
Theorem logic_family (s : machine) (op : Z) (k : logic_kind) (b : Z) :
  memrdr s (PC8 s) = op ->
  logic_form op s = Some (k, b) ->
  is_byte (A s) -> is_byte b ->
  let r := match k with
           | ANA => A s .& b | XRA => A s .^ b | ORA => A s .| b
           end in
  let h := match k with ANA => Z.testbit (A s .| b) 3 | _ => false end in
  let s' := step s in
  A s' = r /\ flags_are (F s') (sign r) (zero r) h (parity r) false.
Proof.
  intros Hop Hform Ha Hb. cbv zeta. rewrite (step_op s op Hop). clear Hop.
  pose proof (logic_form_cases op s k b Hform) as Hin.
  split_machine s. cbn [In] in Hin. cbn [A F] in Ha |- *.
  repeat (destruct Hin as [<- | Hin]); try contradiction.
  all: decide_alu Hform; injection Hform as <- <-.
  all: expose_in Hb; expose.
  all: rewrite ?byte_idem, ?word_idem, ?(byte_small _ Hb).
  all: rewrite ?Z.lxor_nilpotent, ?Z.lor_diag.
  all: repeat match goal with
              | |- context [byte (?x .& ?y)] => rewrite (byte_land x y Ha Hb)
              | |- context [byte (?x .| ?y)] => rewrite (byte_lor x y Ha Hb)
              | |- context [byte (?x .^ ?y)] => rewrite (byte_lxor x y Ha Hb)
              end.
  all: rewrite ?(byte_small _ Ha).
  all: rewrite ?bit_extract by lia.
  all: split; [reflexivity | ].
  all: first [ apply flags_and | apply flags_szp
             | apply (flags_szp 0); unfold is_byte; lia ].
  all: try assumption.
  all: match goal with
       | |- is_byte (?x .& ?y) =>
           rewrite <- (byte_land x y Ha Hb); apply byte_range
       | |- is_byte (?x .| ?y) =>
           rewrite <- (byte_lor x y Ha Hb); apply byte_range
       | |- is_byte (?x .^ ?y) =>
           rewrite <- (byte_lxor x y Ha Hb); apply byte_range
       end.
Qed.

Lemma logic_family_witness :
  let s := boot some_draws [0xa0] in
  memrdr s (PC8 s) = 0xa0 /\
  logic_form 0xa0 s = Some (ANA, 0x22) /\
  is_byte (A s) /\ is_byte 0x22 /\
  (let r := A s .& 0x22 in
   let h := Z.testbit (A s .| 0x22) 3 in
   let s' := step s in
   A s' = r /\ flags_are (F s') (sign r) (zero r) h (parity r) false).
Proof.
  intros s.
  assert (Hop : memrdr s (PC8 s) = 0xa0) by reflexivity.
  assert (Hform : logic_form 0xa0 s = Some (ANA, 0x22)) by reflexivity.
  assert (Ha : is_byte (A s))
    by (vm_compute; split; (discriminate || reflexivity)).
  assert (Hb : is_byte 0x22) by (unfold is_byte; lia).
  split; [exact Hop | split; [exact Hform | split; [exact Ha | ]]].
  split; [exact Hb | ].
  exact (logic_family s 0xa0 ANA 0x22 Hop Hform Ha Hb).
Defined.

(** ** Increment, decrement and 16-bit addition *)

Lemma incdec_bits_checked : all_below 256 incdec_bits_ok = true.
Proof. vm_compute. reflexivity. Qed.

Lemma carry_edits_checked : all_below 256 carry_edits_ok = true.
Proof. vm_compute. reflexivity. Qed.

Lemma inr_half (v : Z) :
  is_byte v ->
  Z.testbit ((v .& 1) .| ((v .| 1) .& Z.lnot (byte (v + 1)))) 3 =
  (v mod 16 =? 15).
Proof.
  intros Hv. pose proof (all_bytes _ incdec_bits_checked v Hv) as Hok.
  apply andb_true_iff in Hok. destruct Hok as [Hi _].
  apply Bool.eqb_prop in Hi. exact Hi.
Qed.

Lemma dcr_half (v : Z) :
  is_byte v ->
  Z.testbit ((Z.lnot v .& 1) .| ((Z.lnot v .| 1) .& byte (v - 1))) 3 =
  (v mod 16 =? 0).
Proof.
  intros Hv. pose proof (all_bytes _ incdec_bits_checked v Hv) as Hok.
  apply andb_true_iff in Hok. destruct Hok as [_ Hd].
  apply Bool.eqb_prop in Hd. exact Hd.
Qed.

Lemma flags_inr (c h : bool) (r : Z) :
  is_byte r ->
  flags_are (byte ((Z.b2z c .| (Z.b2z h << H_SHIFT)) .| szp_flags r))
            (sign r) (zero r) h (parity r) c.
Proof.
  intros Hr. destruct (szp_meaning r Hr) as (<- & <- & <-).
  pose proof (szp_cases r) as Hin.
  destruct c, h; szp_enum Hin; constructor; reflexivity.
Qed.

Lemma flags_dcr (c h : bool) (r : Z) :
  is_byte r ->
  flags_are (byte (byte ((Z.b2z c .| (Z.b2z h << H_SHIFT)) .| szp_flags r)
                   .^ H_FLAG))
            (sign r) (zero r) (negb h) (parity r) c.
Proof.
  intros Hr. destruct (szp_meaning r Hr) as (<- & <- & <-).
  pose proof (szp_cases r) as Hin.
  destruct c, h; szp_enum Hin; constructor; reflexivity.
Qed.

Lemma incdec_form_cases (op : Z) (dec : bool) (k : Z) :
  incdec_form op = Some (dec, k) ->
  In op [0x04; 0x0c; 0x14; 0x1c; 0x24; 0x2c; 0x34; 0x3c;
         0x05; 0x0d; 0x15; 0x1d; 0x25; 0x2d; 0x35; 0x3d].
Proof.
  unfold incdec_form, between. intros Hform.
  repeat match type of Hform with
         | (if ?c then _ else _) = _ => destruct c eqn:?
         end; try discriminate;
  repeat match goal with
         | Hc : _ && _ = true |- _ => apply andb_true_iff in Hc; destruct Hc
         | Hc : (_ <=? _) = true |- _ => apply Z.leb_le in Hc
         | Hc : (_ =? _) = true |- _ => apply Z.eqb_eq in Hc
         end;
  cbn [In]; Z.div_mod_to_equations; lia.
Qed.

(** X12. INR and DCR add or subtract 1 modulo 256 in a register or in the
    memory byte at HL and keep the carry flag: INR 0xFF gives 0 and DCR 0
    gives 0xFF without touching C.  H is set by INR when the low nibble
    overflows and by DCR unless the low nibble borrows; Z, S and P describe
    the result. *)
Theorem incdec_family (s : machine) (op : Z) (dec : bool) (k : Z) :
  memrdr s (PC8 s) = op ->
  incdec_form op = Some (dec, k) ->
  is_byte (operand k s) ->
  let v := operand k s in
  let r := (if dec then v - 1 else v + 1) mod 256 in
  let h := if dec then negb (v mod 16 =? 0) else (v mod 16 =? 15) in
  let s' := step s in
  operand k s' = r /\
  flags_are (F s') (sign r) (zero r) h (parity r) (flag C_FLAG (F s)).
Proof.
  intros Hop Hform Hv. cbv zeta. rewrite (step_op s op Hop). clear Hop.
  pose proof (incdec_form_cases op dec k Hform) as Hin.
  split_machine s. cbn [In] in Hin.
  repeat (destruct Hin as [<- | Hin]); try contradiction.
  all: vm_compute in Hform; injection Hform as <- <-.
  all: expose_in Hv; expose.
  all: rewrite ?word_idem, ?Z.eqb_refl, ?byte_idem, ?(byte_small _ Hv).
  all: change (?x mod 256) with (byte x).
  all: rewrite ?bit_extract, ?byte_testbit by lia.
  all: rewrite (carry_mask rf).
  all: split; [reflexivity || apply byte_idem | ].
  all: match goal with
       | |- context [byte (?x + 1)] => rewrite (inr_half x Hv)
       | |- context [byte (?x - 1)] => rewrite (dcr_half x Hv)
       end.
  all: first [apply flags_inr | apply flags_dcr]; apply byte_range.
Qed.
Lemma pair_bits (h l : Z) : is_byte l -> (h << 8) .| l = pair h l.
Proof.
  intros Hl. unfold pair.
  assert (Hz : (h << 8) .& l = 0).
  { apply Z.bits_inj'. intros n Hn. rewrite Z.land_spec, Z.bits_0.
    destruct (Z.ltb_spec n 8).
    - rewrite Z.shiftl_spec_low by assumption. reflexivity.
    - rewrite (high_bits_clear l n Hl) by assumption. apply andb_false_r. }
  rewrite <- (Z.lxor_lor _ _ Hz), <- (Z.add_nocarry_lxor _ _ Hz).
  rewrite Z.shiftl_mul_pow2 by lia. change (2 ^ 8) with 256. lia.
Qed.

Lemma high_byte (x : Z) : x >> 8 = x / 256.
Proof. rewrite Z.shiftr_div_pow2 by lia. reflexivity. Qed.

Lemma low_byte (x : Z) : x .& 0xff = x mod 256.
Proof. change 0xff with (Z.ones 8). rewrite Z.land_ones by lia. reflexivity. Qed.

Lemma bit7 (h : Z) : is_byte h -> Z.testbit h 7 = (128 <=? h).
Proof.
  intros Hh. unfold is_byte in Hh.
  destruct (Z.leb_spec 128 h).
  - apply Z.testbit_true; [lia | ]. change (2 ^ 7) with 128.
    Z.div_mod_to_equations. lia.
  - apply Z.testbit_false; [lia | ]. change (2 ^ 7) with 128.
    Z.div_mod_to_equations. lia.
Qed.

Lemma carry_set (f : Z) :
  is_byte f ->
  byte (f .| C_FLAG) .| C_FLAG = f .| C_FLAG /\
  flag C_FLAG (byte (f .| C_FLAG)) = true.
Proof.
  intros Hf. pose proof (all_bytes _ carry_edits_checked f Hf) as Hok.
  unfold carry_edits_ok in Hok.
  apply andb_true_iff in Hok. destruct Hok as [Hok _].
  apply andb_true_iff in Hok. destruct Hok as [Hok _].
  apply andb_true_iff in Hok. destruct Hok as [Hok Hset].
  apply andb_true_iff in Hok. destruct Hok as [Hkeep _].
  apply Z.eqb_eq in Hkeep. apply Bool.eqb_prop in Hset. split; assumption.
Qed.

Lemma carry_flip (f : Z) :
  is_byte f ->
  byte (f .^ C_FLAG) .| C_FLAG = f .| C_FLAG /\
  flag C_FLAG (byte (f .^ C_FLAG)) = negb (flag C_FLAG f).
Proof.
  intros Hf. pose proof (all_bytes _ carry_edits_checked f Hf) as Hok.
  unfold carry_edits_ok in Hok.
  apply andb_true_iff in Hok. destruct Hok as [Hok _].
  apply andb_true_iff in Hok. destruct Hok as [Hok Hflip].
  apply andb_true_iff in Hok. destruct Hok as [Hok _].
  apply andb_true_iff in Hok. destruct Hok as [_ Hkeep].
  apply Z.eqb_eq in Hkeep. apply Bool.eqb_prop in Hflip. split; assumption.
Qed.

Lemma carry_edit (f : Z) (c : bool) :
  is_byte f ->
  byte ((f .& Z.lnot C_FLAG) .| (Z.b2z c << C_SHIFT)) .| C_FLAG =
  f .| C_FLAG /\
  flag C_FLAG (byte ((f .& Z.lnot C_FLAG) .| (Z.b2z c << C_SHIFT))) = c.
Proof.
  intros Hf. pose proof (all_bytes _ carry_edits_checked f Hf) as Hok.
  unfold carry_edits_ok in Hok.
  apply andb_true_iff in Hok. destruct Hok as [_ Hall].
  assert (Hc : 0 <= Z.b2z c < Z.of_nat 2) by (destruct c; simpl; lia).
  pose proof (all_below_spec 2 _ Hall (Z.b2z c) Hc) as Hcell.
  cbv beta in Hcell. apply andb_true_iff in Hcell.
  destruct Hcell as [Hkeep Hbit].
  apply Z.eqb_eq in Hkeep. apply Bool.eqb_prop in Hbit.
  split; [exact Hkeep | ]. rewrite Hbit. destruct c; reflexivity.
Qed.

Lemma pair_split (a : Z) :
  is_word a -> pair (byte (a / 256)) (byte (a mod 256)) = a.
Proof. intros Ha. unfold pair. wrap_lia. Qed.

Lemma dad_high (h l b c : Z) :
  is_byte h -> is_byte l -> is_byte b -> is_byte c ->
  word (pair h l + pair b c) / 256 =
  byte (h + b + Z.b2z (256 <=? l + c)) /\
  (256 <=? h + b + Z.b2z (256 <=? l + c)) = (65536 <=? pair h l + pair b c).
Proof.
  intros Hh Hl Hb Hc. unfold pair.
  destruct (Z.leb_spec 256 (l + c)); cbn [Z.b2z]; split.
  - wrap_lia.
  - destruct (Z.leb_spec 256 (h + b + 1)), (Z.leb_spec 65536 (256 * h + l + (256 * b + c)));
      try reflexivity; wrap_lia.
  - wrap_lia.
  - destruct (Z.leb_spec 256 (h + b + 0)), (Z.leb_spec 65536 (256 * h + l + (256 * b + c)));
      try reflexivity; wrap_lia.
Qed.

Lemma word_split (x : Z) :
  is_word x -> is_byte (x / 256) /\ is_byte (x mod 256) /\
               pair (x / 256) (x mod 256) = x.
Proof. intros Hx. unfold pair. repeat split; wrap_lia. Qed.

Lemma shift_doubles (x : Z) : x << 1 = x + x.
Proof. rewrite Z.shiftl_mul_pow2 by lia. change (2 ^ 1) with 2. lia. Qed.

(** X13. DAD adds a register pair or SP to HL modulo 2^16 and sets C to the
    carry out of bit 15, which the code derives from the high bytes alone;
    the other flags stay as they were, and the instruction takes 10
    T-states.  DAD H doubles HL. *)
Theorem dad_adds (s : machine) (op : Z) (rp : machine -> Z) :
  wf s ->
  In (op, rp) dads ->
  memrdr s (PC8 s) = op ->
  let sum := pair (H s) (L s) + rp s in
  let s' := step s in
  pair (H s') (L s') = sum mod 65536 /\
  flag C_FLAG (F s') = (65536 <=? sum) /\
  F s' .| C_FLAG = F s .| C_FLAG /\
  t s' = 10.
Proof.
  intros Hwf Hin Hop. cbv zeta.
  destruct Hwf as [HA HB HC HD HE HH HL HF HPC HSP]. split_machine s.
  cbn [A B C D E H L F PC8 SP8] in *.
  rewrite (step_op _ _ Hop); clear Hop.
  cbv [dads In] in Hin.
  repeat (destruct Hin as [Hin | Hin]; [injection Hin as <- <- | ]);
    try contradiction.
  all: expose.
  all: rewrite ?bit_extract, ?byte_testbit by lia.
  all: match goal with
       | |- context [Z.b2z ?c << C_SHIFT] =>
           destruct (carry_edit rf c HF) as [Hkeep Hbit]
       end.
  all: rewrite Hkeep, Hbit.
  all: rewrite ?high_byte, ?low_byte, ?word_idem.
  all: rewrite ?pair_bits by assumption.
  all: rewrite ?word_add_l.
  all: rewrite ?shift_doubles.
  all: split; [apply pair_split, word_range | ].
  all: split; [ | split; [reflexivity | reflexivity]].
  - destruct (dad_high rh rl rb rc HH HL HB HC) as [Hq Hcarry].
    destruct (add_bits rh rb (256 <=? rl + rc) HH HB) as [H7 _].
    rewrite Hq, H7. exact Hcarry.
  - destruct (dad_high rh rl rd re HH HL HD HE) as [Hq Hcarry].
    destruct (add_bits rh rd (256 <=? rl + re) HH HD) as [H7 _].
    rewrite Hq, H7. exact Hcarry.
  - rewrite Z.lor_spec, Z.land_spec, Bool.absorption_orb, (bit7 rh HH).
    unfold pair.
    destruct (Z.leb_spec 128 rh),
      (Z.leb_spec 65536 (256 * rh + rl + (256 * rh + rl)));
      try reflexivity; wrap_lia.
  - destruct (word_split rsp HSP) as (Hhi & Hlo & Hsp).
    destruct (dad_high rh rl (rsp / 256) (rsp mod 256) HH HL Hhi Hlo)
      as [Hq Hcarry].
    destruct (add_bits rh (rsp / 256) (256 <=? rl + rsp mod 256) HH Hhi)
      as [H7 _].
    rewrite Hsp in Hq, Hcarry. rewrite Hq, H7. exact Hcarry.
Qed.

Lemma dad_adds_witness :
  let s := boot some_draws [0x29] in
  wf s /\ In (0x29, fun s => pair (H s) (L s)) dads /\
  memrdr s (PC8 s) = 0x29 /\
  (let sum := pair (H s) (L s) + pair (H s) (L s) in
   let s' := step s in
   pair (H s') (L s') = sum mod 65536 /\
   flag C_FLAG (F s') = (65536 <=? sum) /\
   F s' .| C_FLAG = F s .| C_FLAG /\
   t s' = 10).
Proof.
  intros s.
  assert (Hwf : wf s)
    by (constructor; vm_compute; split; (discriminate || reflexivity)).
  assert (Hin : In (0x29, fun s => pair (H s) (L s)) dads)
    by (right; right; left; reflexivity).
  assert (Hop : memrdr s (PC8 s) = 0x29) by reflexivity.
  split; [exact Hwf | split; [exact Hin | split; [exact Hop | ]]].
  exact (dad_adds s 0x29 (fun s => pair (H s) (L s)) Hwf Hin Hop).
Defined.

Lemma incdec_family_witness :
  let s := boot some_draws [0x34] in
  memrdr s (PC8 s) = 0x34 /\
  incdec_form 0x34 = Some (false, 6) /\
  is_byte (operand 6 s) /\
  (let v := operand 6 s in
   let r := (v + 1) mod 256 in
   let s' := step s in
   operand 6 s' = r /\
   flags_are (F s') (sign r) (zero r) (v mod 16 =? 15) (parity r)
             (flag C_FLAG (F s))).
Proof.
  intros s.
  assert (Hop : memrdr s (PC8 s) = 0x34) by reflexivity.
  assert (Hform : incdec_form 0x34 = Some (false, 6)) by reflexivity.
  assert (Hv : is_byte (operand 6 s))
    by (vm_compute; split; (discriminate || reflexivity)).
  split; [exact Hop | split; [exact Hform | split; [exact Hv | ]]].
  exact (incdec_family s 0x34 false 6 Hop Hform Hv).
Defined.

(** X14. INX and DCX add and subtract 1 modulo 2^16 in BC, DE, HL or SP, so
    that 0xFFFF steps to 0 and back, in 5 T-states. *)
Theorem inx_dcx_step (s : machine) (inx dcx : Z) (rp : machine -> Z) :
  wf s ->
  In (inx, dcx, rp) inxs ->
  (memrdr s (PC8 s) = inx ->
   rp (step s) = (rp s + 1) mod 65536 /\ t (step s) = 5) /\
  (memrdr s (PC8 s) = dcx ->
   rp (step s) = (rp s - 1) mod 65536 /\ t (step s) = 5).
Proof.
  intros Hwf Hin.
  destruct Hwf as [HA HB HC HD HE HH HL HF HPC HSP]. split_machine s.
  cbn [A B C D E H L F PC8 SP8] in *.
  cbv [inxs In] in Hin.
  repeat (destruct Hin as [Hin | Hin]; [injection Hin as <- <- <- | ]);
    try contradiction.
  all: split; intros Hop; rewrite (step_op _ _ Hop); clear Hop; expose.
  all: rewrite ?high_byte, ?low_byte, ?word_idem.
  all: rewrite ?pair_bits by assumption.
  all: split; [ | reflexivity].
  all: first [reflexivity | apply pair_split, word_range].
Qed.

Lemma inx_dcx_step_witness :
  let s := boot some_draws [0x33] in
  wf s /\ In (0x33, 0x3b, SP8) inxs /\ memrdr s (PC8 s) = 0x33 /\
  SP8 (step s) = (SP8 s + 1) mod 65536 /\ t (step s) = 5.
Proof.
  intros s.
  assert (Hwf : wf s)
    by (constructor; vm_compute; split; (discriminate || reflexivity)).
  assert (Hin : In (0x33, 0x3b, SP8) inxs)
    by (right; right; right; left; reflexivity).
  assert (Hop : memrdr s (PC8 s) = 0x33) by reflexivity.
  split; [exact Hwf | split; [exact Hin | split; [exact Hop | ]]].
  exact (proj1 (inx_dcx_step s 0x33 0x3b SP8 Hwf Hin) Hop).
Defined.

(** ** Rotations and the carry flag *)

Lemma rotation_values_checked : all_below 256 rotation_values_ok = true.
Proof. vm_compute. reflexivity. Qed.

(* a turn with one of the opcodes that work on A and F alone *)
Lemma accumulator_turn (s : machine) (op : Z) :
  In op [0x07; 0x0f; 0x17; 0x1f; 0x27; 0x2f; 0x37; 0x3f] ->
  memrdr s (PC8 s) = op ->
  A (step s) = A (dispatch op (probe (A s) (F s))) /\
  F (step s) = F (dispatch op (probe (A s) (F s))) /\
  memrdr (step s) (PC8 (step s)) = memrdr s (PC8 s + 1).
Proof.
  intros Hin Hop. rewrite (step_op s op Hop). clear Hop.
  split_machine s. cbn [In] in Hin.
  repeat (destruct Hin as [<- | Hin]); try contradiction.
  all: cbv [probe]; expose; fetch_norm; repeat split; reflexivity.
Qed.

Lemma bit_of_bool (c : bool) : 0 <= Z.b2z c < Z.of_nat 2.
Proof. destruct c; simpl; lia. Qed.

Lemma byte_bit (c : bool) : byte (Z.b2z c) = Z.b2z c.
Proof. destruct c; reflexivity. Qed.

Lemma wrapped_bit (a : Z) :
  is_byte a ->
  ((a .& 128) >> 7) .& 1 = Z.b2z (128 <=? a) /\
  a .& 1 = Z.b2z (Z.odd a) /\
  a / 128 = Z.b2z (128 <=? a) /\ a mod 2 = Z.b2z (Z.odd a).
Proof.
  intros Ha. pose proof (all_bytes _ rotation_values_checked a Ha) as Hok.
  unfold rotation_values_ok in Hok.
  apply andb_true_iff in Hok. destruct Hok as [Hok _].
  apply andb_true_iff in Hok. destruct Hok as [Hok Hodd].
  apply andb_true_iff in Hok. destruct Hok as [Hok Hhigh].
  apply andb_true_iff in Hok. destruct Hok as [Hbit7 Hbit0].
  apply Z.eqb_eq in Hbit7. apply Z.eqb_eq in Hbit0.
  apply Bool.eqb_prop in Hodd. apply Bool.eqb_prop in Hhigh.
  rewrite Hbit7, Hbit0, Hodd, Hhigh. unfold is_byte in Ha.
  assert (H7 : a / 128 = 0 \/ a / 128 = 1) by (Z.div_mod_to_equations; lia).
  assert (H0 : a mod 2 = 0 \/ a mod 2 = 1) by (Z.div_mod_to_equations; lia).
  destruct H7 as [-> | ->]; destruct H0 as [-> | ->]; repeat split.
Qed.

Lemma rotated (a : Z) (c : bool) :
  is_byte a ->
  byte ((a << 1) .| Z.b2z c) = (2 * a) mod 256 + Z.b2z c /\
  byte ((a >> 1) .| (Z.b2z c << 7)) = a / 2 + 128 * Z.b2z c.
Proof.
  intros Ha. pose proof (all_bytes _ rotation_values_checked a Ha) as Hok.
  unfold rotation_values_ok in Hok.
  apply andb_true_iff in Hok. destruct Hok as [_ Hall].
  pose proof (all_below_spec 2 _ Hall (Z.b2z c) (bit_of_bool c)) as Hcell.
  cbv beta in Hcell. apply andb_true_iff in Hcell.
  destruct Hcell as [Hl Hr]. apply Z.eqb_eq in Hl. apply Z.eqb_eq in Hr.
  split; assumption.
Qed.

(* what a rotation makes of an accumulator and a flag byte *)
Lemma rotation_values (a f : Z) (op : Z) (fa : Z -> Z -> Z) (fc : Z -> bool) :
  In (op, fa, fc) rotations ->
  is_byte a -> is_byte f ->
  let s' := dispatch op (probe a f) in
  (A s' = fa a (Z.b2z (flag C_FLAG f)) /\
   flag C_FLAG (F s') = fc a /\
   F s' .| C_FLAG = f .| C_FLAG) /\
  is_byte (A s') /\ is_byte (F s').
Proof.
  intros Hin Ha Hf.
  destruct (wrapped_bit a Ha) as (Hbit7 & Hbit0 & Hhigh & Hodd).
  cbv [rotations In] in Hin.
  repeat (destruct Hin as [Hin | Hin]; [injection Hin as <- <- <- | ]);
    try contradiction.
  all: cbv [probe]; expose; (split; [ | split; apply byte_range]).
  all: rewrite ?carry_in, ?Hbit7, ?Hbit0, ?byte_bit.
  - destruct (carry_edit f (128 <=? a) Hf) as [Hkeep Hc].
    destruct (rotated a (128 <=? a) Ha) as [Hl _].
    rewrite Hhigh. repeat split; assumption.
  - destruct (carry_edit f (Z.odd a) Hf) as [Hkeep Hc].
    destruct (rotated a (Z.odd a) Ha) as [_ Hr].
    rewrite Hodd. repeat split; assumption.
  - destruct (carry_edit f (128 <=? a) Hf) as [Hkeep Hc].
    destruct (rotated a (flag C_FLAG f) Ha) as [Hl _].
    repeat split; assumption.
  - destruct (carry_edit f (Z.odd a) Hf) as [Hkeep Hc].
    destruct (rotated a (flag C_FLAG f) Ha) as [_ Hr].
    repeat split; assumption.
Qed.

Lemma rotation_opcode (op : Z) (fa : Z -> Z -> Z) (fc : Z -> bool) :
  In (op, fa, fc) rotations ->
  In op [0x07; 0x0f; 0x17; 0x1f; 0x27; 0x2f; 0x37; 0x3f].
Proof.
  intros Hin. cbv [rotations In] in Hin. cbn [In].
  repeat (destruct Hin as [Hin | Hin]; [injection Hin as <- _ _ | ]);
    try contradiction; auto 8.
Qed.

(* one turn of a rotation, with the next opcode it leaves to be fetched *)
Lemma rotation_turn (s : machine) (op : Z) (fa : Z -> Z -> Z)
      (fc : Z -> bool) :
  In (op, fa, fc) rotations ->
  is_byte (A s) -> is_byte (F s) ->
  memrdr s (PC8 s) = op ->
  (A (step s) = fa (A s) (Z.b2z (flag C_FLAG (F s))) /\
   flag C_FLAG (F (step s)) = fc (A s) /\
   F (step s) .| C_FLAG = F s .| C_FLAG) /\
  (is_byte (A (step s)) /\ is_byte (F (step s))) /\
  memrdr (step s) (PC8 (step s)) = memrdr s (PC8 s + 1).
Proof.
  intros Hin Ha Hf Hop.
  destruct (accumulator_turn s op (rotation_opcode op fa fc Hin) Hop)
    as (HA & HF & Hnext).
  rewrite HA, HF.
  destruct (rotation_values (A s) (F s) op fa fc Hin Ha Hf) as [Hv Hr].
  split; [exact Hv | split; [exact Hr | exact Hnext]].
Qed.

(** X15. The four rotations of the accumulator: RLC and RRC rotate the
    byte and copy the bit that wraps around into C; RAL and RAR rotate the
    nine bits of accumulator and carry.  The other flags stay as they
    were. *)
Theorem rotation_family (s : machine) (op : Z) (fa : Z -> Z -> Z)
        (fc : Z -> bool) :
  In (op, fa, fc) rotations ->
  is_byte (A s) -> is_byte (F s) ->
  memrdr s (PC8 s) = op ->
  A (step s) = fa (A s) (Z.b2z (flag C_FLAG (F s))) /\
  flag C_FLAG (F (step s)) = fc (A s) /\
  F (step s) .| C_FLAG = F s .| C_FLAG.
Proof.
  intros Hin Ha Hf Hop.
  exact (proj1 (rotation_turn s op fa fc Hin Ha Hf Hop)).
Qed.

Lemma rotation_family_witness :
  let s := boot some_draws [0x17] in
  In (0x17, fun a c => (2 * a) mod 256 + c, fun a => 128 <=? a) rotations /\
  is_byte (A s) /\ is_byte (F s) /\ memrdr s (PC8 s) = 0x17 /\
  A (step s) = (2 * A s) mod 256 + Z.b2z (flag C_FLAG (F s)) /\
  flag C_FLAG (F (step s)) = (128 <=? A s) /\
  F (step s) .| C_FLAG = F s .| C_FLAG.
Proof.
  intros s.
  assert (Hin : In (0x17, fun a c => (2 * a) mod 256 + c,
                    fun a => 128 <=? a) rotations)
    by (right; right; left; reflexivity).
  assert (Ha : is_byte (A s))
    by (vm_compute; split; (discriminate || reflexivity)).
  assert (Hf : is_byte (F s))
    by (vm_compute; split; (discriminate || reflexivity)).
  assert (Hop : memrdr s (PC8 s) = 0x17) by reflexivity.
  split; [exact Hin | split; [exact Ha | split; [exact Hf | ]]].
  split; [exact Hop | ].
  exact (rotation_family s 0x17 _ _ Hin Ha Hf Hop).
Defined.

(* two flag bytes that agree on the carry and on the other bits *)
Lemma carry_decides (x y : Z) :
  x .| C_FLAG = y .| C_FLAG -> flag C_FLAG x = flag C_FLAG y -> x = y.
Proof.
  intros Hrest Hc. rewrite !flag_C in Hc.
  apply Z.bits_inj'. intros n Hn.
  destruct (Z.eq_dec n 0) as [-> | Hpos]; [exact Hc | ].
  assert (Hbit : Z.testbit (x .| C_FLAG) n = Z.testbit (y .| C_FLAG) n)
    by (rewrite Hrest; reflexivity).
  rewrite !Z.lor_spec in Hbit. change C_FLAG with (2 ^ 0) in Hbit.
  rewrite Z.pow2_bits_false in Hbit by lia.
  rewrite !orb_false_r in Hbit. exact Hbit.
Qed.

Lemma bool_of_bit (b c : bool) : Z.b2z b = Z.b2z c -> b = c.
Proof. destruct b, c; simpl; intros Hbc; (reflexivity || discriminate). Qed.

(** X16. A rotation followed by the opposite rotation restores the
    accumulator and every flag but C; for RAL with RAR, in either order,
    the carry is part of the rotated value and the whole flag byte is
    restored. *)
Theorem rotation_round_trip (s : machine) (there back : Z) (through : bool) :
  In (there, back, through) rotation_pairs ->
  is_byte (A s) -> is_byte (F s) ->
  loaded s (PC8 s) [there; back] ->
  let s' := step (step s) in
  A s' = A s /\ F s' .| C_FLAG = F s .| C_FLAG /\
  (through = true -> F s' = F s).
Proof.
  intros Hin Ha Hf Hl. cbv zeta. cbn [loaded] in Hl.
  destruct Hl as (Hthere & Hback & _).
  destruct (wrapped_bit (A s) Ha) as (_ & _ & Hhigh & Hodd).
  assert (Hc : 0 <= Z.b2z (flag C_FLAG (F s)) < Z.of_nat 2)
    by apply bit_of_bool.
  cbv [rotation_pairs In] in Hin.
  repeat (destruct Hin as [Hin | Hin]; [injection Hin as <- <- <- | ]);
    try contradiction.
  all: match type of Hthere with
       | _ = ?op =>
           edestruct (rotation_turn s op)
             as ((HA1 & HC1 & HF1) & (Ha1 & Hf1) & Hnext);
           [cbv [rotations In]; auto 6 | exact Ha | exact Hf | exact Hthere | ]
       end.
  all: rewrite Hback in Hnext.
  all: match type of Hnext with
       | _ = ?op =>
           edestruct (rotation_turn (step s) op)
             as ((HA2 & HC2 & HF2) & _ & _);
           [cbv [rotations In]; auto 6 | exact Ha1 | exact Hf1 | exact Hnext | ]
       end.
  all: destruct (wrapped_bit (A (step s)) Ha1) as (_ & _ & Hhigh1 & Hodd1).
  all: rewrite HF1 in HF2; cbv beta in *.
  all: unfold is_byte in Ha; cbn [Z.of_nat Pos.of_succ_nat Pos.succ] in Hc.
  all: split; [ | split; [exact HF2 | ]].
  all: try (intros Hthrough; discriminate Hthrough).
  all: try (intros _; apply carry_decides; [exact HF2 | ];
            rewrite HC2; apply bool_of_bit; rewrite <- ?Hhigh1, <- ?Hodd1).
  all: rewrite ?HC1 in HA2; rewrite ?HA2, <- ?Hhigh, <- ?Hodd; rewrite HA1.
  all: rewrite <- ?Hhigh, <- ?Hodd.
  all: Z.div_mod_to_equations; lia.
Qed.

Lemma rotation_round_trip_witness :
  let s := boot some_draws [0x17; 0x1f] in
  In (0x17, 0x1f, true) rotation_pairs /\
  is_byte (A s) /\ is_byte (F s) /\ loaded s (PC8 s) [0x17; 0x1f] /\
  A (step (step s)) = A s /\ F (step (step s)) = F s.
Proof.
  intros s.
  assert (Hin : In (0x17, 0x1f, true) rotation_pairs)
    by (right; right; left; reflexivity).
  assert (Ha : is_byte (A s))
    by (vm_compute; split; (discriminate || reflexivity)).
  assert (Hf : is_byte (F s))
    by (vm_compute; split; (discriminate || reflexivity)).
  assert (Hl : loaded s (PC8 s) [0x17; 0x1f])
    by (cbn [loaded]; repeat split; reflexivity).
  split; [exact Hin | split; [exact Ha | split; [exact Hf | ]]].
  split; [exact Hl | ].
  split.
  - exact (proj1 (rotation_round_trip s 0x17 0x1f true Hin Ha Hf Hl)).
  - exact (proj2 (proj2 (rotation_round_trip s 0x17 0x1f true Hin Ha Hf Hl))
                 eq_refl).
Defined.

(** ** Jumps, calls and returns *)

Lemma byte_mask (f m : Z) : is_byte m -> byte (f .& m) = f .& m.
Proof.
  intros Hm. apply Z.bits_inj'. intros n Hn. unfold byte.
  destruct (Z.ltb_spec n 8).
  - apply Z.mod_pow2_bits_low. assumption.
  - rewrite Z.mod_pow2_bits_high by lia. rewrite Z.land_spec.
    rewrite (high_bits_clear m n Hm) by assumption.
    symmetry. apply andb_false_r.
Qed.

(* the tests of the conditional opcodes *)
Lemma test_set (f m : Z) : is_byte m -> c_true (byte (f .& m)) = flag m f.
Proof. intros Hm. rewrite (byte_mask f m Hm). reflexivity. Qed.

Lemma test_clear (f m : Z) :
  c_true (byte (c_not (f .& m))) = negb (flag m f).
Proof. unfold c_true, c_not, flag. destruct (f .& m =? 0); reflexivity. Qed.

(* the address that two bytes read low byte first make up *)
Lemma address_of (lo hi : Z) :
  is_byte lo -> is_byte hi -> word (word lo .| (hi << 8)) = pair hi lo.
Proof.
  intros Hlo Hhi. rewrite (word_small lo) by (unfold is_byte, is_word in *; lia).
  rewrite Z.lor_comm, (pair_bits hi lo Hlo).
  apply word_small. unfold pair, is_byte, is_word in *. lia.
Qed.

Lemma address_read (m : Z -> Z) (p : Z) :
  word (word (byte (m (word (p + 1)))) .| (byte (m (word (p + 1 + 1))) << 8)) =
  pair (byte (m (word (p + 2)))) (byte (m (word (p + 1)))).
Proof.
  rewrite address_of by apply byte_range.
  replace (p + 1 + 1) with (p + 2) by lia. reflexivity.
Qed.

(* evaluate the closed tests of a form at a known opcode *)
Ltac decide_tests Hx :=
  repeat match type of Hx with
         | context [if ?c then _ else _] =>
             let v := eval vm_compute in c in
             change c with v in Hx; cbv iota in Hx
         end;
  repeat match type of Hx with
         | context [condition ?k _] =>
             lazymatch k with
             | Z0 => fail | Zpos _ => fail
             | _ => let v := eval vm_compute in k in
                    replace k with v in Hx by reflexivity
             end
         end;
  cbv beta iota delta [condition] in Hx.

Ltac flag_tests :=
  rewrite ?test_clear;
  rewrite ?test_set by (vm_compute; split; (discriminate || reflexivity)).

Ltac conditional_cases Hx :=
  repeat match type of Hx with
         | (if ?c then _ else _) = _ => destruct c eqn:?
         end; try discriminate;
  repeat match goal with
         | Hc : _ && _ = true |- _ => apply andb_true_iff in Hc; destruct Hc
         | Hc : _ || _ = true |- _ => apply orb_true_iff in Hc
         | Hc : (_ <=? _) = true |- _ => apply Z.leb_le in Hc
         | Hc : (_ =? _) = true |- _ => apply Z.eqb_eq in Hc
         end;
  cbn [In]; Z.div_mod_to_equations; lia.

Lemma jump_form_cases (op : Z) (s : machine) (taken : bool) :
  jump_form op s = Some taken ->
  In op [0xc3; 0xcb; 0xc2; 0xca; 0xd2; 0xda; 0xe2; 0xea; 0xf2; 0xfa].
Proof. unfold jump_form, between. intros Hform. conditional_cases Hform. Qed.

Lemma call_form_cases (op : Z) (s : machine) (taken : bool) :
  call_form op s = Some taken ->
  In op [0xcd; 0xdd; 0xed; 0xfd; 0xc4; 0xcc; 0xd4; 0xdc; 0xe4; 0xec; 0xf4;
         0xfc].
Proof.
  unfold call_form, between, member. cbn [existsb]. intros Hform.
  conditional_cases Hform.
Qed.

Lemma ret_form_cases (op : Z) (s : machine) (taken : bool) :
  ret_form op s = Some taken ->
  In op [0xc9; 0xd9; 0xc0; 0xc8; 0xd0; 0xd8; 0xe0; 0xe8; 0xf0; 0xf8].
Proof. unfold ret_form, between. intros Hform. conditional_cases Hform. Qed.

Lemma high_of_word (x : Z) : byte (word x >> 8) = word x / 256.
Proof. rewrite high_byte. pose proof (word_range x). wrap_lia. Qed.

Lemma call_turn (s : machine) (op : Z) (taken : bool) :
  memrdr s (PC8 s) = op ->
  call_form op s = Some taken ->
  let s' := step s in
  let ret := word (PC8 s + 3) in
  registers s' = registers s /\
  if taken
  then PC8 s' = immediate16 s /\ SP8 s' = word (SP8 s - 2) /\ t s' = 17 /\
       memrdr s' (SP8 s - 1) = ret / 256 /\
       memrdr s' (SP8 s - 2) = ret mod 256 /\
       (forall a, a <> word (SP8 s - 1) -> a <> word (SP8 s - 2) ->
                  mem s' a = mem s a)
  else PC8 s' = ret /\ SP8 s' = SP8 s /\ t s' = 11 /\ mem s' = mem s.
Proof.
  intros Hop Hform. cbv zeta. rewrite (step_op s op Hop). clear Hop.
  pose proof (call_form_cases op s taken Hform) as Hin.
  split_machine s. cbn [In] in Hin.
  repeat (destruct Hin as [<- | Hin]); try contradiction.
  all: unfold call_form in Hform; decide_tests Hform.
  all: injection Hform as <-.
  all: unfold immediate16, registers; expose; fetch_norm; flag_tests.
  all: rewrite ?address_read.
  all: repeat match goal with
              | |- context [if negb ?b then _ else _] => destruct b; cbn [negb]
              | |- context [if flag ?m ?f then _ else _] => destruct (flag m f)
              end.
  all: cbv iota; rewrite <- ?Z.add_assoc; change (1 + (1 + 1)) with 3.
  all: rewrite ?word_sub_l, ?word_idem, ?byte_idem.
  all: replace (rsp - 1 - 1) with (rsp - 2) by lia.
  all: split; [reflexivity | ].
  all: repeat split; try reflexivity.
  all: try (intros a Hhi Hlo).
  all: addresses; try reflexivity; try contradiction.
  all: rewrite byte_idem; (apply high_of_word || reflexivity).
Qed.

Lemma ret_turn (s : machine) (op : Z) (taken : bool) :
  memrdr s (PC8 s) = op ->
  ret_form op s = Some taken ->
  let s' := step s in
  registers s' = registers s /\ mem s' = mem s /\
  if taken
  then PC8 s' = pair (memrdr s (SP8 s + 1)) (memrdr s (SP8 s)) /\
       SP8 s' = word (SP8 s + 2) /\
       t s' = (if (op =? 0xc9) || (op =? 0xd9) then 10 else 11)
  else PC8 s' = word (PC8 s + 1) /\ SP8 s' = SP8 s /\ t s' = 5.
Proof.
  intros Hop Hform. cbv zeta. rewrite (step_op s op Hop). clear Hop.
  pose proof (ret_form_cases op s taken Hform) as Hin.
  split_machine s. cbn [In] in Hin.
  repeat (destruct Hin as [<- | Hin]); try contradiction.
  all: unfold ret_form in Hform; decide_tests Hform.
  all: injection Hform as <-.
  all: unfold registers; expose; fetch_norm; flag_tests.
  all: repeat match goal with
              | |- context [if negb ?b then _ else _] => destruct b; cbn [negb]
              | |- context [if flag ?m ?f then _ else _] => destruct (flag m f)
              end.
  all: cbv iota; expose; fetch_norm.
  all: rewrite ?address_of by apply byte_range.
  all: rewrite <- ?Z.add_assoc; change (1 + 1) with 2.
  all: repeat split; reflexivity.
Qed.

Lemma is_rst_cases (op : Z) :
  is_rst op = true ->
  In op [0xc7; 0xcf; 0xd7; 0xdf; 0xe7; 0xef; 0xf7; 0xff].
Proof.
  unfold is_rst, between. intros Hrst.
  repeat match goal with
         | Hc : _ && _ = true |- _ => apply andb_true_iff in Hc; destruct Hc
         | Hc : (_ <=? _) = true |- _ => apply Z.leb_le in Hc
         | Hc : (_ =? _) = true |- _ => apply Z.eqb_eq in Hc
         end.
  cbn [In]. Z.div_mod_to_equations. lia.
Qed.

Lemma immediate16_word (s : machine) : is_word (immediate16 s).
Proof.
  unfold immediate16, pair.
  pose proof (memrdr_byte s (PC8 s + 2)). pose proof (memrdr_byte s (PC8 s + 1)).
  unfold is_byte, is_word in *. lia.
Qed.

Lemma memrdr_next (s : machine) (a k : Z) :
  memrdr s (word a + k) = memrdr s (a + k).
Proof. unfold memrdr. rewrite word_add_l. reflexivity. Qed.

Lemma memrdr_word (s : machine) (a : Z) : memrdr s (word a) = memrdr s a.
Proof. unfold memrdr. rewrite word_idem. reflexivity. Qed.

(** X17. JMP and the eight conditional jumps: bits 3 to 5 of a conditional
    opcode select the flag and the value it is tested for; a jump taken
    loads PC with the two bytes behind the opcode, low byte first, one not
    taken steps over them.  Either way the instruction takes 10 T-states
    and leaves registers, flags, SP and memory as they were. *)
Theorem jump_family (s : machine) (op : Z) (taken : bool) :
  memrdr s (PC8 s) = op ->
  jump_form op s = Some taken ->
  let s' := step s in
  PC8 s' = (if taken then immediate16 s else word (PC8 s + 3)) /\
  t s' = 10 /\
  registers s' = registers s /\ SP8 s' = SP8 s /\ mem s' = mem s.
Proof.
  intros Hop Hform. cbv zeta. rewrite (step_op s op Hop). clear Hop.
  pose proof (jump_form_cases op s taken Hform) as Hin.
  split_machine s. cbn [In] in Hin.
  repeat (destruct Hin as [<- | Hin]); try contradiction.
  all: unfold jump_form in Hform; decide_tests Hform.
  all: injection Hform as <-.
  all: unfold immediate16, registers; expose; fetch_norm; flag_tests.
  all: rewrite ?address_read.
  all: repeat match goal with
              | |- context [if ?b then _ else _] => destruct b
              end.
  all: repeat split; try reflexivity.
  all: rewrite <- ?Z.add_assoc; reflexivity.
Qed.

Lemma jump_family_witness :
  let s := boot some_draws [0xc2; 0x34; 0x12] in
  memrdr s (PC8 s) = 0xc2 /\ jump_form 0xc2 s = Some true /\
  PC8 (step s) = immediate16 s.
Proof.
  intros s.
  assert (Hop : memrdr s (PC8 s) = 0xc2) by reflexivity.
  assert (Hform : jump_form 0xc2 s = Some true) by reflexivity.
  split; [exact Hop | split; [exact Hform | ]].
  exact (proj1 (jump_family s 0xc2 true Hop Hform)).
Defined.

(** X18. CALL and the eight conditional calls: a call taken pushes the
    address of the next instruction, high byte at SP-1 and low byte at
    SP-2, lowers SP by two modulo 2^16, loads PC with the operand and takes
    17 T-states; a call not taken steps over the operand in 11 T-states and
    writes nothing.  Registers and flags stay as they were. *)
Theorem call_family (s : machine) (op : Z) (taken : bool) :
  memrdr s (PC8 s) = op ->
  call_form op s = Some taken ->
  let s' := step s in
  let ret := word (PC8 s + 3) in
  registers s' = registers s /\
  if taken
  then PC8 s' = immediate16 s /\ SP8 s' = word (SP8 s - 2) /\ t s' = 17 /\
       memrdr s' (SP8 s - 1) = ret / 256 /\
       memrdr s' (SP8 s - 2) = ret mod 256 /\
       (forall a, a <> word (SP8 s - 1) -> a <> word (SP8 s - 2) ->
                  mem s' a = mem s a)
  else PC8 s' = ret /\ SP8 s' = SP8 s /\ t s' = 11 /\ mem s' = mem s.
Proof. exact (call_turn s op taken). Qed.

Lemma call_family_witness :
  let s := boot some_draws [0xcc; 0x34; 0x12] in
  memrdr s (PC8 s) = 0xcc /\ call_form 0xcc s = Some false /\
  PC8 (step s) = word (PC8 s + 3) /\ SP8 (step s) = SP8 s /\
  t (step s) = 11 /\ mem (step s) = mem s.
Proof.
  intros s.
  assert (Hop : memrdr s (PC8 s) = 0xcc) by reflexivity.
  assert (Hform : call_form 0xcc s = Some false) by reflexivity.
  split; [exact Hop | split; [exact Hform | ]].
  exact (proj2 (call_family s 0xcc false Hop Hform)).
Defined.

(** X19. RET and the eight conditional returns: a return taken loads PC
    with the two bytes at SP, low byte first, and raises SP by two modulo
    2^16, in 10 T-states for RET and 11 for a conditional return; a return
    not taken takes 5 T-states.  Registers, flags and memory stay as they
    were. *)
Theorem return_family (s : machine) (op : Z) (taken : bool) :
  memrdr s (PC8 s) = op ->
  ret_form op s = Some taken ->
  let s' := step s in
  registers s' = registers s /\ mem s' = mem s /\
  if taken
  then PC8 s' = pair (memrdr s (SP8 s + 1)) (memrdr s (SP8 s)) /\
       SP8 s' = word (SP8 s + 2) /\
       t s' = (if (op =? 0xc9) || (op =? 0xd9) then 10 else 11)
  else PC8 s' = word (PC8 s + 1) /\ SP8 s' = SP8 s /\ t s' = 5.
Proof. exact (ret_turn s op taken). Qed.

Lemma return_family_witness :
  let s := boot some_draws [0xc0] in
  memrdr s (PC8 s) = 0xc0 /\ ret_form 0xc0 s = Some true /\
  PC8 (step s) = pair (memrdr s (SP8 s + 1)) (memrdr s (SP8 s)) /\
  SP8 (step s) = word (SP8 s + 2) /\ t (step s) = 11.
Proof.
  intros s.
  assert (Hop : memrdr s (PC8 s) = 0xc0) by reflexivity.
  assert (Hform : ret_form 0xc0 s = Some true) by reflexivity.
  split; [exact Hop | split; [exact Hform | ]].
  exact (proj2 (proj2 (return_family s 0xc0 true Hop Hform))).
Defined.

(** X20. RST n pushes the address of the next instruction like a call and
    loads PC with 8 n, in 11 T-states. *)
Theorem restart_family (s : machine) (op : Z) :
  memrdr s (PC8 s) = op ->
  is_rst op = true ->
  let s' := step s in
  let ret := word (PC8 s + 1) in
  PC8 s' = 8 * ((op - 0xc0) / 8) /\ SP8 s' = word (SP8 s - 2) /\
  t s' = 11 /\ registers s' = registers s /\
  memrdr s' (SP8 s - 1) = ret / 256 /\
  memrdr s' (SP8 s - 2) = ret mod 256 /\
  (forall a, a <> word (SP8 s - 1) -> a <> word (SP8 s - 2) ->
             mem s' a = mem s a).
Proof.
  intros Hop Hrst. cbv zeta. rewrite (step_op s op Hop). clear Hop.
  pose proof (is_rst_cases op Hrst) as Hin. clear Hrst.
  split_machine s. cbn [In] in Hin.
  repeat (destruct Hin as [<- | Hin]); try contradiction.
  all: unfold registers; expose; fetch_norm.
  all: rewrite ?word_sub_l, ?word_idem, ?byte_idem.
  all: replace (rsp - 1 - 1) with (rsp - 2) by lia.
  all: repeat split; try reflexivity.
  all: try (intros a Hhi Hlo).
  all: addresses; try reflexivity; try contradiction.
  all: rewrite byte_idem; (apply high_of_word || reflexivity).
Qed.

Lemma restart_family_witness :
  let s := boot some_draws [0xd7] in
  memrdr s (PC8 s) = 0xd7 /\ is_rst 0xd7 = true /\
  PC8 (step s) = 8 * ((0xd7 - 0xc0) / 8) /\
  SP8 (step s) = word (SP8 s - 2) /\ t (step s) = 11.
Proof.
  intros s.
  assert (Hop : memrdr s (PC8 s) = 0xd7) by reflexivity.
  assert (Hrst : is_rst 0xd7 = true) by reflexivity.
  split; [exact Hop | split; [exact Hrst | ]].
  split; [exact (proj1 (restart_family s 0xd7 Hop Hrst)) | ].
  split; [exact (proj1 (proj2 (restart_family s 0xd7 Hop Hrst))) | ].
  exact (proj1 (proj2 (proj2 (restart_family s 0xd7 Hop Hrst)))).
Defined.

(** X21. A call that is taken, to an address that holds a return that is
    taken, comes back: after the two instructions PC is behind the call,
    and SP, the registers and the flags are as before.  The return opcode
    must not lie in the two stack bytes the call writes. *)
Theorem call_return_round_trip (s : machine) (call ret : Z) :
  call_form call s = Some true ->
  ret_form ret s = Some true ->
  is_word (SP8 s) ->
  memrdr s (PC8 s) = call ->
  memrdr s (immediate16 s) = ret ->
  immediate16 s <> word (SP8 s - 1) ->
  immediate16 s <> word (SP8 s - 2) ->
  let s' := step (step s) in
  PC8 s' = word (PC8 s + 3) /\ SP8 s' = SP8 s /\
  registers s' = registers s.
Proof.
  intros Hcall Hret Hsp Hop Htarget Hhi Hlo. cbv zeta.
  pose proof (call_turn s call true Hop Hcall) as Hturn. cbv zeta iota in Hturn.
  destruct Hturn as (Hregs & HPC & HSP & _ & Hpushed_hi & Hpushed_lo & Hmem).
  pose proof (word_small _ (immediate16_word s)) as Hword.
  assert (Hop1 : memrdr (step s) (PC8 (step s)) = ret).
  { rewrite HPC. unfold memrdr. rewrite Hmem by (rewrite Hword; assumption).
    exact Htarget. }
  assert (Hret1 : ret_form ret (step s) = Some true).
  { assert (HF : F (step s) = F s)
      by (unfold registers in Hregs; congruence).
    unfold ret_form in *. rewrite HF. exact Hret. }
  pose proof (ret_turn (step s) ret true Hop1 Hret1) as Hback.
  cbv zeta iota in Hback.
  destruct Hback as (Hregs2 & _ & HPC2 & HSP2 & _).
  split; [ | split].
  - rewrite HPC2, HSP, memrdr_next, memrdr_word.
    replace (SP8 s - 2 + 1) with (SP8 s - 1) by lia.
    rewrite Hpushed_hi, Hpushed_lo.
    apply (word_split _ (word_range (PC8 s + 3))).
  - rewrite HSP2, HSP, word_add_l.
    replace (SP8 s - 2 + 2) with (SP8 s) by lia. apply word_small, Hsp.
  - rewrite Hregs2. exact Hregs.
Qed.

Lemma call_return_round_trip_witness :
  let s := boot some_draws [0xcd; 0x04; 0x00; 0x76; 0xc9] in
  call_form 0xcd s = Some true /\ ret_form 0xc9 s = Some true /\
  is_word (SP8 s) /\ memrdr s (PC8 s) = 0xcd /\
  memrdr s (immediate16 s) = 0xc9 /\
  immediate16 s <> word (SP8 s - 1) /\ immediate16 s <> word (SP8 s - 2) /\
  PC8 (step (step s)) = word (PC8 s + 3) /\ SP8 (step (step s)) = SP8 s /\
  registers (step (step s)) = registers s.
Proof.
  intros s.
  assert (Hcall : call_form 0xcd s = Some true) by reflexivity.
  assert (Hret : ret_form 0xc9 s = Some true) by reflexivity.
  assert (Hsp : is_word (SP8 s))
    by (vm_compute; split; (discriminate || reflexivity)).
  assert (Hop : memrdr s (PC8 s) = 0xcd) by reflexivity.
  assert (Htarget : memrdr s (immediate16 s) = 0xc9) by reflexivity.
  assert (Hhi : immediate16 s <> word (SP8 s - 1))
    by (vm_compute; discriminate).
  assert (Hlo : immediate16 s <> word (SP8 s - 2))
    by (vm_compute; discriminate).
  split; [exact Hcall | split; [exact Hret | split; [exact Hsp | ]]].
  split; [exact Hop | split; [exact Htarget | ]].
  split; [exact Hhi | split; [exact Hlo | ]].
  exact (call_return_round_trip s 0xcd 0xc9 Hcall Hret Hsp Hop Htarget
                                Hhi Hlo).
Defined.

(** ** Undocumented opcodes *)

(** C8. For every state and memory, an undocumented opcode runs the very
    case of its documented counterpart, so that the turn of the loop in
    which it is fetched makes the same transition and charges the same
    T-states, and this transition is the documented one.  0x08, 0x10,
    0x18, 0x20, 0x28, 0x30, 0x38 step PC over the opcode in 4 T-states and
    change nothing else, as NOP does.  0xCB loads PC with the two bytes
    behind the opcode in 10 T-states, as JMP does.  0xD9 loads PC with the
    two bytes at SP and raises SP by two in 10 T-states, as RET does.
    0xDD, 0xED and 0xFD push the address behind their operand, high byte
    at SP-1 and low byte at SP-2, lower SP by two and load PC with the
    operand in 17 T-states, as CALL does.  Registers, flags, IFF, [State]
    and the ports are left alone by all of them, and memory by all but the
    calls. *)
Theorem undocumented_aliases (s : machine) (alias doc : Z) :
  In (alias, doc) aliases ->
  (dispatch alias s = dispatch doc s /\
   t (dispatch alias s) = t (dispatch doc s) /\
   turn_with alias s = turn_with doc s /\
   (memrdr s (PC8 s) = alias -> step s = turn_with doc s)) /\
  (memrdr s (PC8 s) = alias ->
   let s' := step s in
   let ret := word (PC8 s + 3) in
   (registers s' = registers s /\ IFF s' = IFF s /\ State s' = State s /\
    inp s' = inp s /\ outp s' = outp s /\
    tstates s' = ulong (tstates s + t s')) /\
   (doc = 0x00 ->
    PC8 s' = word (PC8 s + 1) /\ SP8 s' = SP8 s /\ t s' = 4 /\
    mem s' = mem s) /\
   (doc = 0xc3 ->
    PC8 s' = immediate16 s /\ SP8 s' = SP8 s /\ t s' = 10 /\
    mem s' = mem s) /\
   (doc = 0xc9 ->
    PC8 s' = pair (memrdr s (SP8 s + 1)) (memrdr s (SP8 s)) /\
    SP8 s' = word (SP8 s + 2) /\ t s' = 10 /\ mem s' = mem s) /\
   (doc = 0xcd ->
    PC8 s' = immediate16 s /\ SP8 s' = word (SP8 s - 2) /\ t s' = 17 /\
    memrdr s' (SP8 s - 1) = ret / 256 /\
    memrdr s' (SP8 s - 2) = ret mod 256 /\
    (forall a, a <> word (SP8 s - 1) -> a <> word (SP8 s - 2) ->
               mem s' a = mem s a))).
Proof.
  intros Hin. cbv [aliases In] in Hin.
  repeat (destruct Hin as [Hin | Hin]; [injection Hin as <- <- | ]);
    try contradiction.
  all: split;
    [ repeat split; try (intros Hop; rewrite (step_op s _ Hop));
      cbv beta iota zeta delta [dispatch turn_with]; reflexivity | ].
  all: intros Hop; cbv zeta; rewrite (step_op s _ Hop); clear Hop.
  all: split_machine s; unfold immediate16, registers; expose; fetch_norm.
  all: rewrite ?address_read; rewrite ?address_of by apply byte_range.
  all: rewrite <- ?Z.add_assoc; change (1 + (1 + 1)) with 3;
    change (1 + 1) with 2.
  all: rewrite ?word_sub_l, ?word_idem, ?byte_idem.
  all: replace (rsp - 1 - 1) with (rsp - 2) by lia.
  all: split; [repeat split | ].
  all: split; [ | split; [ | split]]; intros Hdoc;
    try discriminate Hdoc; clear Hdoc.
  all: repeat split; try reflexivity.
  all: try (intros a Hhi Hlo).
  all: addresses; try reflexivity; try contradiction.
  all: rewrite byte_idem; (apply high_of_word || reflexivity).
Qed.

Lemma undocumented_aliases_witness :
  let s := boot some_draws [0xdd; 0x34; 0x12] in
  In (0xdd, 0xcd) aliases /\ memrdr s (PC8 s) = 0xdd /\
  step s = turn_with 0xcd s /\
  PC8 (step s) = immediate16 s /\ SP8 (step s) = word (SP8 s - 2) /\
  t (step s) = 17 /\
  memrdr (step s) (SP8 s - 1) = word (PC8 s + 3) / 256 /\
  memrdr (step s) (SP8 s - 2) = word (PC8 s + 3) mod 256 /\
  (forall a, a <> word (SP8 s - 1) -> a <> word (SP8 s - 2) ->
             mem (step s) a = mem s a).
Proof.
  intros s.
  assert (Hin : In (0xdd, 0xcd) aliases) by (cbv [aliases In]; auto 12).
  assert (Hop : memrdr s (PC8 s) = 0xdd) by reflexivity.
  split; [exact Hin | split; [exact Hop | ]].
  split.
  - exact (proj2 (proj2 (proj2 (proj1 (undocumented_aliases s 0xdd 0xcd Hin))))
                 Hop).
  - exact (proj2 (proj2 (proj2 (proj2
             (proj2 (undocumented_aliases s 0xdd 0xcd Hin) Hop))))
           eq_refl).
Defined.

(** ** Moves *)

Lemma move_form_cases (op : Z) (s : machine) (d v : Z) :
  move_form op s = Some (d, v) ->
  (0x40 <= op <= 0x7f /\ op <> 0x76) \/
  In op [0x06; 0x0e; 0x16; 0x1e; 0x26; 0x2e; 0x36; 0x3e].
Proof.
  unfold move_form, between. intros Hform.
  repeat match type of Hform with
         | (if ?c then _ else _) = _ => destruct c eqn:?
         end; try discriminate.
  all: repeat match goal with
         | Hc : _ && _ = true |- _ => apply andb_true_iff in Hc; destruct Hc
         | Hc : negb _ = true |- _ => apply negb_true_iff in Hc
         | Hc : (_ <=? _) = true |- _ => apply Z.leb_le in Hc
         | Hc : (_ =? _) = true |- _ => apply Z.eqb_eq in Hc
         | Hc : (_ =? _) = false |- _ => apply Z.eqb_neq in Hc
         end.
  - left. lia.
  - right. cbn [In]. Z.div_mod_to_equations. lia.
Qed.

Lemma some_pair (X Y : Type) (a c : X) (b d : Y) :
  Some (a, b) = Some (c, d) -> a = c /\ b = d.
Proof. intros Heq. inversion Heq. split; reflexivity. Qed.

Ltac decide_move Hx :=
  unfold move_form in Hx;
  repeat match type of Hx with
         | context [if ?c then _ else _] =>
             let v := eval vm_compute in c in
             change c with v in Hx; cbv iota in Hx
         end;
  repeat match type of Hx with
         | context [Some (?k, _)] =>
             lazymatch k with
             | Z0 => fail | Zpos _ => fail
             | _ => let v := eval vm_compute in k in
                    replace k with v in Hx by reflexivity
             end
         end;
  repeat match type of Hx with
         | context [operand ?k _] =>
             lazymatch k with
             | Z0 => fail | Zpos _ => fail
             | _ => let v := eval vm_compute in k in
                    replace k with v in Hx by reflexivity
             end
         end.

Ltac each_register k Hk :=
  let Hcases := fresh "Hcases" in
  assert (Hcases : k = 0 \/ k = 1 \/ k = 2 \/ k = 3 \/ k = 4 \/ k = 5 \/
                   k = 6 \/ k = 7) by lia;
  clear Hk;
  repeat (destruct Hcases as [-> | Hcases]); [ .. | subst k].

(** X22. MOV and MVI: bits 3 to 5 of the opcode select the destination,
    the low three bits of a MOV the source, index 6 standing for the memory
    byte at HL.  The destination receives the value, the other registers,
    the flags and SP stay as they were, and memory changes at HL at most,
    and only when the destination is the memory byte. *)
Theorem move_family (s : machine) (op d v : Z) :
  wf s ->
  memrdr s (PC8 s) = op ->
  move_form op s = Some (d, v) ->
  let s' := step s in
  operand d s' = v /\
  (forall k, 0 <= k <= 7 -> k <> d -> k <> 6 -> operand k s' = operand k s) /\
  F s' = F s /\ SP8 s' = SP8 s /\
  (forall a, d <> 6 \/ a <> word (pair (H s) (L s)) -> mem s' a = mem s a).
Proof.
  intros [HA HB HC HD HE HH HL HF HPC HSP] Hop Hform. cbv zeta.
  rewrite (step_op s op Hop). clear Hop.
  pose proof (move_form_cases op s d v Hform) as Hin.
  split_machine s. cbn [A B C D E H L F PC8 SP8] in *.
  destruct Hin as [[Hrange Hne] | Hin].
  - assert (Hop : is_byte op) by (unfold is_byte; lia).
    each_opcode op Hop; try lia.
    all: clear Hrange Hne Hop.
    all: decide_move Hform; apply some_pair in Hform;
      destruct Hform as [<- <-].
    all: expose; fetch_norm.
    all: rewrite ?pair_bits by assumption.
    all: rewrite ?byte_small by assumption.
    all: split; [ addresses; rewrite ?byte_idem;
                  rewrite ?byte_small by assumption; reflexivity | ].
    all: split; [ intros k Hk Hd H6; each_register k Hk;
                  first [ reflexivity | contradiction ] | ].
    all: split; [reflexivity | split; [reflexivity | ]].
    all: intros a [Hd | Ha]; try reflexivity; try contradiction.
    all: addresses; try reflexivity; contradiction.
  - cbn [In] in Hin.
    repeat (destruct Hin as [<- | Hin]); try contradiction.
    all: decide_move Hform; apply some_pair in Hform;
      destruct Hform as [<- <-].
    all: expose; fetch_norm.
    all: rewrite ?pair_bits by assumption.
    all: rewrite ?byte_small by assumption.
    all: split; [ addresses; rewrite ?byte_idem;
                  rewrite ?byte_small by assumption; reflexivity | ].
    all: split; [ intros k Hk Hd H6; each_register k Hk;
                  first [ reflexivity | contradiction ] | ].
    all: split; [reflexivity | split; [reflexivity | ]].
    all: intros a [Hd | Ha]; try reflexivity; try contradiction.
    all: addresses; try reflexivity; contradiction.
Qed.

Lemma move_family_witness :
  let s := boot some_draws [0x70] in
  wf s /\ memrdr s (PC8 s) = 0x70 /\ move_form 0x70 s = Some (6, B s) /\
  operand 6 (step s) = B s.
Proof.
  intros s.
  assert (Hwf : wf s)
    by (constructor; vm_compute; split; (discriminate || reflexivity)).
  assert (Hop : memrdr s (PC8 s) = 0x70) by reflexivity.
  assert (Hform : move_form 0x70 s = Some (6, B s)) by reflexivity.
  split; [exact Hwf | split; [exact Hop | split; [exact Hform | ]]].
  exact (proj1 (move_family s 0x70 6 (B s) Hwf Hop Hform)).
Defined.

(** ** The program counter *)

Lemma pc_advance (s : machine) :
  transfers_control (memrdr s (PC8 s)) = false ->
  PC8 (step s) = word (PC8 s + length_of (memrdr s (PC8 s))).
Proof.
  by_opcode s op Hop. intros Hnt. split_machine s. each_opcode op Hop.
  all: vm_compute in Hnt; try discriminate Hnt; clear Hnt.
  all: match goal with
       | |- context [length_of ?k] =>
           let v := eval vm_compute in (length_of k) in
           change (length_of k) with v
       end.
  all: expose; fetch_norm; rewrite <- ?Z.add_assoc; fetch_norm;
    rewrite <- ?Z.add_assoc; reflexivity.
Qed.

(** X23. Every instruction that is no jump, call, return, RST or PCHL
    advances PC by its length modulo 2^16: three bytes for LXI, SHLD, LHLD,
    STA and LDA, two for MVI, the immediate arithmetic, IN and OUT, one
    otherwise. *)
Theorem pc_steps_over (s : machine) (op : Z) :
  memrdr s (PC8 s) = op ->
  transfers_control op = false ->
  PC8 (step s) = word (PC8 s + length_of op).
Proof. intros <-. exact (pc_advance s). Qed.

Lemma pc_steps_over_witness :
  let s := boot some_draws [0x2a; 0x00; 0x10] in
  memrdr s (PC8 s) = 0x2a /\ transfers_control 0x2a = false /\
  PC8 (step s) = word (PC8 s + length_of 0x2a).
Proof.
  intros s.
  assert (Hop : memrdr s (PC8 s) = 0x2a) by reflexivity.
  assert (Hnt : transfers_control 0x2a = false) by reflexivity.
  split; [exact Hop | split; [exact Hnt | ]].
  exact (pc_steps_over s 0x2a Hop Hnt).
Defined.

(** ** The loop *)

Lemma state_after_turn (s : machine) :
  State (step s) = if memrdr s (PC8 s) =? 0x76 then Halted else State s.
Proof.
  destruct (state_assigned_by_hlt s) as [Hhlt Hother].
  destruct (Z.eqb_spec (memrdr s (PC8 s)) 0x76) as [Heq | Hne]; auto.
Qed.

Lemma state_after_break (s : machine) :
  State (step (user_int s)) =
  if memrdr s (PC8 s) =? 0x76 then Halted else Interrupted.
Proof. exact (state_after_turn (user_int s)). Qed.

(* without a break the loop is the one of [cpu_8080] *)
Lemma quiet_run (fuel : nat) (s : machine) :
  cpu_8080_under (repeat Quiet fuel) s = cpu_8080 fuel s.
Proof.
  revert s. induction fuel as [|k IH]; intros s; [reflexivity | ].
  cbn [repeat cpu_8080_under cpu_8080 turn_under]. cbv zeta.
  destruct (State (step s)); [apply IH | reflexivity | reflexivity].
Qed.

Lemma run_end (bs : list break) (s s' : machine) :
  State s = Running -> cpu_8080_under bs s = Some s' ->
  exists n b,
    nth_error bs n = Some b /\
    (forall m, (m < n)%nat -> nth_error bs m = Some Quiet) /\
    s' = turn_under b (turns n s) /\
    State s' =
    match b with
    | Quiet => Halted
    | Early => if memrdr (turns n s) (PC8 (turns n s)) =? 0x76
               then Halted else Interrupted
    | Late => Interrupted
    end /\
    (b = Quiet -> memrdr (turns n s) (PC8 (turns n s)) = 0x76).
Proof.
  revert s. induction bs as [|b bs IH]; intros s Hrun; [discriminate | ].
  cbn [cpu_8080_under]. cbv zeta. destruct b; cbn [turn_under].
  - pose proof (state_after_turn s) as Hst. rewrite Hrun in Hst.
    destruct (Z.eqb_spec (memrdr s (PC8 s)) 0x76) as [Hhlt | Hother].
    + rewrite Hst. intros [= <-]. exists 0%nat, Quiet.
      split; [reflexivity | ]. split; [intros m Hm; lia | ].
      split; [reflexivity | ]. split; [exact Hst | intros _; exact Hhlt].
    + rewrite Hst. intros Hrest.
      destruct (IH (step s) Hst Hrest) as (n & b & Hnth & Hquiet & Hs' & Hend).
      exists (S n), b. split; [exact Hnth | ].
      split; [ | split; [exact Hs' | exact Hend]].
      intros [|m] Hm; [reflexivity | ]. apply Hquiet. lia.
  - pose proof (state_after_break s) as Hst.
    assert (Hstop : State (step (user_int s)) <> Running)
      by (rewrite Hst; destruct (memrdr s (PC8 s) =? 0x76); discriminate).
    intros Hres.
    assert (Hs' : s' = step (user_int s))
      by (destruct (State (step (user_int s)));
          [contradiction | congruence | congruence]).
    exists 0%nat, Early.
    split; [reflexivity | ]. split; [intros m Hm; lia | ].
    split; [exact Hs' | ]. split; [ | discriminate].
    rewrite Hs'. exact Hst.
  - change (State (user_int (step s))) with Interrupted. intros [= <-].
    exists 0%nat, Late.
    split; [reflexivity | ]. split; [intros m Hm; lia | ].
    split; [reflexivity | ]. split; [reflexivity | discriminate].
Qed.

(** X25. A run entered with [State = Running] ends by HLT or by the break
    key and in no other way.  Every turn before the last one ran without a
    break.  When no break came in the last turn either, that turn executed
    HLT and [State] is [Halted]; when the handler ran after the switch of
    the last turn, [State] is [Interrupted]; when it ran before the switch,
    [State] is [Interrupted] unless the turn executed HLT, which stores
    [Halted] over it.  A run without any break is a run of [cpu_8080] and
    ends with [State = Halted]. *)
Theorem run_ends_by_hlt_or_break (bs : list break) (s s' : machine) :
  State s = Running -> cpu_8080_under bs s = Some s' ->
  (exists n b,
      nth_error bs n = Some b /\
      (forall m, (m < n)%nat -> nth_error bs m = Some Quiet) /\
      s' = turn_under b (turns n s) /\
      State s' =
      match b with
      | Quiet => Halted
      | Early => if memrdr (turns n s) (PC8 (turns n s)) =? 0x76
                 then Halted else Interrupted
      | Late => Interrupted
      end /\
      (b = Quiet -> memrdr (turns n s) (PC8 (turns n s)) = 0x76)) /\
  (forall fuel, bs = repeat Quiet fuel ->
                cpu_8080 fuel s = Some s' /\ State s' = Halted).
Proof.
  intros Hrun Hres. pose proof (run_end bs s s' Hrun Hres) as Hend.
  split; [exact Hend | ].
  intros fuel Hbs. subst bs. rewrite quiet_run in Hres.
  split; [exact Hres | ].
  destruct Hend as (n & b & Hnth & _ & _ & Hst & _).
  apply nth_error_In, repeat_spec in Hnth. subst b. exact Hst.
Qed.

Lemma run_ends_by_hlt_or_break_witness :
  let s := boot some_draws [0x00; 0x00; 0x76] in
  State s = Running /\
  cpu_8080_under [Quiet; Late; Quiet] s = Some (user_int (turns 2 s)) /\
  exists n b,
    nth_error [Quiet; Late; Quiet] n = Some b /\
    (forall m, (m < n)%nat ->
               nth_error [Quiet; Late; Quiet] m = Some Quiet) /\
    user_int (turns 2 s) = turn_under b (turns n s) /\
    State (user_int (turns 2 s)) =
    match b with
    | Quiet => Halted
    | Early => if memrdr (turns n s) (PC8 (turns n s)) =? 0x76
               then Halted else Interrupted
    | Late => Interrupted
    end /\
    (b = Quiet -> memrdr (turns n s) (PC8 (turns n s)) = 0x76).
Proof.
  intros s.
  assert (Hrun : State s = Running) by reflexivity.
  assert (Hres : cpu_8080_under [Quiet; Late; Quiet] s =
                 Some (user_int (turns 2 s)))
    by (vm_compute; reflexivity).
  split; [exact Hrun | split; [exact Hres | ]].
  exact (proj1 (run_ends_by_hlt_or_break [Quiet; Late; Quiet] s
                  (user_int (turns 2 s)) Hrun Hres)).
Defined.

(** X26. The break key: [user_int] stores [Interrupted] into [State] and
    nothing else.  The loop entered in that state still runs one turn, the
    do-while loop testing [State] after the turn only, and returns after
    it, with [State = Interrupted], or [Halted] when the instruction was
    HLT. *)
Theorem break_ends_the_loop (fuel : nat) (s : machine) :
  let s' := step (user_int s) in
  cpu_8080 (S fuel) (user_int s) = Some s' /\
  State s' = (if memrdr s (PC8 s) =? 0x76 then Halted else Interrupted) /\
  State (user_int s) = Interrupted /\
  registers (user_int s) = registers s /\ IFF (user_int s) = IFF s /\
  PC8 (user_int s) = PC8 s /\ SP8 (user_int s) = SP8 s /\
  t (user_int s) = t s /\ mem (user_int s) = mem s /\
  inp (user_int s) = inp s /\ outp (user_int s) = outp s /\
  tstates (user_int s) = tstates s.
Proof.
  cbv zeta. pose proof (state_after_break s) as Hst.
  split; [ | split; [exact Hst | repeat split]].
  cbn [cpu_8080]. cbv zeta. rewrite Hst.
  destruct (memrdr s (PC8 s) =? 0x76); reflexivity.
Qed.

(** ** Decimal arithmetic *)

Lemma bcd_sum_checked : all_below 100 bcd_sum_ok = true.
Proof. vm_compute. reflexivity. Qed.

Lemma bcd_byte (x : Z) : 0 <= x < 100 -> is_byte (bcd x).
Proof. intros Hx. unfold bcd, is_byte. Z.div_mod_to_equations. lia. Qed.

(** X27. Decimal addition: when the accumulator and the operand hold two
    packed decimal digits each, an ADD, ADC, ADI or ACI followed by DAA
    leaves the packed decimal sum modulo 100 in the accumulator and the
    decimal carry in C. *)
Theorem decimal_addition (s : machine) (op : Z) (wc : bool) (x y : Z) :
  memrdr s (PC8 s) = op ->
  adc_form op s = Some (wc, bcd y) ->
  A s = bcd x -> 0 <= x < 100 -> 0 <= y < 100 ->
  memrdr (step s) (PC8 (step s)) = 0x27 ->
  let cin := Z.b2z (wc && flag C_FLAG (F s)) in
  let s' := step (step s) in
  A s' = bcd ((x + y + cin) mod 100) /\
  flag C_FLAG (F s') = (100 <=? x + y + cin).
Proof.
  intros Hop Hform HA Hx Hy Hdaa. cbv zeta.
  assert (Ha : is_byte (A s)) by (rewrite HA; apply bcd_byte, Hx).
  pose proof (add_family_sum s op wc (bcd y) Hop Hform Ha (bcd_byte y Hy))
    as Hadd. cbv zeta in Hadd. destruct Hadd as [Hsum Hflags].
  destruct Hflags as [_ _ HH _ HC _].
  pose proof (daa_semantics (step s) Hdaa) as Hadj. cbv zeta in Hadj.
  destruct Hadj as (HA2 & _ & _ & HC2).
  rewrite HA2, HC2, HH, HC, Hsum, HA.
  pose proof (all_below_spec 100 _ bcd_sum_checked x Hx) as Hrow.
  pose proof (all_below_spec 100 _ Hrow y Hy) as Hcell. cbv beta in Hcell.
  pose proof (all_below_spec 2 _ Hcell _
                (bit_of_bool (wc && flag C_FLAG (F s)))) as Hok.
  cbv beta zeta in Hok. apply andb_true_iff in Hok.
  destruct Hok as [Hval Hcarry].
  apply Z.eqb_eq in Hval. apply Bool.eqb_prop in Hcarry.
  split; assumption.
Qed.

Lemma decimal_addition_witness :
  let s := step (boot some_draws [0x3e; 0x58; 0xc6; 0x67; 0x27]) in
  memrdr s (PC8 s) = 0xc6 /\ adc_form 0xc6 s = Some (false, bcd 67) /\
  A s = bcd 58 /\ 0 <= 58 < 100 /\ 0 <= 67 < 100 /\
  memrdr (step s) (PC8 (step s)) = 0x27 /\
  A (step (step s)) = bcd 25 /\ flag C_FLAG (F (step (step s))) = true.
Proof.
  intros s.
  assert (Hop : memrdr s (PC8 s) = 0xc6) by reflexivity.
  assert (Hform : adc_form 0xc6 s = Some (false, bcd 67)) by reflexivity.
  assert (HA : A s = bcd 58) by reflexivity.
  assert (Hx : 0 <= 58 < 100) by lia.
  assert (Hy : 0 <= 67 < 100) by lia.
  assert (Hdaa : memrdr (step s) (PC8 (step s)) = 0x27) by reflexivity.
  split; [exact Hop | split; [exact Hform | split; [exact HA | ]]].
  split; [exact Hx | split; [exact Hy | split; [exact Hdaa | ]]].
  exact (decimal_addition s 0xc6 false 58 67 Hop Hform HA Hx Hy Hdaa).
Defined.

(** ** Complement and carry *)

Lemma byte_lnot (a : Z) : is_byte a -> byte (Z.lnot a) = 255 - a.
Proof.
  intros Ha. unfold Z.lnot, byte, is_byte in *.
  replace (Z.pred (- a)) with (255 - a + -1 * 256) by lia.
  rewrite Z.mod_add by lia. apply Z.mod_small. lia.
Qed.

(** X28. CMA replaces the accumulator by its complement to 255 and touches
    no flag; STC sets the carry flag and CMC inverts it, both leaving the
    accumulator and every other flag bit as they were. *)
Theorem complement_and_carry (s : machine) :
  is_byte (A s) -> is_byte (F s) ->
  let s' := step s in
  (memrdr s (PC8 s) = 0x2f -> A s' = 255 - A s /\ F s' = F s) /\
  (memrdr s (PC8 s) = 0x37 ->
   A s' = A s /\ flag C_FLAG (F s') = true /\
   F s' .| C_FLAG = F s .| C_FLAG) /\
  (memrdr s (PC8 s) = 0x3f ->
   A s' = A s /\ flag C_FLAG (F s') = negb (flag C_FLAG (F s)) /\
   F s' .| C_FLAG = F s .| C_FLAG).
Proof.
  intros Ha Hf. cbv zeta. split; [ | split]; intros Hop.
  all: rewrite (step_op s _ Hop); clear Hop.
  all: split_machine s; cbn [A F] in Ha, Hf; expose.
  - split; [apply byte_lnot, Ha | reflexivity].
  - destruct (carry_set rf Hf) as [Hkeep Hc]. auto.
  - destruct (carry_flip rf Hf) as [Hkeep Hc]. auto.
Qed.

Lemma complement_and_carry_witness :
  let s := boot some_draws [0x2f] in
  is_byte (A s) /\ is_byte (F s) /\ memrdr s (PC8 s) = 0x2f /\
  A (step s) = 255 - A s /\ F (step s) = F s.
Proof.
  intros s.
  assert (Ha : is_byte (A s))
    by (vm_compute; split; (discriminate || reflexivity)).
  assert (Hf : is_byte (F s))
    by (vm_compute; split; (discriminate || reflexivity)).
  assert (Hop : memrdr s (PC8 s) = 0x2f) by reflexivity.
  split; [exact Ha | split; [exact Hf | split; [exact Hop | ]]].
  exact (proj1 (complement_and_carry s Ha Hf) Hop).
Defined.

(** ** Loads and stores *)

Lemma pair_word (hi lo : Z) :
  is_byte hi -> is_byte lo -> word (pair hi lo) = pair hi lo.
Proof.
  intros Hhi Hlo. apply word_small. unfold pair, is_byte, is_word in *. lia.
Qed.

(** X29. STAX B, STAX D and STA store the accumulator at the address in BC,
    in DE or behind the opcode, and change no other byte of memory and no
    register; LDAX B, LDAX D and LDA load it from there and leave memory
    alone.  The flags stay as they were; the register forms take 7
    T-states, STA and LDA 13. *)
Theorem accumulator_transfers (s : machine) (op : Z) (stores : bool)
        (addr : machine -> Z) :
  In (op, stores, addr) accumulator_moves ->
  wf s ->
  memrdr s (PC8 s) = op ->
  let s' := step s in
  t s' = (if op <? 0x20 then 7 else 13) /\ F s' = F s /\
  if stores
  then memrdr s' (addr s) = A s /\
       (forall a, a <> word (addr s) -> mem s' a = mem s a) /\
       registers s' = registers s
  else A s' = memrdr s (addr s) /\ mem s' = mem s.
Proof.
  intros Hin [HA HB HC HD HE HH HL HF HPC HSP] Hop. cbv zeta.
  rewrite (step_op s op Hop). clear Hop.
  split_machine s. cbn [A B C D E H L F PC8 SP8] in *.
  cbv [accumulator_moves In] in Hin.
  repeat (destruct Hin as [Hin | Hin]; [injection Hin as <- <- <- | ]);
    try contradiction.
  all: unfold immediate16, registers; expose; fetch_norm.
  all: rewrite ?address_read; rewrite ?pair_bits by assumption.
  all: rewrite ?pair_word by in_range.
  all: split; [reflexivity | split; [reflexivity | ]].
  all: repeat split; try reflexivity.
  all: try (intros a Ha).
  all: addresses; try reflexivity; try contradiction.
  all: rewrite ?byte_idem; apply byte_small; assumption.
Qed.

Lemma accumulator_transfers_witness :
  let s := boot some_draws [0x32; 0x00; 0x10] in
  In (0x32, true, immediate16) accumulator_moves /\ wf s /\
  memrdr s (PC8 s) = 0x32 /\
  t (step s) = 13 /\ F (step s) = F s /\
  memrdr (step s) (immediate16 s) = A s.
Proof.
  intros s.
  assert (Hin : In (0x32, true, immediate16) accumulator_moves)
    by (right; right; left; reflexivity).
  assert (Hwf : wf s)
    by (constructor; vm_compute; split; (discriminate || reflexivity)).
  assert (Hop : memrdr s (PC8 s) = 0x32) by reflexivity.
  split; [exact Hin | split; [exact Hwf | split; [exact Hop | ]]].
  split; [exact (proj1 (accumulator_transfers s 0x32 true immediate16
                          Hin Hwf Hop)) | ].
  split; [exact (proj1 (proj2 (accumulator_transfers s 0x32 true immediate16
                                 Hin Hwf Hop))) | ].
  exact (proj1 (proj2 (proj2 (accumulator_transfers s 0x32 true immediate16
                                Hin Hwf Hop)))).
Defined.

Lemma immediate_word (hi lo : Z) : is_word (pair (byte hi) (byte lo)).
Proof.
  pose proof (byte_range hi). pose proof (byte_range lo).
  unfold pair, is_byte, is_word in *. lia.
Qed.

Lemma address_next (m : Z -> Z) (p : Z) :
  word ((word (byte (m (word (p + 1)))) .|
         (byte (m (word (p + 1 + 1))) << 8)) + 1) =
  word (pair (byte (m (word (p + 2)))) (byte (m (word (p + 1)))) + 1).
Proof. rewrite <- word_add_l, address_read. reflexivity. Qed.

(** X30. The transfers of HL: XCHG swaps HL with DE, SPHL and PCHL copy HL
    to SP and to PC, SHLD stores L at the address behind the opcode and H
    at the next address modulo 2^16 and changes no other byte and no
    register, LHLD loads L and H from there. *)
Theorem hl_transfers (s : machine) :
  wf s ->
  let s' := step s in
  let hl := pair (H s) (L s) in
  let nn := immediate16 s in
  (memrdr s (PC8 s) = 0xeb ->
   D s' = H s /\ E s' = L s /\ H s' = D s /\ L s' = E s /\
   mem s' = mem s) /\
  (memrdr s (PC8 s) = 0xf9 -> SP8 s' = hl /\ PC8 s' = word (PC8 s + 1)) /\
  (memrdr s (PC8 s) = 0xe9 -> PC8 s' = hl /\ SP8 s' = SP8 s) /\
  (memrdr s (PC8 s) = 0x22 ->
   memrdr s' nn = L s /\ memrdr s' (nn + 1) = H s /\
   (forall a, a <> nn -> a <> word (nn + 1) -> mem s' a = mem s a) /\
   registers s' = registers s) /\
  (memrdr s (PC8 s) = 0x2a ->
   L s' = memrdr s nn /\ H s' = memrdr s (nn + 1) /\ mem s' = mem s).
Proof.
  intros [HA HB HC HD HE HH HL HF HPC HSP]. cbv zeta.
  split; [ | split; [ | split; [ | split]]]; intros Hop.
  all: rewrite (step_op s _ Hop); clear Hop.
  all: split_machine s; cbn [A B C D E H L F PC8 SP8] in *.
  all: unfold immediate16, registers; expose; fetch_norm.
  all: rewrite ?address_next, ?address_read.
  all: rewrite ?pair_bits by assumption.
  all: rewrite ?pair_word by in_range.
  all: rewrite ?byte_small by assumption.
  - repeat split.
  - repeat split.
  - repeat split.
  - set (nn := pair _ _).
    assert (Hnn : is_word nn) by (apply immediate_word).
    clearbody nn. rewrite ?(word_small nn Hnn).
    repeat split; try (intros a Hlo Hhi); addresses;
      rewrite ?byte_idem; first [ apply byte_small; assumption
                                | reflexivity | contradiction ].
  - repeat split.
Qed.

Lemma hl_transfers_witness :
  let s := boot some_draws [0x22; 0xff; 0xff] in
  wf s /\ memrdr s (PC8 s) = 0x22 /\
  memrdr (step s) (immediate16 s) = L s /\
  memrdr (step s) (immediate16 s + 1) = H s /\
  (forall a, a <> immediate16 s -> a <> word (immediate16 s + 1) ->
             mem (step s) a = mem s a) /\
  registers (step s) = registers s.
Proof.
  intros s.
  assert (Hwf : wf s)
    by (constructor; vm_compute; split; (discriminate || reflexivity)).
  assert (Hop : memrdr s (PC8 s) = 0x22) by reflexivity.
  split; [exact Hwf | split; [exact Hop | ]].
  exact (proj1 (proj2 (proj2 (proj2 (hl_transfers s Hwf)))) Hop).
Defined.
